(** * Generic CRUD repository over a relational table

    A shallow embedding of [src/common/repositories/abstract.repository.ts]
    (the [AbstractRepository] class: [findAll], [findOne], [create],
    [update], [delete], [extractDuplicateField]) together with the parts of
    the JavaScript runtime and of the storage engine that the class calls:
    [JSON.parse], [Object.keys], string truthiness, numbers and their
    rendering, the query builder, and a table with an auto-increment key,
    unique columns and defaults.

    Layout: [Js] (runtime values and strings), [Json] ([JSON.parse]),
    [Sql] (stored values, LIKE, the table and its statements), [Errors]
    (exception classes and the error taxonomy), [Repo] (the repository
    class itself), then the theorems. *)

From Stdlib Require Import String Ascii List ZArith Lia Bool DecimalString DecimalPos DecimalN
  Permutation.
Import ListNotations.
Open Scope string_scope.
Set Warnings "-register-all".

(* ================================================================== *)
(** ** JavaScript runtime values *)
(* ================================================================== *)

Module Js.

(** Strings are sequences of code units, one [ascii] per unit; text
    outside ASCII is carried as its UTF-8 bytes. *)
Definition chars (s : string) : list ascii := list_ascii_of_string s.
Definition str (l : list ascii) : string := string_of_list_ascii l.

Definition dquote : ascii := ascii_of_nat 34.
Definition backslash : ascii := ascii_of_nat 92.

(** [with_dquotes s] is [s] with every apostrophe turned into a double
    quote; it is only a way to write JSON texts down. *)
Definition with_dquotes (s : string) : string :=
  str (map (fun c => if Ascii.eqb c "'"%char then dquote else c) (chars s)).

(** Values produced by [JSON.parse].  A number is written as the decimal
    [m * 10^e] of its literal; the double it denotes is a function of
    that decimal, and whoever consumes the number sees the double only.
    An object is its own enumerable string-keyed properties, in the order
    [Object.keys] reports them. *)
Inductive value : Type :=
| JNull
| JBool (b : bool)
| JNumber (m e : Z)
| JString (s : string)
| JArray (items : list value)
| JObject (props : list (string * value)).

(** An optional string property of a DTO: [None] is [undefined]. *)
Definition truthy (o : option string) : bool :=
  match o with
  | Some s => negb (String.eqb s "")
  | None => false
  end.

(** *** Numbers

    A number used as an identifier is [NaN] or an integer.  The caller
    holds it in a double: the integers it can pass are those a double
    holds exactly, which [to_double] leaves as they are.  No row has a
    key that is not an integer, so that any other finite number behaves
    like an integer that no row has.  The page and the limit of a
    request are integers as well ([@IsInt]). *)
Inductive number : Type :=
| NaN
| Num (z : Z).

Definition isNaN (n : number) : bool :=
  match n with NaN => true | Num _ => false end.

Definition bit_length (a : Z) : Z := if Z.eqb a 0 then 0%Z else (Z.log2 a + 1)%Z.

(** Rounding to 53 significant bits, ties to the even significand. *)
Definition round_magnitude (a : Z) : Z :=
  let s := (bit_length a - 53)%Z in
  if (s <=? 0)%Z then a
  else
    let q := Z.shiftr a s in
    let r := (a - Z.shiftl q s)%Z in
    let half := Z.shiftl 1 (s - 1) in
    let q' := if (half <? r)%Z then (q + 1)%Z
              else if Z.eqb r half then (if Z.even q then q else (q + 1)%Z)
              else q in
    Z.shiftl q' s.

Definition to_double (z : Z) : Z := (Z.sgn z * round_magnitude (Z.abs z))%Z.

(** [a - b] and [a * b] on doubles that hold integers: the result is
    rounded to a double.  A result beyond the largest double, which is
    an infinity, is kept as the integer it is rounded from, and prints
    as [Infinity]. *)
Definition minus (a b : Z) : Z := to_double (a - b).
Definition times (a b : Z) : Z := to_double (a * b).

(** Whether a number is truthy: every number but zero and [NaN]. *)
Definition nonzero (z : Z) : bool := negb (Z.eqb z 0).

(** Template-literal rendering of small indices. *)
Definition string_of_nat (n : nat) : string :=
  NilZero.string_of_uint (Nat.to_uint n).

Definition string_of_Z (z : Z) : string :=
  NilZero.string_of_int (Z.to_int z).

(** Whether the decimal [c] is read back as the double [v], for [v] at
    least [2^53]: [c] lies between the midpoints to the neighbours of
    [v], the midpoints included when the significand of [v] is even. *)
Definition reads_back (v c : Z) : bool :=
  let e := (bit_length v - 53)%Z in
  let m := Z.shiftr v e in
  let above := (2 ^ (e + 1))%Z in
  let below := if Z.eqb m (2 ^ 52) then (2 ^ e)%Z else (2 ^ (e + 1))%Z in
  let d := (4 * Z.abs (v - c))%Z in
  let room := if (c <=? v)%Z then below else above in
  if Z.even m then (d <=? room)%Z else (d <? room)%Z.

(** The decimal with the fewest significant digits that is read back as
    [v], the closest one when there are several: multiples of [10^j]
    are tried from the largest [j] down. *)
Fixpoint shortest (v : Z) (j : nat) : Z :=
  match j with
  | O => v
  | S j' =>
      let p := (10 ^ Z.of_nat j)%Z in
      let c1 := (v / p * p)%Z in
      let c2 := (c1 + p)%Z in
      match reads_back v c1, reads_back v c2 with
      | true, true =>
          if (v - c1 <? c2 - v)%Z then c1
          else if (c2 - v <? v - c1)%Z then c2
          else if Z.even (v / p) then c1 else c2
      | true, false => c1
      | false, true => c2
      | false, false => shortest v j'
      end
  end.

Fixpoint drop_zeros (l : list ascii) : list ascii :=
  match l with
  | c :: r => if Ascii.eqb c "0"%char then drop_zeros r else l
  | [] => []
  end.

(** [d.ddde+x] for a decimal of more than 21 digits. *)
Definition exponent_form (digits : list ascii) : string :=
  let n := List.length digits in
  match rev (drop_zeros (rev digits)) with
  | [] => ""
  | [d] => str [d] ++ "e+" ++ string_of_nat (n - 1)
  | d :: more => str (d :: "."%char :: more) ++ "e+" ++ string_of_nat (n - 1)
  end.

Definition string_of_magnitude (a : Z) : string :=
  if (2 ^ 1024 <=? a)%Z then "Infinity"
  else if (a <? 2 ^ 53)%Z then string_of_Z a
  else
    let c := chars (string_of_Z (shortest a (String.length (string_of_Z a) - 1))) in
    if Nat.leb (List.length c) 21 then str c else exponent_form c.

(** [String(n)] and the rendering of [n] in a template literal or a
    concatenation: all the digits up to [2^53], the shortest decimal
    that is read back as the same double beyond, in exponent form from
    [1e21] on. *)
Definition string_of_number (n : number) : string :=
  match n with
  | NaN => "NaN"
  | Num z =>
      let v := to_double z in
      if (v <? 0)%Z then "-" ++ string_of_magnitude (- v) else string_of_magnitude v
  end.

(** Upper and lower case of an ASCII letter. *)
Definition upper_char (c : ascii) : ascii :=
  let n := nat_of_ascii c in
  if andb (Nat.leb 97 n) (Nat.leb n 122) then ascii_of_nat (n - 32) else c.

Definition lower_char (c : ascii) : ascii :=
  let n := nat_of_ascii c in
  if andb (Nat.leb 65 n) (Nat.leb n 90) then ascii_of_nat (n + 32) else c.

(** The characters outside ASCII whose upper-case form is ASCII, in
    their UTF-8 bytes: dotless i, long s, sharp s, and the ligatures
    U+FB00 to U+FB06. *)
Definition upper_two_bytes (c1 c2 : ascii) : option (list ascii) :=
  match nat_of_ascii c1, nat_of_ascii c2 with
  | 196, 177 => Some (chars "I")
  | 197, 191 => Some (chars "S")
  | 195, 159 => Some (chars "SS")
  | _, _ => None
  end.

Definition upper_three_bytes (c1 c2 c3 : ascii) : option (list ascii) :=
  match nat_of_ascii c1, nat_of_ascii c2, nat_of_ascii c3 with
  | 239, 172, 128 => Some (chars "FF")
  | 239, 172, 129 => Some (chars "FI")
  | 239, 172, 130 => Some (chars "FL")
  | 239, 172, 131 => Some (chars "FFI")
  | 239, 172, 132 => Some (chars "FFL")
  | 239, 172, 133 => Some (chars "ST")
  | 239, 172, 134 => Some (chars "ST")
  | _, _, _ => None
  end.

Fixpoint upper_chars (l : list ascii) : list ascii :=
  match l with
  | [] => []
  | c1 :: r1 =>
      match r1 with
      | [] => [upper_char c1]
      | c2 :: r2 =>
          match upper_two_bytes c1 c2 with
          | Some u => u ++ upper_chars r2
          | None =>
              match r2 with
              | [] => upper_char c1 :: upper_chars r1
              | c3 :: r3 =>
                  match upper_three_bytes c1 c2 c3 with
                  | Some u => u ++ upper_chars r3
                  | None => upper_char c1 :: upper_chars r1
                  end
              end
          end
      end
  end.

(** [String.prototype.toUpperCase].  Every other character outside
    ASCII is left as it is, and its upper-case form is outside ASCII
    too: comparing the result with an ASCII string is exact. *)
Definition toUpperCase (s : string) : string := str (upper_chars (chars s)).

(** [Array.prototype.includes] on strings. *)
Definition includes (l : list string) (x : string) : bool :=
  existsb (String.eqb x) l.

(** *** Property keys *)

Definition is_digit (c : ascii) : bool :=
  let n := nat_of_ascii c in andb (Nat.leb 48 n) (Nat.leb n 57).

Definition digit_val (c : ascii) : N := N_of_ascii c - 48.

Definition digits_val (l : list ascii) : N :=
  fold_left (fun acc c => (acc * 10 + digit_val c)%N) l 0%N.

(** An array index is the canonical decimal form of an integer in
    [0, 2^32 - 2]. *)
Definition array_index (k : string) : option N :=
  match chars k with
  | [] => None
  | c :: r =>
      if andb (forallb is_digit (c :: r))
              (orb (negb (Ascii.eqb c "0"%char)) (match r with [] => true | _ => false end))
      then let n := digits_val (c :: r) in
           if (n <=? 4294967294)%N then Some n else None
      else None
  end.

(** Defining a data property: an existing key keeps its place and takes
    the new value, a new key goes last. *)
Fixpoint define_property (props : list (string * value)) (k : string) (v : value)
  : list (string * value) :=
  match props with
  | [] => [(k, v)]
  | (k', v') :: rest =>
      if String.eqb k' k then (k', v) :: rest
      else (k', v') :: define_property rest k v
  end.

Fixpoint insert_index (n : N) (kv : string * value) (l : list (N * (string * value)))
  : list (N * (string * value)) :=
  match l with
  | [] => [(n, kv)]
  | (m, kv') :: rest =>
      if (n <? m)%N then (n, kv) :: (m, kv') :: rest
      else (m, kv') :: insert_index n kv rest
  end.

(** Own property order: array indices ascending, then the other keys in
    creation order. *)
Definition own_property_order (props : list (string * value)) : list (string * value) :=
  let indexed :=
    fold_left (fun acc kv =>
                 match array_index (fst kv) with
                 | Some n => insert_index n kv acc
                 | None => acc
                 end) props [] in
  let named :=
    filter (fun kv => match array_index (fst kv) with Some _ => false | None => true end) props in
  map snd indexed ++ named.

(** The object a JSON object literal with the given members (in text
    order) evaluates to. *)
Definition object_of_members (members : list (string * value)) : value :=
  JObject (own_property_order
             (fold_left (fun acc kv => define_property acc (fst kv) (snd kv)) members [])).

Definition index_keys (n : nat) : list string := map string_of_nat (seq 0 n).

(** *** Code units

    A string is carried as its UTF-8 bytes; a surrogate that stands alone
    takes the three bytes of its own value. *)
Definition utf8 (n : N) : list ascii :=
  if (n <? 128)%N then [ascii_of_N n]
  else if (n <? 2048)%N then
    [ascii_of_N (192 + n / 64); ascii_of_N (128 + n mod 64)]
  else if (n <? 65536)%N then
    [ascii_of_N (224 + n / 4096); ascii_of_N (128 + (n / 64) mod 64);
     ascii_of_N (128 + n mod 64)]
  else
    [ascii_of_N (240 + n / 262144); ascii_of_N (128 + (n / 4096) mod 64);
     ascii_of_N (128 + (n / 64) mod 64); ascii_of_N (128 + n mod 64)].

(** The two surrogates of a character written in four bytes. *)
Definition surrogates (c1 c2 c3 c4 : ascii) : list (list ascii) :=
  let cp := ((((N_of_ascii c1 mod 8) * 64 + N_of_ascii c2 mod 64) * 64
              + N_of_ascii c3 mod 64) * 64 + N_of_ascii c4 mod 64 - 65536)%N in
  [utf8 (55296 + cp / 1024); utf8 (56320 + cp mod 1024)].

(** The UTF-16 code units of a string, each as a string of its own. *)
Fixpoint code_units (l : list ascii) : list (list ascii) :=
  match l with
  | [] => []
  | c1 :: r1 =>
      let n := N_of_ascii c1 in
      if (n <? 192)%N then [c1] :: code_units r1
      else
        match r1 with
        | [] => [[c1]]
        | c2 :: r2 =>
            if (n <? 224)%N then [c1; c2] :: code_units r2
            else
              match r2 with
              | [] => [c1] :: code_units r1
              | c3 :: r3 =>
                  if (n <? 240)%N then [c1; c2; c3] :: code_units r3
                  else
                    match r3 with
                    | [] => [c1] :: code_units r1
                    | c4 :: r4 => (surrogates c1 c2 c3 c4 ++ code_units r4)%list
                    end
              end
        end
  end.

(** [Object.keys v]; [None] is the [TypeError] raised for [null]. *)
Definition Object_keys (v : value) : option (list string) :=
  match v with
  | JNull => None
  | JBool _ => Some []
  | JNumber _ _ => Some []
  | JString s => Some (index_keys (List.length (code_units (chars s))))
  | JArray items => Some (index_keys (List.length items))
  | JObject props => Some (map fst props)
  end.

Fixpoint assoc (props : list (string * value)) (k : string) : option value :=
  match props with
  | [] => None
  | (k', v) :: rest => if String.eqb k' k then Some v else assoc rest k
  end.

(** [v[k]]; [None] is [undefined]. *)
Definition get (v : value) (k : string) : option value :=
  match v with
  | JObject props => assoc props k
  | JArray items =>
      match array_index k with
      | Some n => nth_error items (N.to_nat n)
      | None => None
      end
  | JString s =>
      match array_index k with
      | Some n =>
          match nth_error (code_units (chars s)) (N.to_nat n) with
          | Some unit => Some (JString (str unit))
          | None => None
          end
      | None => None
      end
  | _ => None
  end.

End Js.

(* ================================================================== *)
(** ** [JSON.parse] *)
(* ================================================================== *)

Module Json.
Import Js.

Inductive token : Type :=
| TLBrace | TRBrace | TLBracket | TRBracket | TColon | TComma
| TStr (s : string)
| TNum (m e : Z)
| TTrue | TFalse | TNull.

(** *** Lexer *)

Definition is_ws (c : ascii) : bool :=
  let n := nat_of_ascii c in
  orb (orb (Nat.eqb n 32) (Nat.eqb n 9)) (orb (Nat.eqb n 10) (Nat.eqb n 13)).

Definition is_lower (c : ascii) : bool :=
  let n := nat_of_ascii c in andb (Nat.leb 97 n) (Nat.leb n 122).

(** Characters of number and literal lexemes. *)
Definition is_word_char (c : ascii) : bool :=
  orb (orb (is_digit c) (is_lower c))
      (orb (orb (Ascii.eqb c "-"%char) (Ascii.eqb c "+"%char))
           (orb (Ascii.eqb c "."%char) (Ascii.eqb c "E"%char))).

Definition hex_val (c : ascii) : option N :=
  let n := N_of_ascii c in
  if andb (48 <=? n)%N (n <=? 57)%N then Some (n - 48)%N
  else if andb (97 <=? n)%N (n <=? 102)%N then Some (n - 87)%N
  else if andb (65 <=? n)%N (n <=? 70)%N then Some (n - 55)%N
  else None.

(** The string read so far (in reverse) with the code unit of a [\u]
    escape put after it: a low surrogate that follows a high surrogate
    completes the character of the pair. *)
Definition push_unit (n : N) (acc : list ascii) : list ascii :=
  match acc with
  | b3 :: b2 :: b1 :: rest =>
      if andb (andb (56320 <=? n)%N (n <=? 57343)%N)
              (andb (N.eqb (N_of_ascii b1) 237)
                    (andb (160 <=? N_of_ascii b2)%N (N_of_ascii b2 <=? 175)%N))
      then
        let high := ((N_of_ascii b2 - 160) * 64 + (N_of_ascii b3 - 128))%N in
        (rev (utf8 (65536 + high * 1024 + (n - 56320))) ++ rest)%list
      else (rev (utf8 n) ++ acc)%list
  | _ => (rev (utf8 n) ++ acc)%list
  end.

Fixpoint take_digits (l : list ascii) : list ascii * list ascii :=
  match l with
  | c :: r => if is_digit c then let (ds, rest) := take_digits r in (c :: ds, rest)
              else ([], l)
  | [] => ([], [])
  end.

Definition Zdigits (ds : list ascii) : Z := Z.of_N (digits_val ds).

(** A number lexeme: an optional minus sign; an integer part that is a
    single 0 or starts with a non-zero digit; an optional fraction (a dot
    and at least one digit); an optional exponent (e or E, an optional
    sign, at least one digit). *)
Definition number_token (l : list ascii) : option token :=
  let (neg, l1) := match l with
                   | c :: r => if Ascii.eqb c "-"%char then (true, r) else (false, l)
                   | [] => (false, l)
                   end in
  let (int_ds, l2) := take_digits l1 in
  match int_ds with
  | [] => None
  | d :: more =>
      if andb (Ascii.eqb d "0"%char) (match more with [] => false | _ => true end)
      then None
      else
        let frac :=
          match l2 with
          | c :: r =>
              if Ascii.eqb c "."%char then
                let (fs, rest) := take_digits r in
                match fs with [] => None | _ => Some (fs, rest) end
              else Some ([], l2)
          | [] => Some ([], [])
          end in
        match frac with
        | None => None
        | Some (frac_ds, l3) =>
            let expo :=
              match l3 with
              | [] => Some 0%Z
              | c :: r =>
                  if orb (Ascii.eqb c "e"%char) (Ascii.eqb c "E"%char) then
                    let (eneg, r1) :=
                      match r with
                      | s :: r' =>
                          if Ascii.eqb s "-"%char then (true, r')
                          else if Ascii.eqb s "+"%char then (false, r')
                          else (false, r)
                      | [] => (false, r)
                      end in
                    let (es, rest) := take_digits r1 in
                    match es, rest with
                    | _ :: _, [] => Some (if eneg then (- Zdigits es)%Z else Zdigits es)
                    | _, _ => None
                    end
                  else None
              end in
            match expo with
            | None => None
            | Some x =>
                let m := Zdigits (int_ds ++ frac_ds) in
                Some (TNum (if neg then (- m)%Z else m)
                           (x - Z.of_nat (List.length frac_ds))%Z)
            end
        end
  end.

Definition word_token (l : list ascii) : option token :=
  let w := str l in
  if String.eqb w "true" then Some TTrue
  else if String.eqb w "false" then Some TFalse
  else if String.eqb w "null" then Some TNull
  else number_token l.

Inductive lex_mode : Type :=
| LStart
| LStr (acc : list ascii)
| LEsc (acc : list ascii)
| LUni (acc : list ascii) (digits : list N)
| LWord (acc : list ascii).

(** One character read outside any lexeme; accumulators are reversed. *)
Definition lex_start (c : ascii) (out : list token) : option (lex_mode * list token) :=
  if is_ws c then Some (LStart, out)
  else if Ascii.eqb c "{"%char then Some (LStart, TLBrace :: out)
  else if Ascii.eqb c "}"%char then Some (LStart, TRBrace :: out)
  else if Ascii.eqb c "["%char then Some (LStart, TLBracket :: out)
  else if Ascii.eqb c "]"%char then Some (LStart, TRBracket :: out)
  else if Ascii.eqb c ":"%char then Some (LStart, TColon :: out)
  else if Ascii.eqb c ","%char then Some (LStart, TComma :: out)
  else if Ascii.eqb c dquote then Some (LStr [], out)
  else if is_word_char c then Some (LWord [c], out)
  else None.

Definition escape_char (c : ascii) : option ascii :=
  if Ascii.eqb c dquote then Some dquote
  else if Ascii.eqb c backslash then Some backslash
  else if Ascii.eqb c "/"%char then Some "/"%char
  else if Ascii.eqb c "b"%char then Some (ascii_of_nat 8)
  else if Ascii.eqb c "f"%char then Some (ascii_of_nat 12)
  else if Ascii.eqb c "n"%char then Some (ascii_of_nat 10)
  else if Ascii.eqb c "r"%char then Some (ascii_of_nat 13)
  else if Ascii.eqb c "t"%char then Some (ascii_of_nat 9)
  else None.

Fixpoint lex (m : lex_mode) (out : list token) (s : list ascii) : option (list token) :=
  match s with
  | [] =>
      match m with
      | LStart => Some (rev out)
      | LWord acc =>
          match word_token (rev acc) with
          | Some t => Some (rev (t :: out))
          | None => None
          end
      | _ => None
      end
  | c :: r =>
      match m with
      | LStart =>
          match lex_start c out with
          | Some (m', out') => lex m' out' r
          | None => None
          end
      | LStr acc =>
          if Ascii.eqb c dquote then lex LStart (TStr (str (rev acc)) :: out) r
          else if Ascii.eqb c backslash then lex (LEsc acc) out r
          else if Nat.ltb (nat_of_ascii c) 32 then None
          else lex (LStr (c :: acc)) out r
      | LEsc acc =>
          if Ascii.eqb c "u"%char then lex (LUni acc []) out r
          else match escape_char c with
               | Some e => lex (LStr (e :: acc)) out r
               | None => None
               end
      | LUni acc ds =>
          match hex_val c with
          | Some h =>
              match ds with
              | [d1; d2; d3] =>
                  lex (LStr (push_unit (((d1 * 16 + d2) * 16 + d3) * 16 + h)%N acc)) out r
              | _ => lex (LUni acc (ds ++ [h])) out r
              end
          | None => None
          end
      | LWord acc =>
          if is_word_char c then lex (LWord (c :: acc)) out r
          else match word_token (rev acc) with
               | Some t =>
                   match lex_start c (t :: out) with
                   | Some (m', out') => lex m' out' r
                   | None => None
                   end
               | None => None
               end
      end
  end.

(** *** Parser: a push-down automaton over the tokens *)

Inductive ctx : Type :=
| CArr (items : list value)
| CObj (members : list (string * value)) (key : option string).

Inductive expect : Type :=
| ExpValue | ExpValueOrEnd | ExpKeyOrEnd | ExpKey | ExpColon | ExpCommaOrEnd
| Done (v : value).

(** A value is complete: it closes the text or goes into the enclosing
    container. *)
Definition push_value (v : value) (st : list ctx) : option (expect * list ctx) :=
  match st with
  | [] => Some (Done v, [])
  | CArr items :: st' => Some (ExpCommaOrEnd, CArr (v :: items) :: st')
  | CObj members (Some k) :: st' => Some (ExpCommaOrEnd, CObj ((k, v) :: members) None :: st')
  | CObj _ None :: _ => None
  end.

Definition open_or_scalar (t : token) (st : list ctx) : option (expect * list ctx) :=
  match t with
  | TStr s => push_value (JString s) st
  | TNum m e => push_value (JNumber m e) st
  | TTrue => push_value (JBool true) st
  | TFalse => push_value (JBool false) st
  | TNull => push_value JNull st
  | TLBracket => Some (ExpValueOrEnd, CArr [] :: st)
  | TLBrace => Some (ExpKeyOrEnd, CObj [] None :: st)
  | _ => None
  end.

Definition close_array (st : list ctx) : option (expect * list ctx) :=
  match st with
  | CArr items :: st' => push_value (JArray (rev items)) st'
  | _ => None
  end.

Definition close_object (st : list ctx) : option (expect * list ctx) :=
  match st with
  | CObj members None :: st' => push_value (object_of_members (rev members)) st'
  | _ => None
  end.

Definition take_key (k : string) (st : list ctx) : option (expect * list ctx) :=
  match st with
  | CObj members None :: st' => Some (ExpColon, CObj members (Some k) :: st')
  | _ => None
  end.

Definition step (e : expect) (st : list ctx) (t : token) : option (expect * list ctx) :=
  match e with
  | ExpValue => open_or_scalar t st
  | ExpValueOrEnd =>
      match t with TRBracket => close_array st | _ => open_or_scalar t st end
  | ExpKeyOrEnd =>
      match t with
      | TRBrace => close_object st
      | TStr k => take_key k st
      | _ => None
      end
  | ExpKey => match t with TStr k => take_key k st | _ => None end
  | ExpColon => match t with TColon => Some (ExpValue, st) | _ => None end
  | ExpCommaOrEnd =>
      match t with
      | TComma =>
          match st with
          | CArr _ :: _ => Some (ExpValue, st)
          | CObj _ None :: _ => Some (ExpKey, st)
          | _ => None
          end
      | TRBracket => close_array st
      | TRBrace => close_object st
      | _ => None
      end
  | Done _ => None
  end.

Fixpoint run (e : expect) (st : list ctx) (ts : list token) : option value :=
  match ts with
  | [] => match e with Done v => Some v | _ => None end
  | t :: ts' =>
      match step e st t with
      | Some (e', st') => run e' st' ts'
      | None => None
      end
  end.

(** [JSON.parse text]; [None] is the [SyntaxError] it throws. *)
Definition parse (text : string) : option value :=
  match lex LStart [] (chars text) with
  | Some ts => run ExpValue [] ts
  | None => None
  end.

End Json.

(* ================================================================== *)
(** ** Exceptions *)
(* ================================================================== *)

Module Errors.

(** The NestJS exception classes the repository throws. *)
Inductive http_exception : Type :=
| BadRequestException (message : string)
| NotFoundException (message : string)
| ConflictException (message : string)
| InternalServerErrorException (message : string).

(** What the MySQL driver reports, carried by [QueryFailedError]. *)
Record driver_error : Type := {
  code : string;
  errno : Z;
  sqlState : string;
  sqlMessage : string
}.

(** Everything that can be thrown inside the repository's methods: its
    own HTTP exceptions, a failed statement, or an [Error] without a
    code (the ORM's own errors, [new Error(...)]). *)
Inductive thrown : Type :=
| Http (e : http_exception)
| QueryFailedError (d : driver_error)
| PlainError (message : string).

(** [error.message] *)
Definition message_of (t : thrown) : string :=
  match t with
  | Http (BadRequestException m) => m
  | Http (NotFoundException m) => m
  | Http (ConflictException m) => m
  | Http (InternalServerErrorException m) => m
  | QueryFailedError d => sqlMessage d
  | PlainError m => m
  end.

(** [error.code]; [None] is [undefined]. *)
Definition code_of (t : thrown) : option string :=
  match t with
  | QueryFailedError d => Some (code d)
  | _ => None
  end.

(** The error taxonomy of the specification. *)
Inductive kind : Type := InvalidArgument | NotFound | Conflict | Internal.

Definition kind_of (e : http_exception) : kind :=
  match e with
  | BadRequestException _ => InvalidArgument
  | NotFoundException _ => NotFound
  | ConflictException _ => Conflict
  | InternalServerErrorException _ => Internal
  end.

(** [HttpException.getStatus], as the exception filter reads it. *)
Definition getStatus (e : http_exception) : Z :=
  match e with
  | BadRequestException _ => 400
  | NotFoundException _ => 404
  | ConflictException _ => 409
  | InternalServerErrorException _ => 500
  end.

End Errors.

(* ================================================================== *)
(** ** The storage engine *)
(* ================================================================== *)

Module Sql.
Import Js Errors.

(** A stored value: NULL, an integer (a key, a flag: a whole number that
    a double holds exactly, as the entity's [number] requires), or
    text. *)
Inductive sql_value : Type :=
| SNull
| SInt (z : Z)
| SText (s : string).

(** A row, and an entity as the repository sees it: column name to value. *)
Definition row : Type := list (string * sql_value).

Fixpoint field (r : row) (c : string) : sql_value :=
  match r with
  | [] => SNull
  | (c', v) :: rest => if String.eqb c' c then v else field rest c
  end.

Definition has_field (r : row) (c : string) : bool :=
  existsb (fun cv => String.eqb (fst cv) c) r.

Definition id_of (r : row) : sql_value := field r "id".

Definition has_id (z : Z) (r : row) : bool :=
  match id_of r with SInt z' => Z.eqb z' z | _ => false end.

(** The engine behind a table: MySQL reached through the [mysql2]
    driver, as the README sets the application up, or any other engine,
    given by what it makes of the condition [column = v] for a bound
    parameter [v] ([None] is [undefined]): the test it applies to a row,
    or the error with which it refuses the statement.  The statements
    about the repository hold for every engine. *)
Inductive engine : Type :=
| MySQL
| Engine (comparison : string -> option value -> driver_error + (row -> bool)).

(** A table: its schema, its rows in storage order and the next
    auto-increment key.  [entity] is the name of the class mapped to the
    table; [required] lists the columns declared NOT NULL; [defaults]
    gives the value a column takes when an insert leaves it out (for a
    creation date, the time of the insert); [unique] pairs a
    uniquely-constrained column with the name of its index (the primary
    key is always unique). *)
Record table : Type := {
  name : string;
  entity : string;
  columns : list string;
  required : list string;
  defaults : row;
  unique : list (string * string);
  storage : engine;
  rows : list row;
  next_id : Z
}.

Definition with_rows (t : table) (rs : list row) (nid : Z) : table :=
  {| name := name t; entity := entity t; columns := columns t; required := required t;
     defaults := defaults t; unique := unique t; storage := storage t;
     rows := rs; next_id := nid |}.

(** *** Comparison of text *)

Definition ci_eqb (a b : ascii) : bool := Ascii.eqb (lower_char a) (lower_char b).

Fixpoint ci_list_eqb (a b : list ascii) : bool :=
  match a, b with
  | [], [] => true
  | x :: a', y :: b' => andb (ci_eqb x y) (ci_list_eqb a' b')
  | _, _ => false
  end.

Definition text_eqb (a b : string) : bool := ci_list_eqb (chars a) (chars b).

(** The text MySQL compares when a value meets a string operator. *)
Definition text_of (v : sql_value) : option string :=
  match v with
  | SNull => None
  | SInt z => Some (string_of_Z z)
  | SText s => Some s
  end.

(** *** LIKE

    [%] matches any run of characters, [_] any single character, a
    backslash makes the next pattern character literal; letters compare
    without regard to case, as under MySQL's default collations. *)
Fixpoint like (p : list ascii) : list ascii -> bool :=
  match p with
  | [] => fun v => match v with [] => true | _ => false end
  | c :: p' =>
      if Ascii.eqb c "%"%char then
        fix star (v : list ascii) : bool :=
          orb (like p' v) (match v with [] => false | _ :: v' => star v' end)
      else if Ascii.eqb c "_"%char then
        fun v => match v with [] => false | _ :: v' => like p' v' end
      else if Ascii.eqb c backslash then
        match p' with
        | [] => fun v => match v with
                         | [x] => Ascii.eqb x backslash
                         | _ => false
                         end
        | e :: p'' =>
            fun v => match v with
                     | [] => false
                     | x :: v' => andb (ci_eqb x e) (like p'' v')
                     end
        end
      else
        fun v => match v with
                 | [] => false
                 | x :: v' => andb (ci_eqb x c) (like p' v')
                 end
  end.

Definition sql_like (pattern : string) (v : sql_value) : bool :=
  match text_of v with
  | Some s => like (chars pattern) (chars s)
  | None => false
  end.

(** *** Numbers as MySQL compares them: as doubles *)

(** The double nearest to [num / den] (both positive): [(q, s)] stands
    for [q * 2^s], with [2^52 <= q < 2^53], or with [s = -1074] and a
    smaller [q]; [None] beyond the largest double. *)
Definition nearest_double (num den : Z) : option (Z * Z) :=
  let quotient s := if (0 <=? s)%Z then (num / (den * 2 ^ s))%Z
                    else (num * 2 ^ (- s) / den)%Z in
  let s1 := (bit_length num - bit_length den - 52)%Z in
  let s2 := if (2 ^ 52 <=? quotient s1)%Z then s1 else (s1 - 1)%Z in
  let s := Z.max s2 (-1074) in
  let n := if (0 <=? s)%Z then num else (num * 2 ^ (- s))%Z in
  let d := if (0 <=? s)%Z then (den * 2 ^ s)%Z else den in
  let q := (n / d)%Z in
  let r := (n - q * d)%Z in
  let q' := if (d <? 2 * r)%Z then (q + 1)%Z
            else if Z.eqb (2 * r) d then (if Z.even q then q else (q + 1)%Z)
            else q in
  let (q'', s') := if Z.eqb q' (2 ^ 53) then ((2 ^ 52)%Z, (s + 1)%Z) else (q', s) in
  if (1024 <? s' + 53)%Z then None
  else if Z.eqb q'' 0 then Some (0%Z, 0%Z) else Some (q'', s').

(** The double a decimal [m * 10^e] denotes; [None] is an infinity. *)
Definition double_of_decimal (m e : Z) : option (Z * Z) :=
  if Z.eqb m 0 then Some (0%Z, 0%Z)
  else
    match (if (0 <=? e)%Z then nearest_double (Z.abs m * 10 ^ e) 1
           else nearest_double (Z.abs m) (10 ^ (- e))) with
    | Some (q, s) => Some ((Z.sgn m * q)%Z, s)
    | None => None
    end.

Fixpoint skip_spaces (l : list ascii) : list ascii :=
  match l with
  | c :: r => if Json.is_ws c then skip_spaces r else l
  | [] => []
  end.

Definition take_sign (l : list ascii) : bool * list ascii :=
  match l with
  | c :: r => if Ascii.eqb c "-"%char then (true, r)
              else if Ascii.eqb c "+"%char then (false, r)
              else (false, l)
  | [] => (false, l)
  end.

(** The decimal MySQL reads at the head of a text when it needs a
    number: spaces, a sign, digits with an optional fraction and
    exponent; a text that starts with none of it reads as zero. *)
Definition numeric_prefix (l : list ascii) : Z * Z :=
  let (neg, l1) := take_sign (skip_spaces l) in
  let (ints, l2) := Json.take_digits l1 in
  let (fracs, l3) :=
    match l2 with
    | c :: r => if Ascii.eqb c "."%char then Json.take_digits r else ([], l2)
    | [] => ([], l2)
    end in
  match (ints ++ fracs)%list with
  | [] => (0%Z, 0%Z)
  | ds =>
      let x :=
        match l3 with
        | c :: r =>
            if orb (Ascii.eqb c "e"%char) (Ascii.eqb c "E"%char) then
              let (eneg, r1) := take_sign r in
              match Json.take_digits r1 with
              | ([], _) => 0%Z
              | (es, _) => if eneg then (- Json.Zdigits es)%Z else Json.Zdigits es
              end
            else 0%Z
        | [] => 0%Z
        end in
      ((if neg then - Json.Zdigits ds else Json.Zdigits ds)%Z,
       (x - Z.of_nat (List.length fracs))%Z)
  end.

(** The number a stored value is compared as; [None] for NULL. *)
Definition as_double (v : sql_value) : option (option (Z * Z)) :=
  match v with
  | SNull => None
  | SInt z => Some (double_of_decimal z 0)
  | SText s => let (m, e) := numeric_prefix (chars s) in Some (double_of_decimal m e)
  end.

Definition double_eqb (a b : option (Z * Z)) : bool :=
  match a, b with
  | Some (q1, s1), Some (q2, s2) => andb (Z.eqb q1 q2) (Z.eqb s1 s2)
  | _, _ => false
  end.

Definition number_eqb (v : sql_value) (m e : Z) : bool :=
  match as_double v with
  | Some d => double_eqb d (double_of_decimal m e)
  | None => false
  end.

Definition value_eqb (a b : sql_value) : bool :=
  match a, b with
  | SInt x, SInt y => Z.eqb x y
  | SText x, SText y => text_eqb x y
  | _, _ => false
  end.

(** *** ORDER BY *)

Fixpoint text_leb (a b : list ascii) : bool :=
  match a, b with
  | [], _ => true
  | _ :: _, [] => false
  | x :: a', y :: b' =>
      let n := nat_of_ascii (lower_char x) in
      let m := nat_of_ascii (lower_char y) in
      if Nat.ltb n m then true
      else if Nat.ltb m n then false
      else text_leb a' b'
  end.

(** NULL sorts first, then integers, then text. *)
Definition value_leb (a b : sql_value) : bool :=
  match a, b with
  | SNull, _ => true
  | _, SNull => false
  | SInt x, SInt y => Z.leb x y
  | SInt _, SText _ => true
  | SText _, SInt _ => false
  | SText x, SText y => text_leb (chars x) (chars y)
  end.

Fixpoint insert_sorted (leb : row -> row -> bool) (r : row) (l : list row) : list row :=
  match l with
  | [] => [r]
  | x :: l' => if leb r x then r :: x :: l' else x :: insert_sorted leb r l'
  end.

(** Rows with equal keys keep an engine-defined order; here it is the
    order of the fold. *)
Definition sort_rows (leb : row -> row -> bool) (l : list row) : list row :=
  fold_right (insert_sorted leb) [] l.

(** *** Driver errors *)

Definition bad_field (col clause : string) : driver_error :=
  {| code := "ER_BAD_FIELD_ERROR"; errno := 1054; sqlState := "42S22";
     sqlMessage := "Unknown column '" ++ col ++ "' in '" ++ clause ++ "'" |}.

Definition dup_entry (t : table) (v : sql_value) (index : string) : driver_error :=
  {| code := "ER_DUP_ENTRY"; errno := 1062; sqlState := "23000";
     sqlMessage := "Duplicate entry '" ++ match text_of v with Some s => s | None => "" end
                   ++ "' for key '" ++ name t ++ "." ++ index ++ "'" |}.

Definition no_default (col : string) : driver_error :=
  {| code := "ER_NO_DEFAULT_FOR_FIELD"; errno := 1364; sqlState := "HY000";
     sqlMessage := "Field '" ++ col ++ "' doesn't have a default value" |}.

Definition bad_null (col : string) : driver_error :=
  {| code := "ER_BAD_NULL_ERROR"; errno := 1048; sqlState := "23000";
     sqlMessage := "Column '" ++ col ++ "' cannot be null" |}.

(** The message quotes the statement from the point where the parser
    stopped. *)
Definition parse_error (near : string) : driver_error :=
  {| code := "ER_PARSE_ERROR"; errno := 1064; sqlState := "42000";
     sqlMessage := "You have an error in your SQL syntax; check the manual that "
                   ++ "corresponds to your MySQL server version for the right syntax "
                   ++ "to use near '" ++ near ++ "' at line 1" |}.

(** *** LIMIT and OFFSET

    The engine takes an unsigned integer literal of at most 64 bits for
    a row count, and nothing else: no sign, no fraction, no exponent. *)
Definition row_count (text : string) : option N :=
  match NilZero.uint_of_string text with
  | Some d => let n := N.of_uint d in
              if (n <=? 18446744073709551615)%N then Some n else None
  | None => None
  end.

Fixpoint drop (n : N) (l : list row) : list row :=
  match l with
  | [] => []
  | _ :: l' => if N.eqb n 0 then l else drop (N.pred n) l'
  end.

Fixpoint keep (n : N) (l : list row) : list row :=
  match l with
  | [] => []
  | x :: l' => if N.eqb n 0 then [] else x :: keep (N.pred n) l'
  end.

(** *** Constraints *)

Definition unique_indexes (t : table) : list (string * string) :=
  ("id", "PRIMARY") :: unique t.

(** The first unique index that row [r] would violate against [others]. *)
Definition violated_index (t : table) (others : list row) (r : row)
  : option (sql_value * string) :=
  match
    find (fun ci => existsb (fun o => value_eqb (field o (fst ci)) (field r (fst ci))) others)
         (unique_indexes t)
  with
  | Some (c, index) => Some (field r c, index)
  | None => None
  end.

Definition missing_required (t : table) (r : row) : option string :=
  find (fun c => match field r c with SNull => true | _ => false end) (required t).

(** The row as stored: one value per column of the schema, the default
    of the column where [r] has no value for it. *)
Definition stored (t : table) (r : row) : row :=
  map (fun c => (c, if has_field r c then field r c else field (defaults t) c)) (columns t).

(** Overwrite the columns of [r] that [changes] sets. *)
Definition merge (r changes : row) : row :=
  map (fun cv => if has_field changes (fst cv) then (fst cv, field changes (fst cv)) else cv) r.

(** The first NOT NULL column that [changes] sets to NULL. *)
Definition nulled_required (t : table) (changes : row) : option string :=
  find (fun c => andb (has_field changes c)
                      (match field changes c with SNull => true | _ => false end))
       (required t).

(** *** Column names

    The engine matches the name of a column without regard to the case
    of its letters. *)
Definition resolve_in (cols : list string) (c : string) : option string :=
  find (fun c' => text_eqb c' c) cols.

Definition cell_in (cols : list string) (r : row) (c : string) : sql_value :=
  match resolve_in cols c with
  | Some c' => field r c'
  | None => SNull
  end.

(** The value of the column named [c] in a row of the table. *)
Definition cell (t : table) (r : row) (c : string) : sql_value := cell_in (columns t) r c.

(** The first name that is no column of the table. *)
Definition unresolved (t : table) (names : list string) : option string :=
  find (fun c => match resolve_in (columns t) c with Some _ => false | None => true end) names.

(** *** MySQL behind the [mysql2] driver

    The driver writes a parameter into the statement: a number and a
    boolean as they print, a string quoted, [null] and [undefined] as
    NULL, an array as the list of its elements, an object as one
    assignment per property.  A number or boolean meets a stored value
    as a double, a string meets text under the collation and a number
    as a double; nothing equals NULL. *)
Definition scalar_eqb (p : value) (x : sql_value) : bool :=
  match p with
  | JBool b => number_eqb x (if b then 1 else 0) 0
  | JNumber m e => number_eqb x m e
  | JString s =>
      match x with
      | SText t => text_eqb t s
      | SInt _ => let (m, e) := numeric_prefix (chars s) in number_eqb x m e
      | SNull => false
      end
  | _ => false
  end.

(** [a = b] between two stored values; [None] is NULL. *)
Definition stored_eqb (a b : sql_value) : option bool :=
  match a, b with
  | SText x, SText y => Some (text_eqb x y)
  | _, _ =>
      match as_double a, as_double b with
      | Some x, Some y => Some (double_eqb x y)
      | _, _ => None
      end
  end.

(** What the engine reads where the driver wrote the parameter.  The
    driver writes an array as the list of its elements, an array among
    them in parentheses, and an object as one assignment per property;
    an object inside an array or an object is written as the string
    that [toString] makes of it.  A list in parentheses is its element
    when it has one and a row of several columns otherwise; an empty
    list, and a list of several elements outside parentheses, do not
    parse. *)
Inductive expression : Type :=
| Scalar (v : value)
| Row.

Inductive operand : Type :=
| Plain (e : expression)
| Assignment (k : string) (e : expression)
| NoOperand.

(** Whether every list written for [v] has an element. *)
Fixpoint parses (v : value) : bool :=
  match v with
  | JArray items => andb (match items with [] => false | _ :: _ => true end)
                         (forallb parses items)
  | _ => true
  end.

(** An element of a list. *)
Fixpoint element (v : value) : option expression :=
  match v with
  | JArray [x] => element x
  | JArray _ => if parses v then Some Row else None
  | JObject _ => Some (Scalar (JString "[object Object]"))
  | _ => Some (Scalar v)
  end.

(** The elements of an array, outside parentheses. *)
Definition listed (items : list value) : option expression :=
  match items with
  | [x] => element x
  | _ => None
  end.

Definition written (v : value) : operand :=
  match v with
  | JArray items =>
      match listed items with
      | Some e => Plain e
      | None => NoOperand
      end
  | JObject [(k, x)] =>
      match (match x with JArray items => listed items | _ => element x end) with
      | Some e => Assignment k e
      | None => NoOperand
      end
  | JObject _ => NoOperand
  | _ => Plain (Scalar v)
  end.

Definition infinite (v : value) : bool :=
  match v with
  | JNumber m e => match double_of_decimal m e with None => true | Some _ => false end
  | _ => false
  end.

Definition operand_columns : driver_error :=
  {| code := "ER_OPERAND_COLUMNS"; errno := 1241; sqlState := "21000";
     sqlMessage := "Operand should contain 1 column(s)" |}.

(** [column = v] on a table with the given columns.  An infinity prints
    as a name that is no column; where nothing can be taken for an
    operand the statement does not parse (the fragment the engine
    quotes depends on the rest of the statement and is left empty).  The
    key of an assignment is taken for the name of a column. *)
Definition mysql_compare (cols : list string) (column : string) (v : option value)
  : driver_error + (row -> bool) :=
  match v with
  | None => inr (fun _ => false)
  | Some p =>
      match written p with
      | Plain (Scalar x) =>
          if infinite x then inl (bad_field "Infinity" "where clause")
          else inr (fun r => scalar_eqb x (cell_in cols r column))
      | Plain Row => inl operand_columns
      | Assignment k e =>
          if match resolve_in cols k with Some _ => false | None => true end
          then inl (bad_field k "where clause")
          else
            match e with
            | Scalar x =>
                if infinite x then inl (bad_field "Infinity" "where clause")
                else inr (fun r =>
                            match stored_eqb (cell_in cols r column) (cell_in cols r k) with
                            | Some b => scalar_eqb x (SInt (if b then 1 else 0))
                            | None => false
                            end)
            | Row => inl operand_columns
            end
      | NoOperand => inl (parse_error "")
      end
  end.

(** What the engine of a table makes of [column = v]. *)
Definition compare (t : table) (column : string) (v : option value)
  : driver_error + (row -> bool) :=
  match storage t with
  | MySQL => mysql_compare (columns t) column v
  | Engine comparison => comparison column v
  end.

End Sql.

(* ================================================================== *)
(** ** Effects: the table as state, exceptions as results *)
(* ================================================================== *)

Module Eff.
Import Errors.

Inductive result (A : Type) : Type :=
| Return (a : A)
| Throw (t : thrown).
Arguments Return {A} a.
Arguments Throw {A} t.

(** An asynchronous method of the repository: it reads and writes the
    table and either returns or throws. *)
Definition M (A : Type) : Type := Sql.table -> result A * Sql.table.

Definition ret {A} (a : A) : M A := fun t => (Return a, t).

Definition throw {A} (e : thrown) : M A := fun t => (Throw e, t).

Definition bind {A B} (m : M A) (k : A -> M B) : M B :=
  fun t =>
    match m t with
    | (Return a, t') => k a t'
    | (Throw e, t') => (Throw e, t')
    end.

(** [try { body } catch (error) { handler }] *)
Definition try_catch {A} (body : M A) (handler : thrown -> M A) : M A :=
  fun t =>
    match body t with
    | (Return a, t') => (Return a, t')
    | (Throw e, t') => handler e t'
    end.

Module Notations.
Notation "x <- m ;; k" := (bind m (fun x => k))
  (at level 61, m at next level, right associativity).
Notation "m ;;; k" := (bind m (fun _ => k))
  (at level 61, right associativity).
End Notations.

End Eff.

(* ================================================================== *)
(** ** The query builder and the entity repository of the ORM *)
(* ================================================================== *)

Module Orm.
Import Js Errors Sql Eff.

Inductive where_type : Type := Simple | And | Or.

(** The two condition templates the repository writes:
    [e.<column> = :<param>] and [e.<column> LIKE :<param>]. *)
Inductive predicate : Type :=
| Eq (column param : string)
| Like (column param : string).

Inductive condition : Type :=
| Pred (p : predicate)
| Brackets (ws : list (where_type * condition)).

Definition where_clause : Type := (where_type * condition)%type.

Inductive direction : Type := ASC | DESC.

(** The state of a [SelectQueryBuilder]. *)
Record query : Type := {
  alias : string;
  wheres : list where_clause;
  parameters : list (string * option value);
  orderBys : list (string * direction);
  skip_rows : option Z;
  take_rows : option Z
}.

Definition createQueryBuilder (a : string) : query :=
  {| alias := a; wheres := []; parameters := []; orderBys := [];
     skip_rows := None; take_rows := None |}.

Definition set_wheres (q : query) (ws : list where_clause)
           (ps : list (string * option value)) : query :=
  {| alias := alias q; wheres := ws; parameters := ps; orderBys := orderBys q;
     skip_rows := skip_rows q; take_rows := take_rows q |}.

(** The condition text handed to the builder. *)
Definition render (a : string) (p : predicate) : string :=
  match p with
  | Eq column param => a ++ "." ++ column ++ " = :" ++ param
  | Like column param => a ++ "." ++ column ++ " LIKE :" ++ param
  end.

(** *** Calls on the builder

    The builder is a mutable object: a call leaves it in a new state and
    may throw, and what was done before the throw stays done. *)
Definition call : Type := (query * option thrown)%type.

Definition is_key_char (c : ascii) : bool :=
  let n := nat_of_ascii c in
  orb (orb (andb (Nat.leb 48 n) (Nat.leb n 57))
           (orb (andb (Nat.leb 65 n) (Nat.leb n 90)) (andb (Nat.leb 97 n) (Nat.leb n 122))))
      (orb (Nat.eqb n 95) (Nat.eqb n 46)).

(** The names [setParameter] accepts: one or more letters, digits,
    underscores and periods. *)
Definition parameter_key_ok (k : string) : bool :=
  match chars k with
  | [] => false
  | l => forallb is_key_char l
  end.

Definition parameter_key_message : string :=
  "QueryBuilder parameter keys may only contain numbers, letters, underscores, or periods.".

Definition setParameter (q : query) (k : string) (v : option value) : call :=
  if parameter_key_ok k
  then (set_wheres q (wheres q) (parameters q ++ [(k, v)]), None)
  else (q, Some (PlainError parameter_key_message)).

Fixpoint setParameters (q : query) (ps : list (string * option value)) : call :=
  match ps with
  | [] => (q, None)
  | (k, v) :: rest =>
      match setParameter q k v with
      | (q', None) => setParameters q' rest
      | failed => failed
      end
  end.

(** Each of these records the condition first and sets the parameters
    after it. *)
Definition where_ (q : query) (c : condition) (ps : list (string * option value)) : call :=
  setParameters (set_wheres q [(Simple, c)] (parameters q)) ps.

Definition andWhere (q : query) (c : condition) (ps : list (string * option value)) : call :=
  setParameters (set_wheres q (wheres q ++ [(And, c)]) (parameters q)) ps.

Definition orWhere (q : query) (c : condition) (ps : list (string * option value)) : call :=
  setParameters (set_wheres q (wheres q ++ [(Or, c)]) (parameters q)) ps.

(** [qb.andWhere(new Brackets(f))]: [f] runs on a fresh builder that
    hands every parameter on to [qb]; the conditions it leaves become
    one parenthesised group of [qb]. *)
Definition andWhereBrackets (q : query) (f : query -> call) : call :=
  match f (createQueryBuilder (alias q)) with
  | (sub, None) =>
      (set_wheres q (wheres q ++ [(And, Brackets (wheres sub))])
                  (parameters q ++ parameters sub), None)
  | (sub, Some e) => (set_wheres q (wheres q) (parameters q ++ parameters sub), Some e)
  end.

(** [list.forEach(f)] with a callback that calls the builder: the
    iteration stops at the first call that throws. *)
Fixpoint forEach (f : query -> string -> nat -> call)
         (l : list string) (idx : nat) (q : query) : call :=
  match l with
  | [] => (q, None)
  | x :: l' =>
      match f q x idx with
      | (q', None) => forEach f l' (S idx) q'
      | failed => failed
      end
  end.

Definition orderBy (q : query) (column : string) (d : direction) : query :=
  {| alias := alias q; wheres := wheres q; parameters := parameters q;
     orderBys := [(column, d)];
     skip_rows := skip_rows q; take_rows := take_rows q |}.

Definition skip (q : query) (n : Z) : query :=
  {| alias := alias q; wheres := wheres q; parameters := parameters q;
     orderBys := orderBys q; skip_rows := Some n; take_rows := take_rows q |}.

Definition take (q : query) (n : Z) : query :=
  {| alias := alias q; wheres := wheres q; parameters := parameters q;
     orderBys := orderBys q; skip_rows := skip_rows q; take_rows := Some n |}.

(** *** The statement *)

(** The value bound to a parameter; the last binding wins. *)
Fixpoint bound (ps : list (string * option value)) (p : string) : option (option value) :=
  match ps with
  | [] => None
  | (p', v) :: rest =>
      match bound rest p with
      | Some later => Some later
      | None => if String.eqb p' p then Some v else None
      end
  end.

(** Whether [column = v] holds of a row, where the engine takes the
    comparison. *)
Definition holds (t : table) (column : string) (v : option value) (r : row) : bool :=
  match compare t column v with
  | inr test => test r
  | inl _ => false
  end.

Definition eval_predicate (t : table) (ps : list (string * option value)) (r : row)
           (p : predicate) : bool :=
  match p with
  | Eq column param =>
      match bound ps param with
      | Some v => holds t column v r
      | None => false
      end
  | Like column param =>
      match bound ps param with
      | Some (Some (JString pattern)) => sql_like pattern (cell t r column)
      | _ => false
      end
  end.

(** Conditions joined by their connectives, AND binding tighter than OR:
    [acc] is the value of the conjunction being read. *)
Fixpoint chain (ev : condition -> bool) (acc : bool) (l : list (where_type * condition)) : bool :=
  match l with
  | [] => acc
  | (Or, c) :: l' => orb acc (chain ev (ev c) l')
  | (_, c) :: l' => chain ev (andb acc (ev c)) l'
  end.

(** The connective of the first condition of a group is not written. *)
Definition eval_group (ev : condition -> bool) (ws : list (where_type * condition)) : bool :=
  match ws with
  | [] => true
  | (_, c0) :: rest => chain ev (ev c0) rest
  end.

Fixpoint eval_condition (t : table) (ps : list (string * option value)) (r : row)
         (c : condition) : bool :=
  match c with
  | Pred p => eval_predicate t ps r p
  | Brackets ws => eval_group (eval_condition t ps r) ws
  end.

Definition matches (t : table) (q : query) (r : row) : bool :=
  eval_condition t (parameters q) r (Brackets (wheres q)).

Fixpoint condition_predicates (c : condition) : list predicate :=
  match c with
  | Pred p => [p]
  | Brackets ws => flat_map (fun w => condition_predicates (snd w)) ws
  end.

Definition predicates (q : query) : list predicate :=
  flat_map (fun w => condition_predicates (snd w)) (wheres q).

Definition column_of (p : predicate) : string :=
  match p with Eq column _ => column | Like column _ => column end.

Definition param_of (p : predicate) : string :=
  match p with Eq _ param => param | Like _ param => param end.

(** The first name that is no property of the entity. *)
Definition unknown_column (t : table) (cols : list string) : option string :=
  find (fun c => negb (includes (columns t) c)) cols.

Definition is_parse_error (d : driver_error) : bool := String.eqb (code d) "ER_PARSE_ERROR".

(** What the parser refuses in a condition: a parameter that was never
    set, so that its name stays in the text, or an operand it cannot
    read. *)
Definition unparsed_predicate (t : table) (ps : list (string * option value)) (p : predicate)
  : option driver_error :=
  match bound ps (param_of p) with
  | None => Some (parse_error (":" ++ param_of p))
  | Some v =>
      match p with
      | Eq column _ => match compare t column v with
                       | inl d => if is_parse_error d then Some d else None
                       | inr _ => None
                       end
      | Like _ _ => None
      end
  end.

(** What the engine refuses when it resolves the names of a condition
    that parsed: the column, then the operand. *)
Definition unresolved_predicate (t : table) (a : string) (ps : list (string * option value))
           (p : predicate) : option driver_error :=
  match resolve_in (columns t) (column_of p) with
  | None => Some (bad_field (a ++ "." ++ column_of p) "where clause")
  | Some _ =>
      match p, bound ps (param_of p) with
      | Eq column _, Some v => match compare t column v with
                               | inl d => Some d
                               | inr _ => None
                               end
      | _, _ => None
      end
  end.

(** The error of the first predicate that has one. *)
Definition first_error (f : predicate -> option driver_error) (l : list predicate)
  : option driver_error :=
  match find (fun p => match f p with Some _ => true | None => false end) l with
  | Some p => f p
  | None => None
  end.

(** The LIMIT clause of the statement, as the ORM writes it for MySQL:
    [take] and [skip] are printed into the text when they are truthy,
    and a [skip] without a [take] is refused by the ORM itself. *)
Inductive limit_clause : Type :=
| NoLimit
| Limit (count : string)
| LimitOffset (count offset : string).

Definition offset_without_limit_message : string :=
  "RDBMS does not support OFFSET without LIMIT in SELECT statements. You must use limit in "
  ++ "conjunction with offset function (or take in conjunction with skip function if you "
  ++ "are using pagination).".

Definition truthy_number (n : option Z) : bool :=
  match n with Some z => nonzero z | None => false end.

Definition rendered (n : option Z) : string :=
  match n with Some z => string_of_number (Num z) | None => "" end.

Definition createLimitOffsetExpression (q : query) : thrown + limit_clause :=
  if andb (truthy_number (take_rows q)) (truthy_number (skip_rows q))
  then inr (LimitOffset (rendered (take_rows q)) (rendered (skip_rows q)))
  else if truthy_number (take_rows q) then inr (Limit (rendered (take_rows q)))
  else if truthy_number (skip_rows q) then inl (PlainError offset_without_limit_message)
  else inr NoLimit.

(** The window the engine reads off the clause: how many rows to skip
    and, unless all are wanted, how many to keep. *)
Definition window (c : limit_clause) : driver_error + (N * option N) :=
  match c with
  | NoLimit => inr (0%N, None)
  | Limit count =>
      match row_count count with
      | Some n => inr (0%N, Some n)
      | None => inl (parse_error count)
      end
  | LimitOffset count offset =>
      match row_count count with
      | None => inl (parse_error (count ++ " OFFSET " ++ offset))
      | Some n =>
          match row_count offset with
          | Some m => inr (m, Some n)
          | None => inl (parse_error offset)
          end
      end
  end.

Definition row_leb (t : table) (column : string) (d : direction) (a b : row) : bool :=
  match d with
  | ASC => value_leb (cell t a column) (cell t b column)
  | DESC => value_leb (cell t b column) (cell t a column)
  end.

Definition ordered (t : table) (q : query) (l : list row) : list row :=
  match orderBys q with
  | (column, d) :: _ => sort_rows (row_leb t column d) l
  | [] => l
  end.

Definition slice (w : N * option N) (l : list row) : list row :=
  match snd w with
  | Some n => keep n (drop (fst w) l)
  | None => drop (fst w) l
  end.

(** What stops the statement, if anything: the ORM while it writes the
    text; then the engine while it parses it, the conditions before the
    LIMIT clause; then the engine while it resolves the names, the
    conditions before the sort. *)
Definition statement_error (t : table) (q : query) : option thrown :=
  match createLimitOffsetExpression q with
  | inl e => Some e
  | inr c =>
      match first_error (unparsed_predicate t (parameters q)) (predicates q) with
      | Some d => Some (QueryFailedError d)
      | None =>
          match window c with
          | inl d => Some (QueryFailedError d)
          | inr _ =>
              match first_error (unresolved_predicate t (alias q) (parameters q))
                                (predicates q) with
              | Some d => Some (QueryFailedError d)
              | None =>
                  match unresolved t (map fst (orderBys q)) with
                  | Some col =>
                      Some (QueryFailedError (bad_field (alias q ++ "." ++ col) "order clause"))
                  | None => None
                  end
              end
          end
      end
  end.

(** The rows of the window, when the statement has one. *)
Definition page_of (q : query) (l : list row) : list row :=
  match createLimitOffsetExpression q with
  | inr c => match window c with
             | inr w => slice w l
             | inl _ => []
             end
  | inl _ => []
  end.

(** [qb.getManyAndCount()]: the page of matching rows and the number of
    matching rows. *)
Definition getManyAndCount (q : query) : M (list row * nat) :=
  fun t =>
    match statement_error t q with
    | Some e => (Throw e, t)
    | None =>
        let found := filter (matches t q) (rows t) in
        (Return (page_of q (ordered t q found), List.length found), t)
    end.

(** *** Entity repository *)

(** [repository.findOne({ where: { id } })] *)
Definition findOne (id : number) : M (option row) :=
  fun t =>
    (Return (match id with
             | Num z => find (has_id z) (rows t)
             | NaN => None
             end), t).

(** [repository.create(entity)]: an instance with the properties of
    [entity] that are columns. *)
Definition create (entity : row) : M row :=
  fun t => (Return (filter (fun cv => includes (columns t) (fst cv)) entity), t).

Definition quoted (s : string) : string := String dquote (s ++ String dquote "").

Definition replace_row (z : Z) (r : row) (l : list row) : list row :=
  map (fun x => if has_id z x then r else x) l.

(** The entity [save] hands back after an insert: the instance with its
    key and with the columns the table filled in. *)
Definition inserted_entity (t : table) (instance r : row) : row :=
  filter (fun cv => orb (orb (has_field instance (fst cv)) (String.eqb (fst cv) "id"))
                        (has_field (defaults t) (fst cv))) r.

(** [repository.save(instance)]: updates the row with the instance's key
    if there is one, else inserts a row, with a fresh key unless the
    instance brings its own (the key 0 asks the engine for a fresh one).
    After an insert it returns the instance completed from the stored
    row, after an update the instance as it was given. *)
Definition save (instance : row) : M row :=
  fun t =>
    let existing := match id_of instance with
                    | SInt z => match find (has_id z) (rows t) with
                                | Some old => Some (z, old)
                                | None => None
                                end
                    | _ => None
                    end in
    match existing with
    | Some (z, old) =>
        let r := merge old instance in
        match nulled_required t instance with
        | Some c => (Throw (QueryFailedError (bad_null c)), t)
        | None =>
            match violated_index t (filter (fun x => negb (has_id z x)) (rows t)) r with
            | Some (v, index) => (Throw (QueryFailedError (dup_entry t v index)), t)
            | None => (Return instance, with_rows t (replace_row z r (rows t)) (next_id t))
            end
        end
    | None =>
        let z := match id_of instance with
                 | SInt z => if Z.eqb z 0 then next_id t else z
                 | _ => next_id t
                 end in
        let r := stored t (("id", SInt z) :: instance) in
        match missing_required t r with
        | Some c =>
            (Throw (QueryFailedError (if has_field instance c then bad_null c
                                      else no_default c)), t)
        | None =>
            match violated_index t (rows t) r with
            | Some (v, index) => (Throw (QueryFailedError (dup_entry t v index)), t)
            | None => (Return (inserted_entity t instance r),
                       with_rows t (rows t ++ [r]) (Z.max (next_id t) (z + 1)))
            end
        end
    end.

Definition update_values_missing : string :=
  "Cannot perform update query because update values are not defined. Call "
  ++ quoted "qb.set(...)" ++ " method to specify updated values.".

Definition property_not_found (t : table) (c : string) : string :=
  "Property " ++ quoted c ++ " was not found in " ++ quoted (entity t)
  ++ ". Make sure your query is correct.".

(** The first row of [changed] that collides with a row before it or
    with an untouched row. *)
Fixpoint first_violation (t : table) (kept changed : list row) : option (sql_value * string) :=
  match changed with
  | [] => None
  | r :: rest =>
      match violated_index t kept r with
      | Some v => Some v
      | None => first_violation t (r :: kept) rest
      end
  end.

(** [repository.update(id, partial)]: the number of rows affected. *)
Definition update (id : number) (partial : row) : M nat :=
  fun t =>
    match partial with
    | [] => (Throw (PlainError update_values_missing), t)
    | _ :: _ =>
        match unknown_column t (map fst partial) with
        | Some c => (Throw (PlainError (property_not_found t c)), t)
        | None =>
            match id with
            | NaN => (Return 0, t)
            | Num z =>
                let targets := filter (has_id z) (rows t) in
                let others := filter (fun x => negb (has_id z x)) (rows t) in
                match targets, nulled_required t partial with
                | _ :: _, Some c => (Throw (QueryFailedError (bad_null c)), t)
                | _, _ =>
                    match first_violation t others (map (fun x => merge x partial) targets) with
                    | Some (v, index) => (Throw (QueryFailedError (dup_entry t v index)), t)
                    | None =>
                        (Return (List.length targets),
                         with_rows t (map (fun x => if has_id z x then merge x partial else x)
                                          (rows t))
                                   (next_id t))
                    end
                end
            end
        end
    end.

(** [repository.delete(id)]: the number of rows affected. *)
Definition delete (id : number) : M nat :=
  fun t =>
    match id with
    | NaN => (Return 0, t)
    | Num z =>
        (Return (List.length (filter (has_id z) (rows t))),
         with_rows t (filter (fun x => negb (has_id z x)) (rows t)) (next_id t))
    end.

End Orm.

(* ================================================================== *)
(** ** The abstract repository *)
(* ================================================================== *)

Module Repo.
Import Js Errors Sql Eff Orm.
Import Eff.Notations.

(** [AbstractPaginationDto].  [page] and [limit] are numbers that hold
    integers, as [@IsInt] has them; [@Min(1)] is a hypothesis where a
    statement needs it. *)
Record AbstractPaginationDto : Type := {
  page : Z;
  limit : Z;
  sortBy : option string;
  order : option string;
  search : option string;
  filters : option string
}.

(** [PaginatedResult<T>] *)
Record PaginatedResult : Type := {
  data : list row;
  total : nat;
  result_page : Z;
  result_limit : Z
}.

(** The two methods a concrete repository overrides. *)
Class ColumnPolicy : Type := {
  getSearchableColumns : list string;
  getSortableColumns : list string
}.

(** The defaults of [AbstractRepository]. *)
Definition abstract_policy : ColumnPolicy :=
  {| getSearchableColumns := []; getSortableColumns := ["id"] |}.

(** [UserRepository] *)
Definition user_policy : ColumnPolicy :=
  {| getSearchableColumns := ["name"; "email"];
     getSortableColumns := ["id"; "name"; "email"; "createdAt"] |}.

(** *** [extractDuplicateField]: the regular expression [for key '(.+)'] *)

Fixpoint strip_prefix (p s : list ascii) : option (list ascii) :=
  match p, s with
  | [], _ => Some s
  | a :: p', b :: s' => if Ascii.eqb a b then strip_prefix p' s' else None
  | _ :: _, [] => None
  end.

(** The characters before the first line terminator (LF, CR, and
    U+2028, U+2029 in their UTF-8 bytes): those a dot can match. *)
Fixpoint line_of (l : list ascii) : list ascii :=
  match l with
  | [] => []
  | c :: r =>
      let n := nat_of_ascii c in
      if orb (Nat.eqb n 10) (Nat.eqb n 13) then []
      else if andb (Nat.eqb n 226)
                   (match r with
                    | c1 :: c2 :: _ =>
                        andb (Nat.eqb (nat_of_ascii c1) 128)
                             (orb (Nat.eqb (nat_of_ascii c2) 168)
                                  (Nat.eqb (nat_of_ascii c2) 169))
                    | _ => false
                    end)
      then []
      else c :: line_of r
  end.

(** The longest prefix of [l] that an apostrophe follows. *)
Fixpoint up_to_last_quote (l : list ascii) : option (list ascii) :=
  match l with
  | [] => None
  | c :: r =>
      match up_to_last_quote r with
      | Some p => Some (c :: p)
      | None => if Ascii.eqb c "'"%char then Some [] else None
      end
  end.

(** The group [(.+)'] matched greedily at the head of [l]. *)
Definition greedy_group (l : list ascii) : option (list ascii) :=
  match line_of l with
  | [] => None
  | c :: r =>
      match up_to_last_quote r with
      | Some p => Some (c :: p)
      | None => None
      end
  end.

(** [message.match(...)]: the leftmost match, its group 1. *)
Fixpoint match_for_key (s : list ascii) : option (list ascii) :=
  match s with
  | [] => None
  | _ :: r =>
      match
        match strip_prefix (chars "for key '") s with
        | Some rest => greedy_group rest
        | None => None
        end
      with
      | Some g => Some g
      | None => match_for_key r
      end
  end.

Definition extractDuplicateField (message : string) : string :=
  match match_for_key (chars message) with
  | Some g => str g
  | None => "unknown"
  end.

(** *** [findAll] *)

(** The callback of [Object.keys(parsed).forEach]. *)
Definition filterEach (parsed : value) (qb : query) (key : string) (idx : nat) : call :=
  let param := "filter_" ++ key in
  andWhere qb (Pred (Eq key param)) [(param, get parsed key)].

(** The body of the inner [try]: the builder as the block leaves it,
    and whether the block threw.  It throws when [JSON.parse] or
    [Object.keys] throws, and when the builder refuses a parameter
    name. *)
Definition applyFilters (qb : query) (filters : string) : query * bool :=
  match Json.parse filters with
  | None => (qb, true)
  | Some parsed =>
      match Object_keys parsed with
      | None => (qb, true)
      | Some keys =>
          match forEach (filterEach parsed) keys 0 qb with
          | (qb', None) => (qb', false)
          | (qb', Some _) => (qb', true)
          end
      end
  end.

(** The callback of [cols.forEach] inside the brackets. *)
Definition searchEach (search : string) (sqb : query) (col : string) (idx : nat) : call :=
  let param := "search_" ++ string_of_nat idx in
  if Nat.eqb idx 0
  then where_ sqb (Pred (Like col param)) [(param, Some (JString ("%" ++ search ++ "%")))]
  else orWhere sqb (Pred (Like col param)) [(param, Some (JString ("%" ++ search ++ "%")))].

(** The callback handed to [Brackets]. *)
Definition searchBrackets (cols : list string) (search : string) (sqb : query) : call :=
  forEach (searchEach search) cols 0 sqb.

Definition applySearch `{ColumnPolicy} (qb : query) (search : option string) : call :=
  match search with
  | Some text =>
      if truthy search then
        let cols := getSearchableColumns in
        if negb (Nat.eqb (List.length cols) 0)
        then andWhereBrackets qb (searchBrackets cols text)
        else (qb, None)
      else (qb, None)
  | None => (qb, None)
  end.

Definition safeSort `{ColumnPolicy} (sortBy : option string) : string :=
  match sortBy with
  | Some column =>
      if andb (truthy sortBy) (includes getSortableColumns column) then column else "id"
  | None => "id"
  end.

Definition sortDirection (order : option string) : direction :=
  match order with
  | Some o => if andb (truthy order) (String.eqb (toUpperCase o) "DESC") then DESC else ASC
  | None => ASC
  end.

Definition applySort `{ColumnPolicy} (qb : query) (sortBy order : option string) : query :=
  orderBy qb (safeSort sortBy) (sortDirection order).

(** [.skip((page - 1) * limit).take(limit)] *)
Definition applyPage (qb : query) (page limit : Z) : query :=
  take (skip qb (times (minus page 1) limit)) limit.

(** A call in the body of a method: what it throws, the method throws. *)
Definition called (c : call) : M query :=
  match c with
  | (qb, None) => ret qb
  | (_, Some e) => throw e
  end.

Definition findAll `{ColumnPolicy} (pagination : AbstractPaginationDto) : M PaginatedResult :=
  try_catch
    (let qb := createQueryBuilder "e" in
     qb <- (if truthy (filters pagination) then
              match filters pagination with
              | Some text =>
                  match applyFilters qb text with
                  | (qb', false) => ret qb'
                  | (_, true) => throw (Http (BadRequestException "Invalid filters JSON"))
                  end
              | None => ret qb
              end
            else ret qb) ;;
     qb <- called (applySearch qb (search pagination)) ;;
     let qb := applySort qb (sortBy pagination) (order pagination) in
     let qb := applyPage qb (page pagination) (limit pagination) in
     r <- getManyAndCount qb ;;
     ret {| data := fst r; total := snd r;
            result_page := page pagination; result_limit := limit pagination |})
    (fun error => throw (Http (InternalServerErrorException (message_of error)))).

(** The query on which [findAll] calls [getManyAndCount], given the
    builder the filter block left. *)
Definition finishQuery `{ColumnPolicy} (qb : query) (pagination : AbstractPaginationDto) : query :=
  applyPage (applySort (fst (applySearch qb (search pagination)))
                       (sortBy pagination) (order pagination))
            (page pagination) (limit pagination).

(** *** Point operations *)

Definition not_found_message (id : number) : string :=
  "Entity with id " ++ string_of_number id ++ " not found".

Definition findOne (id : number) : M row :=
  if isNaN id then throw (Http (BadRequestException "Invalid id format"))
  else
    entity <- Orm.findOne id ;;
    match entity with
    | None => throw (Http (NotFoundException (not_found_message id)))
    | Some e => ret e
    end.

(** The [catch] block shared by [create] and [update]. *)
Definition translate {A : Type} (error : thrown) : M A :=
  match code_of error with
  | Some c =>
      if String.eqb c "ER_DUP_ENTRY" then
        throw (Http (ConflictException
                       ("Duplicate value for unique field(s): "
                        ++ extractDuplicateField (message_of error))))
      else throw (Http (InternalServerErrorException (message_of error)))
  | None => throw (Http (InternalServerErrorException (message_of error)))
  end.

Definition create (entity : row) : M row :=
  try_catch
    (instance <- Orm.create entity ;;
     Orm.save instance)
    translate.

Definition update (id : number) (entity : row) : M row :=
  if isNaN id then throw (Http (BadRequestException "Invalid id format"))
  else
    try_catch
      (Orm.update id entity ;;;
       updated <- findOne id ;;
       ret updated)
      translate.

Definition delete (id : number) : M unit :=
  if isNaN id then throw (Http (BadRequestException "Invalid id format"))
  else
    affected <- Orm.delete id ;;
    if Nat.eqb affected 0
    then throw (Http (NotFoundException (not_found_message id)))
    else ret tt.

(** *** The earlier revision kept in the same file (its lines 1 to 96) *)

Module Legacy.

(** Here the [catch] of the filter block is empty: the builder goes on
    as the block left it. *)
Definition findAll `{ColumnPolicy} (pagination : AbstractPaginationDto) : M PaginatedResult :=
  let qb := createQueryBuilder "e" in
  let qb := if truthy (filters pagination) then
              match filters pagination with
              | Some text => fst (applyFilters qb text)
              | None => qb
              end
            else qb in
  qb <- called (applySearch qb (search pagination)) ;;
  let qb := applySort qb (sortBy pagination) (order pagination) in
  let qb := applyPage qb (page pagination) (limit pagination) in
  r <- getManyAndCount qb ;;
  ret {| data := fst r; total := snd r;
         result_page := page pagination; result_limit := limit pagination |}.

Definition findOne (id : number) : M (option row) := Orm.findOne id.

Definition create (entity : row) : M row :=
  instance <- Orm.create entity ;;
  Orm.save instance.

Definition update (id : number) (entity : row) : M row :=
  Orm.update id entity ;;;
  updated <- findOne id ;;
  match updated with
  | None => throw (PlainError ("Entity with id " ++ string_of_number id
                               ++ " not found after update"))
  | Some e => ret e
  end.

Definition delete (id : number) : M unit :=
  Orm.delete id ;;; ret tt.

End Legacy.

End Repo.

(* ================================================================== *)
(** ** The global exception filter *)
(* ================================================================== *)

Module ExceptionFilter.
Import Js Errors Repo.

(** The JSON body of the response; its status is [statusCode]. *)
Record response : Type := {
  statusCode : Z;
  message : string;
  timestamp : string;
  path : string
}.

(** The prefix of [l] before its first apostrophe. *)
Fixpoint up_to_first_quote (l : list ascii) : option (list ascii) :=
  match l with
  | [] => None
  | c :: r =>
      if Ascii.eqb c "'"%char then Some []
      else match up_to_first_quote r with
           | Some p => Some (c :: p)
           | None => None
           end
  end.

(** The group [(.+?)'] matched lazily at the head of [l]. *)
Definition lazy_group (l : list ascii) : option (list ascii) :=
  match line_of l with
  | [] => None
  | c :: r =>
      match up_to_first_quote r with
      | Some p => Some (c :: p)
      | None => None
      end
  end.

(** [msg.match(...)] for the pattern [for key '(.+?)']: the leftmost
    match, its group 1. *)
Fixpoint match_for_key_lazy (s : list ascii) : option (list ascii) :=
  match s with
  | [] => None
  | _ :: r =>
      match
        match strip_prefix (chars "for key '") s with
        | Some rest => lazy_group rest
        | None => None
        end
      with
      | Some g => Some g
      | None => match_for_key_lazy r
      end
  end.

(** [s.replace(pattern, replacement)] for a string pattern: the first
    occurrence only. *)
Fixpoint replace_first (pattern replacement s : list ascii) : list ascii :=
  match strip_prefix pattern s with
  | Some rest => replacement ++ rest
  | None =>
      match s with
      | [] => []
      | c :: r => c :: replace_first pattern replacement r
      end
  end.

Definition extractDuplicateField (msg : string) : string :=
  match match_for_key_lazy (chars msg) with
  | Some g => str (replace_first (chars "users.") [] g)
  | None => "unknown"
  end.

(** [catch(exception, host)]: the response written for an exception,
    given the URL of the request and the time of the call. *)
Definition catch (exception : thrown) (url now : string) : response :=
  let (status, message) :=
    match exception with
    | Http e => (getStatus e, message_of exception)
    | QueryFailedError d =>
        if String.eqb (code d) "ER_DUP_ENTRY"
        then (409%Z, "Duplicate value for unique field(s): "
                     ++ extractDuplicateField (sqlMessage d))
        else (400%Z, "MySQL Error: " ++ sqlMessage d)
    | PlainError _ => (500%Z, "Internal server error")
    end in
  {| statusCode := status; message := message; timestamp := now; path := url |}.

End ExceptionFilter.

(* ================================================================== *)
(** ** Properties *)
(* ================================================================== *)

Import Js Errors Sql Eff Orm Repo.


(** *** Vocabulary of the statements *)

Section Vocabulary.
Context {policy : ColumnPolicy}.

(** A table of users, as [user.entity.ts] declares it. *)
Definition users : table :=
  {| name := "users";
     entity := "User";
     columns := ["id"; "name"; "email"; "isActive"; "createdAt"];
     required := ["name"; "email"; "isActive"; "createdAt"];
     defaults := [("isActive", SInt 1); ("createdAt", SText "2024-01-03")];
     unique := [("email", "IDX_email")];
     storage := MySQL;
     rows := [ [("id", SInt 1); ("name", SText "Alice"); ("email", SText "bob@x.com");
                ("isActive", SInt 1); ("createdAt", SText "2024-01-01")];
               [("id", SInt 2); ("name", SText "Bob"); ("email", SText "alice@y.com");
                ("isActive", SInt 1); ("createdAt", SText "2024-01-02")] ];
     next_id := 3 |}.

(** The request [?page=1&limit=10] with the DTO's defaults. *)
Definition first_page : AbstractPaginationDto :=
  {| page := 1; limit := 10; sortBy := None; order := Some "ASC";
     search := None; filters := None |}.

Definition with_filters (p : AbstractPaginationDto) (f : option string) : AbstractPaginationDto :=
  {| page := page p; limit := limit p; sortBy := sortBy p; order := order p;
     search := search p; filters := f |}.

Definition with_search (p : AbstractPaginationDto) (s : option string) : AbstractPaginationDto :=
  {| page := page p; limit := limit p; sortBy := sortBy p; order := order p;
     search := s; filters := filters p |}.

Definition with_sort (p : AbstractPaginationDto) (s o : option string) : AbstractPaginationDto :=
  {| page := page p; limit := limit p; sortBy := s; order := o;
     search := search p; filters := filters p |}.

Definition with_page (p : AbstractPaginationDto) (n : Z) : AbstractPaginationDto :=
  {| page := n; limit := limit p; sortBy := sortBy p; order := order p;
     search := search p; filters := filters p |}.

Definition is_throw {A : Type} (r : result A) : bool :=
  match r with Throw _ => true | Return _ => false end.

(** The builder after the filter block; [None] when the block throws. *)
Definition filtered_builder (p : AbstractPaginationDto) : option query :=
  match filters p with
  | Some text =>
      if truthy (filters p) then
        match applyFilters (createQueryBuilder "e") text with
        | (qb, false) => Some qb
        | (_, true) => None
        end
      else Some (createQueryBuilder "e")
  | None => Some (createQueryBuilder "e")
  end.

(** The query on which [findAll] calls [getManyAndCount]. *)
Definition executed_query (p : AbstractPaginationDto) : option query :=
  option_map (fun qb => finishQuery qb p) (filtered_builder p).

(** What [findAll] makes of the outcome of the query. *)
Definition paginated (p : AbstractPaginationDto) (q : query) : M PaginatedResult :=
  fun t =>
    match getManyAndCount q t with
    | (Return r, t') =>
        (Return {| data := fst r; total := snd r;
                   result_page := page p; result_limit := limit p |}, t')
    | (Throw e, t') => (Throw (Http (InternalServerErrorException (message_of e))), t')
    end.

(** The equality predicate written for filter key [k]. *)
Definition filter_clause (k : string) : where_clause :=
  (And, Pred (Eq k ("filter_" ++ k))).

Definition filter_param (parsed : value) (k : string) : string * option value :=
  ("filter_" ++ k, get parsed k).

(** The predicate written by [orWhere] for the column at an index, and
    the parameter bound with every search predicate. *)
Definition or_clause (ic : nat * string) : where_clause :=
  (Or, Pred (Like (snd ic) ("search_" ++ string_of_nat (fst ic)))).

Definition like_param (text : string) (ic : nat * string) : string * option value :=
  ("search_" ++ string_of_nat (fst ic), Some (JString ("%" ++ text ++ "%"))).

(** The OR-group over the searchable columns: the first column by
    [where], the others by [orWhere], parameter [search_<index>] each. *)
Definition like_group (cols : list string) : list where_clause :=
  match cols with
  | [] => []
  | c0 :: rest =>
      (Simple, Pred (Like c0 "search_0"))
        :: map or_clause (combine (seq 1 (List.length rest)) rest)
  end.

Definition like_params (cols : list string) (text : string) : list (string * option value) :=
  map (like_param text) (combine (seq 0 (List.length cols)) cols).

(** Whether the search block adds its group. *)
Definition search_applies (s : option string) : bool :=
  andb (truthy s) (negb (Nat.eqb (List.length getSearchableColumns) 0)).

Definition search_clauses (s : option string) : list where_clause :=
  if search_applies s then [(And, Brackets (like_group getSearchableColumns))] else [].

Definition search_params (s : option string) : list (string * option value) :=
  match s with
  | Some text => if search_applies s then like_params getSearchableColumns text else []
  | None => []
  end.

(** The rows the equality predicates of the filter keys let through. *)
Definition filters_hold (t : table) (parsed : value) (keys : list string) (r : row) : bool :=
  forallb (fun k => holds t k (get parsed k) r) keys.

(** The rows the search group lets through. *)
Definition search_holds (t : table) (s : option string) (r : row) : bool :=
  match s with
  | Some text =>
      if search_applies s
      then existsb (fun c => sql_like ("%" ++ text ++ "%") (cell t r c)) getSearchableColumns
      else true
  | None => true
  end.

Definition is_index (kv : string * value) : bool :=
  match array_index (fst kv) with Some _ => true | None => false end.

(** A value whose object, if it is one, has distinct keys. *)
Definition distinct_keys (v : value) : Prop :=
  match v with
  | JObject props => NoDup (map fst props)
  | _ => True
  end.

(** Whether the query fails on the table. *)
Definition query_fails (t : table) (q : query) : bool :=
  match statement_error t q with
  | Some _ => true
  | None => false
  end.

(** What the storage does for [create]: instantiate, then save. *)
Definition stores (entity : row) : M row :=
  bind (Orm.create entity) Orm.save.

Definition is_dup (e : thrown) : bool :=
  match code_of e with
  | Some c => String.eqb c "ER_DUP_ENTRY"
  | None => false
  end.

(** The users, one of whom has an address with an apostrophe in it. *)
Definition users_quoted : table :=
  with_rows users
    [ [("id", SInt 1); ("name", SText "Ann"); ("email", SText "x for key 'y");
       ("isActive", SInt 1); ("createdAt", SText "2024-01-01")] ] 2.

(** Substring containment without regard to case. *)
Fixpoint ci_prefix (s v : list ascii) : bool :=
  match s, v with
  | [], _ => true
  | _ :: _, [] => false
  | a :: s', b :: v' => andb (ci_eqb b a) (ci_prefix s' v')
  end.

Fixpoint ci_contains (s v : list ascii) : bool :=
  orb (ci_prefix s v)
      (match v with
       | [] => false
       | _ :: v' => ci_contains s v'
       end).

Definition contains_text (text : string) (v : sql_value) : bool :=
  match text_of v with
  | Some s => ci_contains (chars text) (chars s)
  | None => false
  end.

(** A character that LIKE takes literally. *)
Definition plain (c : ascii) : bool :=
  negb (orb (Ascii.eqb c "%"%char) (orb (Ascii.eqb c "_"%char) (Ascii.eqb c backslash))).

(** The words the pattern of [extractDuplicateField] starts with. *)
Definition for_key : list ascii := chars "for key '".

(** Whether [p] occurs in [s]. *)
Fixpoint occurs (p s : list ascii) : bool :=
  match strip_prefix p s with
  | Some _ => true
  | None =>
      match s with
      | [] => false
      | _ :: s' => occurs p s'
      end
  end.

(** The message MySQL writes for a duplicate of value [v] on index [k]. *)
Definition duplicate_message (v k : string) : string :=
  "Duplicate entry '" ++ v ++ "' for key '" ++ k ++ "'".

(** Whether the bytes that follow a byte 226 complete U+2028 or U+2029. *)
Definition separator_follows (r : list ascii) : bool :=
  match r with
  | c1 :: c2 :: _ =>
      andb (Nat.eqb (nat_of_ascii c1) 128)
           (orb (Nat.eqb (nat_of_ascii c2) 168) (Nat.eqb (nat_of_ascii c2) 169))
  | _ => false
  end.

End Vocabulary.

(** *** The definitions at work *)

Example parse_object :
  Json.parse (with_dquotes "{'role':'admin', 'isActive':true, '2':1.5e3, 'role':null, '1':[]}")
  = Some (JObject [("1", JArray []); ("2", JNumber 15 2); ("role", JNull);
                   ("isActive", JBool true)]).
Proof. vm_compute. reflexivity. Qed.

Example parse_rejects :
  map Json.parse ["{"; ""; "01"; "1."; "[1,]"; "nul"; "{'a':1}"; with_dquotes "{'a':1,}"]
  = [None; None; None; None; None; None; None; None].
Proof. vm_compute. reflexivity. Qed.

Example parse_scalars :
  map Json.parse [" null "; "-0"; "1e5"; with_dquotes "'aA\n'"]
  = [Some JNull; Some (JNumber 0 0); Some (JNumber 1 5);
     Some (JString (String "a" (String "A" (String (ascii_of_nat 10) ""))))].
Proof. vm_compute. reflexivity. Qed.

Example keys_of_parsed :
  map Object_keys [JNull; JBool true; JString "ab"; JArray [JNull]]
  = [None; Some []; Some ["0"; "1"]; Some ["0"]].
Proof. vm_compute. reflexivity. Qed.

Example extract_examples :
  map extractDuplicateField
      ["Duplicate entry 'test@example.com' for key 'users.email'";
       "Duplicate entry 'x' for key ''";
       "Duplicate entry 'a for key 'zz' for key 'users.email'";
       "Field 'email' doesn't have a default value"]
  = ["users.email"; "unknown"; "zz' for key 'users.email"; "unknown"].
Proof. vm_compute. reflexivity. Qed.

Example like_examples :
  (sql_like "%bob%" (SText "Bob"), sql_like "%b_b%" (SText "Bob"),
   sql_like "%b\_b%" (SText "Bob"), sql_like "%b\_b%" (SText "b_b"),
   sql_like "%%%" (SText ""), sql_like "%1%" (SInt 12), sql_like "%" SNull)
  = (true, true, false, true, true, true, false).
Proof. vm_compute. reflexivity. Qed.

Example upper_examples :
  map toUpperCase ["desc"; "Desc"; "ASC"; ""] = ["DESC"; "DESC"; "ASC"; ""].
Proof. vm_compute. reflexivity. Qed.

Example search_query :
  @finishQuery user_policy (createQueryBuilder "e")
    {| page := 3; limit := 10; sortBy := Some "name"; order := Some "desc";
       search := Some "bob"; filters := None |}
  = {| alias := "e";
       wheres := [(And, Brackets [(Simple, Pred (Like "name" "search_0"));
                                  (Or, Pred (Like "email" "search_1"))])];
       parameters := [("search_0", Some (JString "%bob%"));
                      ("search_1", Some (JString "%bob%"))];
       orderBys := [("name", DESC)];
       skip_rows := Some 20%Z;
       take_rows := Some 10%Z |}.
Proof. vm_compute. reflexivity. Qed.

Example sort_falls_back :
  (@safeSort user_policy (Some "password"), @safeSort user_policy (Some ""),
   @safeSort user_policy None, @safeSort abstract_policy (Some "name"))
  = ("id", "id", "id", "id").
Proof. vm_compute. reflexivity. Qed.

Example create_then_findOne :
  let (created, t) := Repo.create [("name", SText "Carol"); ("email", SText "carol@z.com")] users in
  created = Return [("id", SInt 3); ("name", SText "Carol"); ("email", SText "carol@z.com");
                    ("isActive", SInt 1); ("createdAt", SText "2024-01-03")] /\
  fst (Repo.findOne (Num 3) t) = created.
Proof. vm_compute. split; reflexivity. Qed.

(** A save onto an existing key hands back the instance, not the row. *)
Example create_onto_existing_key :
  let (created, t) := Repo.create [("id", SInt 2); ("name", SText "Robert")] users in
  created = Return [("id", SInt 2); ("name", SText "Robert")] /\
  fst (Repo.findOne (Num 2) t)
  = Return [("id", SInt 2); ("name", SText "Robert"); ("email", SText "alice@y.com");
            ("isActive", SInt 1); ("createdAt", SText "2024-01-02")].
Proof. vm_compute. split; reflexivity. Qed.

(** The key 0 is replaced by a fresh one. *)
Example create_with_key_zero :
  fst (Repo.create [("id", SInt 0); ("name", SText "Carol"); ("email", SText "carol@z.com")]
                   users)
  = Return [("id", SInt 3); ("name", SText "Carol"); ("email", SText "carol@z.com");
            ("isActive", SInt 1); ("createdAt", SText "2024-01-03")].
Proof. vm_compute. reflexivity. Qed.

Example number_rendering :
  map (fun z => string_of_number (Num z))
      [0; 7; -5; 2 ^ 53; 2 ^ 53 + 1; 2 ^ 60; 2 ^ 64; 10 ^ 20; 10 ^ 21; -15 * 10 ^ 20; 2 ^ 70;
       2 ^ 1024]%Z
  = ["0"; "7"; "-5"; "9007199254740992"; "9007199254740992"; "1152921504606847000";
     "18446744073709552000"; "100000000000000000000"; "1e+21"; "-1.5e+21";
     "1.1805916207174113e+21"; "Infinity"].
Proof. vm_compute. reflexivity. Qed.

Example page_arithmetic :
  (times (minus 3 1) 10, times (minus (10 ^ 21) 1) 10, rendered (Some (times (minus (10 ^ 21) 1) 10)))
  = (20, 10 ^ 22, "1e+22")%Z.
Proof. vm_compute. reflexivity. Qed.

Example row_counts :
  map row_count ["0"; "10"; "18446744073709551615"; "18446744073709551616"; "-1"; "1e+22"; ""]
  = [Some 0; Some 10; Some 18446744073709551615; None; None; None; None]%N.
Proof. vm_compute. reflexivity. Qed.

(** A pair of surrogates written as two escapes is the character
    itself; a string has one key per code unit. *)
Example surrogate_pairs :
  Json.parse (with_dquotes "'\ud83d\ude00'")
  = Some (JString (str (map ascii_of_nat [240; 159; 152; 128]))) /\
  Object_keys (JString (str (map ascii_of_nat [240; 159; 152; 128]))) = Some ["0"; "1"] /\
  get (JString (str (map ascii_of_nat [240; 159; 152; 128]))) "1"
  = Some (JString (str (map ascii_of_nat [237; 184; 128]))).
Proof. vm_compute. repeat split; reflexivity. Qed.

Example parameter_keys :
  map parameter_key_ok ["filter_role"; "filter_first name"; "filter_"; "search_0"; "a.b_C9"; ""; "a-b"]
  = [true; false; true; true; true; false; false].
Proof. vm_compute. reflexivity. Qed.

(** The comparisons of the engine of the users: numbers as doubles, text
    read as a number where it meets one. *)
Example comparisons :
  map (fun cv => match compare users (fst cv) (Some (snd cv)) with
                 | inr test => Some (map test (rows users))
                 | inl _ => None
                 end)
      [("id", JString "1"); ("id", JNumber 10000000000000000001 (-19)); ("id", JNumber 2 0);
       ("name", JString "ALICE"); ("isActive", JBool true); ("name", JNumber 0 0);
       ("id", JArray [JNumber 2 0]); ("id", JArray []); ("id", JNull);
       ("ID", JNumber 1 0); ("Email", JString "ALICE@Y.COM");
       ("id", JArray [JArray [JNumber 1 0]]); ("id", JArray [JArray [JNumber 1 0; JNumber 2 0]]);
       ("id", JArray [JObject [("id", JNumber 1 0)]]); ("id", JObject [("id", JNumber 1 0)]);
       ("id", JObject [("name", JArray [JNumber 0 0])])]
  = [Some [true; false]; Some [true; false]; Some [false; true];
     Some [true; false]; Some [true; true]; Some [true; true];
     Some [false; true]; None; Some [false; false];
     Some [true; false]; Some [false; true];
     Some [true; false]; None; Some [false; false]; Some [true; true];
     Some [true; true]].
Proof. vm_compute. reflexivity. Qed.

(** A statement with two faults fails on the one the engine meets
    first: it parses the whole text before it resolves a name. *)
Example errors_in_order :
  map (fun pf => fst (@findAll user_policy
                        {| page := fst pf; limit := 10; sortBy := None; order := None;
                           search := None; filters := Some (with_dquotes (snd pf)) |} users))
      [(1, "{'nope':1}"); (10 ^ 21, "{'nope':1}"); (1, "{'nope':1e999}");
       (1, "{'id':[[1,2]]}")]%Z
  = [Throw (Http (InternalServerErrorException "Unknown column 'e.nope' in 'where clause'"));
     Throw (Http (InternalServerErrorException (sqlMessage (parse_error "1e+22"))));
     Throw (Http (InternalServerErrorException "Unknown column 'e.nope' in 'where clause'"));
     Throw (Http (InternalServerErrorException "Operand should contain 1 column(s)"))].
Proof. vm_compute. reflexivity. Qed.

(** *** Calls on the builder *)

Lemma chars_append (a b : string) : chars (a ++ b) = (chars a ++ chars b)%list.
Proof.
  unfold chars. induction a as [|c a IH]; simpl; [reflexivity|]. rewrite IH. reflexivity.
Qed.

Lemma setParameters_accepted (q : query) (ps : list (string * option value)) :
  forallb (fun kv => parameter_key_ok (fst kv)) ps = true ->
  setParameters q ps = (set_wheres q (wheres q) (parameters q ++ ps), None).
Proof.
  revert q. induction ps as [|[k v] ps IH]; intros q H.
  - cbn [setParameters]. rewrite app_nil_r. destruct q; reflexivity.
  - cbn [forallb fst] in H. apply andb_prop in H. destruct H as [Hk Hps].
    cbn [setParameters]. unfold setParameter. rewrite Hk.
    rewrite (IH _ Hps). cbn [set_wheres wheres parameters alias orderBys skip_rows take_rows].
    rewrite <- app_assoc. reflexivity.
Qed.

(** The name [filter_<key>] is accepted exactly when [key] is made of
    letters, digits, underscores and periods. *)
Lemma filter_key_ok (k : string) :
  parameter_key_ok ("filter_" ++ k) = forallb is_key_char (chars k).
Proof.
  unfold parameter_key_ok. rewrite chars_append. reflexivity.
Qed.

Lemma decimal_key_chars (d : Decimal.uint) :
  forallb is_key_char (chars (NilEmpty.string_of_uint d)) = true.
Proof.
  induction d; cbn [NilEmpty.string_of_uint chars list_ascii_of_string forallb];
    try reflexivity; exact IHd.
Qed.

(** The names [search_<index>] are always accepted. *)
Lemma search_key_ok (idx : nat) : parameter_key_ok ("search_" ++ string_of_nat idx) = true.
Proof.
  unfold parameter_key_ok. rewrite chars_append.
  cbn [chars list_ascii_of_string app forallb]. cbn [is_key_char]. 
  change (forallb is_key_char (chars (string_of_nat idx)) = true).
  unfold string_of_nat, NilZero.string_of_uint.
  destruct (Nat.to_uint idx) eqn:E; try reflexivity;
    rewrite <- E; clear E; apply decimal_key_chars.
Qed.

(** *** Shape of the built query *)

Section Shape.
Context {policy : ColumnPolicy}.

Lemma filterEach_cases (parsed : value) (qb : query) (k : string) (idx : nat) :
  filterEach parsed qb k idx =
  if forallb is_key_char (chars k)
  then (set_wheres qb (wheres qb ++ [filter_clause k])
                   (parameters qb ++ [filter_param parsed k]), None)
  else (set_wheres qb (wheres qb ++ [filter_clause k]) (parameters qb),
        Some (PlainError parameter_key_message)).
Proof.
  unfold filterEach, andWhere. cbn [setParameters]. unfold setParameter.
  rewrite filter_key_ok. destruct (forallb is_key_char (chars k)); reflexivity.
Qed.

(** What the filter block leaves when it does not throw. *)
Lemma filter_forEach_shape (parsed : value) (keys : list string) (idx : nat) (qb qb' : query) :
  forEach (filterEach parsed) keys idx qb = (qb', None) ->
  wheres qb' = (wheres qb ++ map filter_clause keys)%list /\
  parameters qb' = (parameters qb ++ map (filter_param parsed) keys)%list /\
  alias qb' = alias qb /\ orderBys qb' = orderBys qb /\
  skip_rows qb' = skip_rows qb /\ take_rows qb' = take_rows qb /\
  forallb (fun k => forallb is_key_char (chars k)) keys = true.
Proof.
  revert idx qb. induction keys as [|k keys IH]; intros idx qb H.
  - cbn [forEach] in H. inversion H; subst. cbn [map forallb]. rewrite !app_nil_r.
    repeat split; reflexivity.
  - cbn [forEach] in H. rewrite filterEach_cases in H.
    destruct (forallb is_key_char (chars k)) eqn:Ek; [|discriminate H].
    destruct (IH _ _ H) as (Hw & Hp & Ha & Ho & Hs & Ht & Hk).
    rewrite Hw, Hp, Ha, Ho, Hs, Ht.
    cbn [set_wheres wheres parameters alias orderBys skip_rows take_rows map forallb].
    rewrite <- !app_assoc, Ek, Hk. repeat split; reflexivity.
Qed.

(** The block does not throw when every key is accepted, and throws
    otherwise. *)
Lemma filter_forEach_accepted (parsed : value) (keys : list string) (idx : nat) (qb : query) :
  forallb (fun k => forallb is_key_char (chars k)) keys = true ->
  exists qb', forEach (filterEach parsed) keys idx qb = (qb', None).
Proof.
  revert idx qb. induction keys as [|k keys IH]; intros idx qb H.
  - eexists. reflexivity.
  - cbn [forallb] in H. apply andb_prop in H. destruct H as [Hk Hkeys].
    cbn [forEach]. rewrite filterEach_cases, Hk. apply IH. exact Hkeys.
Qed.

Lemma filter_forEach_refused (parsed : value) (keys : list string) (idx : nat) (qb : query) :
  forallb (fun k => forallb is_key_char (chars k)) keys = false ->
  exists qb' e, forEach (filterEach parsed) keys idx qb = (qb', Some e).
Proof.
  revert idx qb. induction keys as [|k keys IH]; intros idx qb H; [discriminate H|].
  cbn [forallb] in H. cbn [forEach]. rewrite filterEach_cases.
  destruct (forallb is_key_char (chars k)); [|eexists; eexists; reflexivity].
  apply IH. exact H.
Qed.

Lemma searchEach_or (text : string) (sqb : query) (c : string) (n : nat) :
  searchEach text sqb c (S n)
  = (set_wheres sqb (wheres sqb ++ [or_clause (S n, c)])
                (parameters sqb ++ [like_param text (S n, c)]), None).
Proof.
  unfold searchEach, orWhere. cbn [Nat.eqb setParameters]. unfold setParameter.
  rewrite search_key_ok. reflexivity.
Qed.

Lemma forEach_or (text : string) (cols : list string) (n : nat) (sqb : query) :
  exists sqb',
    forEach (searchEach text) cols (S n) sqb = (sqb', None) /\
    wheres sqb' = (wheres sqb ++ map or_clause (combine (seq (S n) (List.length cols)) cols))%list /\
    parameters sqb' = (parameters sqb
                       ++ map (like_param text) (combine (seq (S n) (List.length cols)) cols))%list.
Proof.
  revert n sqb. induction cols as [|c cols IH]; intros n sqb.
  - exists sqb. cbn [forEach List.length seq combine map]. rewrite !app_nil_r.
    repeat split; reflexivity.
  - cbn [forEach List.length seq combine map]. rewrite searchEach_or.
    destruct (IH (S n) (set_wheres sqb (wheres sqb ++ [or_clause (S n, c)])
                                   (parameters sqb ++ [like_param text (S n, c)])))
      as (sqb' & Hf & Hw & Hp).
    exists sqb'. rewrite Hf, Hw, Hp. cbn [set_wheres wheres parameters].
    rewrite <- !app_assoc. repeat split; reflexivity.
Qed.

Lemma searchBrackets_shape (cols : list string) (text : string) (a : string) :
  exists sub,
    searchBrackets cols text (createQueryBuilder a) = (sub, None) /\
    wheres sub = like_group cols /\
    parameters sub = like_params cols text.
Proof.
  unfold searchBrackets, like_group, like_params.
  destruct cols as [|c0 rest].
  - eexists. repeat split; reflexivity.
  - cbn [forEach List.length seq combine map].
    assert (H0 : searchEach text (createQueryBuilder a) c0 0
                 = (set_wheres (createQueryBuilder a) [(Simple, Pred (Like c0 "search_0"))]
                               [like_param text (0%nat, c0)], None)).
    { unfold searchEach, where_. cbn [Nat.eqb setParameters]. unfold setParameter.
      rewrite (search_key_ok 0). reflexivity. }
    rewrite H0.
    destruct (forEach_or text rest 0
                (set_wheres (createQueryBuilder a) [(Simple, Pred (Like c0 "search_0"))]
                            [like_param text (0%nat, c0)]))
      as (sub & Hf & Hw & Hp).
    exists sub. rewrite Hf, Hw, Hp. repeat split; reflexivity.
Qed.

(** The search block never throws. *)
Lemma applySearch_shape (qb : query) (s : option string) :
  exists qb',
    applySearch qb s = (qb', None) /\
    wheres qb' = (wheres qb ++ search_clauses s)%list /\
    parameters qb' = (parameters qb ++ search_params s)%list /\
    alias qb' = alias qb /\ orderBys qb' = orderBys qb /\
    skip_rows qb' = skip_rows qb /\ take_rows qb' = take_rows qb.
Proof.
  assert (Hsame : exists qb',
             (qb, @None thrown) = (qb', None) /\
             wheres qb' = (wheres qb ++ [])%list /\
             parameters qb' = (parameters qb ++ [])%list /\
             alias qb' = alias qb /\ orderBys qb' = orderBys qb /\
             skip_rows qb' = skip_rows qb /\ take_rows qb' = take_rows qb).
  { exists qb. rewrite !app_nil_r. repeat split; reflexivity. }
  unfold applySearch, search_clauses, search_params, search_applies.
  destruct s as [text|]; [|exact Hsame].
  cbn [truthy]. destruct (String.eqb text ""); cbn [negb andb]; [exact Hsame|].
  destruct (Nat.eqb (List.length getSearchableColumns) 0); cbn [negb]; [exact Hsame|].
  destruct (searchBrackets_shape getSearchableColumns text (alias qb)) as (sub & Hs & Hw & Hp).
  unfold andWhereBrackets. rewrite Hs. eexists. split; [reflexivity|].
  cbn [set_wheres wheres parameters alias orderBys skip_rows take_rows].
  rewrite Hw, Hp. repeat split; reflexivity.
Qed.

Lemma finishQuery_shape (qb : query) (p : AbstractPaginationDto) :
  wheres (finishQuery qb p) = (wheres qb ++ search_clauses (search p))%list /\
  parameters (finishQuery qb p) = (parameters qb ++ search_params (search p))%list /\
  orderBys (finishQuery qb p) = [(safeSort (sortBy p), sortDirection (order p))] /\
  skip_rows (finishQuery qb p) = Some (times (minus (page p) 1) (limit p)) /\
  take_rows (finishQuery qb p) = Some (limit p) /\
  alias (finishQuery qb p) = alias qb.
Proof.
  destruct (applySearch_shape qb (search p)) as (qb' & Hs & Hw & Hp & Ha & _).
  unfold finishQuery, applyPage, applySort. rewrite Hs.
  cbn [fst take skip orderBy wheres parameters orderBys skip_rows take_rows alias].
  repeat split; assumption.
Qed.

(** What the filter block leaves for a payload that parses to an object
    whose keys are all accepted. *)
Lemma applyFilters_object (qb : query) (text : string) (props : list (string * value)) :
  Json.parse text = Some (JObject props) ->
  forallb (fun k => forallb is_key_char (chars k)) (map fst props) = true ->
  exists qb',
    applyFilters qb text = (qb', false) /\
    wheres qb' = (wheres qb ++ map filter_clause (map fst props))%list /\
    parameters qb' = (parameters qb ++ map (filter_param (JObject props)) (map fst props))%list.
Proof.
  intros Hparse Hkeys. unfold applyFilters. rewrite Hparse. cbn [Object_keys].
  destruct (filter_forEach_accepted (JObject props) (map fst props) 0 qb Hkeys) as [qb' Hf].
  rewrite Hf. exists qb'. split; [reflexivity|].
  destruct (filter_forEach_shape _ _ _ _ _ Hf) as (Hw & Hp & _).
  split; assumption.
Qed.

Lemma applyFilters_refused (qb : query) (text : string) (props : list (string * value)) :
  Json.parse text = Some (JObject props) ->
  forallb (fun k => forallb is_key_char (chars k)) (map fst props) = false ->
  snd (applyFilters qb text) = true.
Proof.
  intros Hparse Hkeys. unfold applyFilters. rewrite Hparse. cbn [Object_keys].
  destruct (filter_forEach_refused (JObject props) (map fst props) 0 qb Hkeys)
    as (qb' & e & Hf).
  rewrite Hf. reflexivity.
Qed.

End Shape.

(** *** The query [findAll] executes *)

Section Plan.
Context {policy : ColumnPolicy}.

Lemma findAll_unfold (p : AbstractPaginationDto) (t : table) :
  findAll p t =
  match executed_query p with
  | Some q => paginated p q t
  | None => (Throw (Http (InternalServerErrorException "Invalid filters JSON")), t)
  end.
Proof.
  assert (Hrun : forall qb,
             try_catch
               (bind (called (applySearch qb (search p)))
                     (fun qb0 =>
                        bind (getManyAndCount
                                (applyPage (applySort qb0 (sortBy p) (order p))
                                           (page p) (limit p)))
                             (fun r => ret {| data := fst r; total := snd r;
                                              result_page := page p;
                                              result_limit := limit p |})))
               (fun error => throw (Http (InternalServerErrorException (message_of error)))) t
             = paginated p (finishQuery qb p) t).
  { intros qb. unfold finishQuery, paginated, try_catch, bind.
    destruct (applySearch_shape qb (search p)) as (qb' & Hs & _). rewrite Hs.
    cbn [called ret fst].
    destruct (getManyAndCount _ t) as [[r|e] t']; reflexivity. }
  unfold executed_query, filtered_builder.
  unfold findAll.
  destruct (filters p) as [text|]; cbn [truthy].
  - destruct (String.eqb text ""); cbn [negb option_map].
    + unfold try_catch at 1, bind at 1. cbn [ret]. apply Hrun.
    + destruct (applyFilters _ text) as [qb [|]]; cbn [option_map].
      * reflexivity.
      * unfold try_catch at 1, bind at 1. cbn [ret]. apply Hrun.
  - cbn [option_map]. unfold try_catch at 1, bind at 1. cbn [ret]. apply Hrun.
Qed.

Lemma getManyAndCount_state (q : query) (t : table) : snd (getManyAndCount q t) = t.
Proof.
  unfold getManyAndCount. destruct (statement_error t q); reflexivity.
Qed.

(** [findAll] only reads the table. *)
Lemma findAll_state (p : AbstractPaginationDto) (t : table) : snd (findAll p t) = t.
Proof.
  rewrite findAll_unfold.
  destruct (executed_query p) as [q|]; [|reflexivity].
  unfold paginated.
  pose proof (getManyAndCount_state q t) as Hs.
  destruct (getManyAndCount q t) as [[r|e] t']; simpl in *; assumption.
Qed.

(** Every failure of [findAll] leaves it as an internal error. *)
Lemma findAll_throws_internal (p : AbstractPaginationDto) (t : table) (e : thrown) :
  fst (findAll p t) = Throw e ->
  exists m, e = Http (InternalServerErrorException m).
Proof.
  rewrite findAll_unfold.
  destruct (executed_query p) as [q|].
  - unfold paginated.
    destruct (getManyAndCount q t) as [[r|e'] t']; simpl; intros H; inversion H.
    eauto.
  - simpl. intros H; inversion H. eauto.
Qed.

Lemma paginated_throw (p : AbstractPaginationDto) (q : query) (t : table) :
  is_throw (fst (paginated p q t)) = query_fails t q.
Proof.
  unfold paginated, getManyAndCount, query_fails.
  destruct (statement_error t q); reflexivity.
Qed.

Lemma findAll_returns (p : AbstractPaginationDto) (t : table) (res : PaginatedResult) :
  fst (findAll p t) = Return res ->
  exists q,
    executed_query p = Some q /\ query_fails t q = false /\
    res = {| data := page_of q (ordered t q (filter (matches t q) (rows t)));
             total := List.length (filter (matches t q) (rows t));
             result_page := page p; result_limit := limit p |}.
Proof.
  rewrite findAll_unfold.
  destruct (executed_query p) as [q|]; [|discriminate].
  unfold paginated, getManyAndCount, query_fails. intros H. exists q.
  destruct (statement_error t q); [discriminate H|].
  cbn in H. inversion H. repeat split.
Qed.

Lemma findAll_succeeds (p : AbstractPaginationDto) (t : table) (q : query) :
  executed_query p = Some q -> query_fails t q = false ->
  fst (findAll p t)
  = Return {| data := page_of q (ordered t q (filter (matches t q) (rows t)));
              total := List.length (filter (matches t q) (rows t));
              result_page := page p; result_limit := limit p |}.
Proof.
  intros Hq Hok. rewrite findAll_unfold, Hq.
  unfold paginated, getManyAndCount. unfold query_fails in Hok.
  destruct (statement_error t q); [discriminate Hok|].
  reflexivity.
Qed.

(** The earlier revision runs the same query on the builder its filter
    block left, thrown or not, and rethrows nothing. *)
Lemma legacy_findAll_unfold (p : AbstractPaginationDto) (t : table) :
  Legacy.findAll p t =
  match getManyAndCount
          (finishQuery (match filters p with
                        | Some text =>
                            if truthy (filters p)
                            then fst (applyFilters (createQueryBuilder "e") text)
                            else createQueryBuilder "e"
                        | None => createQueryBuilder "e"
                        end) p) t with
  | (Return r, t') =>
      (Return {| data := fst r; total := snd r;
                 result_page := page p; result_limit := limit p |}, t')
  | (Throw e, t') => (Throw e, t')
  end.
Proof.
  unfold Legacy.findAll.
  assert (Hrun : forall qb,
             bind (called (applySearch qb (search p)))
                  (fun qb0 =>
                     bind (getManyAndCount
                             (applyPage (applySort qb0 (sortBy p) (order p))
                                        (page p) (limit p)))
                          (fun r => ret {| data := fst r; total := snd r;
                                           result_page := page p;
                                           result_limit := limit p |})) t
             = match getManyAndCount (finishQuery qb p) t with
               | (Return r, t') =>
                   (Return {| data := fst r; total := snd r;
                              result_page := page p; result_limit := limit p |}, t')
               | (Throw e, t') => (Throw e, t')
               end).
  { intros qb. unfold finishQuery, bind.
    destruct (applySearch_shape qb (search p)) as (qb' & Hs & _). rewrite Hs.
    cbn [called ret fst].
    destruct (getManyAndCount _ t) as [[r|e] t']; reflexivity. }
  destruct (filters p) as [text|]; [destruct (truthy (Some text))|]; apply Hrun.
Qed.

End Plan.

(** *** Meaning of the built query *)

Lemma bound_app (ps1 ps2 : list (string * option value)) (p : string) :
  bound (ps1 ++ ps2) p =
  match bound ps2 p with
  | Some v => Some v
  | None => bound ps1 p
  end.
Proof.
  induction ps1 as [|[p' v] ps1 IH]; simpl.
  - destruct (bound ps2 p); reflexivity.
  - rewrite IH. destruct (bound ps2 p); reflexivity.
Qed.

Lemma bound_filter_params (parsed : value) (keys : list string) (k : string) :
  bound (map (filter_param parsed) keys) ("filter_" ++ k) =
  if includes keys k then Some (get parsed k) else None.
Proof.
  induction keys as [|k' keys IH].
  - reflexivity.
  - cbn [map bound]. rewrite IH. unfold includes. cbn [existsb].
    fold (includes keys k).
    destruct (includes keys k).
    + rewrite orb_true_r. reflexivity.
    + rewrite orb_false_r. unfold filter_param. cbn [fst snd].
      cbn [append String.eqb Ascii.eqb Bool.eqb].
      rewrite (String.eqb_sym k k').
      destruct (String.eqb k' k) eqn:E; [|reflexivity].
      apply String.eqb_eq in E. subst. reflexivity.
Qed.

Lemma bound_filter_params_search (parsed : value) (keys : list string) (x : string) :
  bound (map (filter_param parsed) keys) ("search_" ++ x) = None.
Proof.
  induction keys as [|k' keys IH]; [reflexivity|].
  cbn [map bound]. rewrite IH. reflexivity.
Qed.

Lemma bound_like_params_filter (text : string) (ics : list (nat * string)) (x : string) :
  bound (map (like_param text) ics) ("filter_" ++ x) = None.
Proof.
  induction ics as [|ic ics IH]; [reflexivity|].
  cbn [map bound]. rewrite IH. reflexivity.
Qed.

Lemma bound_like_params (text : string) (ics : list (nat * string)) (ic : nat * string) :
  In ic ics ->
  bound (map (like_param text) ics) ("search_" ++ string_of_nat (fst ic))
  = Some (Some (JString ("%" ++ text ++ "%"))).
Proof.
  induction ics as [|ic' ics IH]; intros Hin; [destruct Hin|].
  cbn [map bound].
  destruct (bound (map (like_param text) ics) ("search_" ++ string_of_nat (fst ic))) as [v|] eqn:E.
  - clear IH Hin. revert v E.
    induction ics as [|ic2 ics IH2]; intros v E; [discriminate|].
    cbn [map bound] in E. revert E.
    destruct (bound (map (like_param text) ics) ("search_" ++ string_of_nat (fst ic))) as [v'|].
    + intros E. inversion E; subst. apply IH2. reflexivity.
    + unfold like_param. cbn [fst snd].
      destruct (String.eqb _ _); intros E; inversion E. reflexivity.
  - destruct Hin as [->|Hin].
    + unfold like_param. cbn [fst snd]. rewrite String.eqb_refl. reflexivity.
    + discriminate (IH Hin).
Qed.

Lemma chain_and (ev : condition -> bool) (l : list where_clause) (acc : bool) :
  (forall w, In w l -> fst w <> Or) ->
  chain ev acc l = andb acc (forallb (fun w => ev (snd w)) l).
Proof.
  revert acc. induction l as [|[ty c] l IH]; intros acc Hl; simpl.
  - rewrite andb_true_r. reflexivity.
  - assert (Hty : ty <> Or) by (apply (Hl (ty, c)); left; reflexivity).
    assert (Hl' : forall w, In w l -> fst w <> Or) by (intros w Hw; apply Hl; right; exact Hw).
    destruct ty; try congruence; rewrite IH by assumption; rewrite andb_assoc; reflexivity.
Qed.

Lemma chain_or (ev : condition -> bool) (ics : list (nat * string)) (acc : bool) :
  chain ev acc (map or_clause ics) = orb acc (existsb (fun ic => ev (snd (or_clause ic))) ics).
Proof.
  revert acc. induction ics as [|ic ics IH]; intros acc; simpl.
  - rewrite orb_false_r. reflexivity.
  - rewrite IH. reflexivity.
Qed.

(** A group whose connectives after the first are all AND is a
    conjunction. *)
Lemma eval_group_and (ev : condition -> bool) (ws : list where_clause) :
  (forall w, In w ws -> fst w <> Or) ->
  eval_group ev ws = forallb (fun w => ev (snd w)) ws.
Proof.
  destruct ws as [|[ty c] rest]; intros Hws; simpl; [reflexivity|].
  apply chain_and. intros w Hw. apply Hws. right. exact Hw.
Qed.

(** The group of the search block is a disjunction over the columns. *)
Lemma eval_like_group (t : table) (ps : list (string * option value)) (r : row)
      (cols : list string) (pattern : string) :
  (forall ic, In ic (combine (seq 0 (List.length cols)) cols) ->
              bound ps ("search_" ++ string_of_nat (fst ic)) = Some (Some (JString pattern))) ->
  cols <> [] ->
  eval_condition t ps r (Brackets (like_group cols))
  = existsb (fun c => sql_like pattern (cell t r c)) cols.
Proof.
  intros Hb Hne. destruct cols as [|c0 rest]; [congruence|].
  cbn [eval_condition like_group eval_group].
  rewrite chain_or. cbn [existsb]. f_equal.
  - cbn [eval_condition eval_predicate].
    pose proof (Hb (0%nat, c0) (or_introl eq_refl)) as H0.
    change ("search_" ++ string_of_nat (fst (0%nat, c0))) with "search_0" in H0.
    rewrite H0. reflexivity.
  - assert (Hrest : forall ic, In ic (combine (seq 1 (List.length rest)) rest) ->
                               bound ps ("search_" ++ string_of_nat (fst ic))
                               = Some (Some (JString pattern))).
    { intros ic Hin. apply Hb. right. exact Hin. }
    clear Hb Hne. revert Hrest. generalize 1%nat.
    induction rest as [|c rest IH]; intros n Hrest; [reflexivity|].
    cbn [List.length seq combine existsb]. f_equal.
    + unfold or_clause. cbn [fst snd eval_condition eval_predicate].
      pose proof (Hrest (n, c) (or_introl eq_refl)) as Hn. cbn [fst] in Hn.
      rewrite Hn. reflexivity.
    + apply IH. intros ic Hin. apply Hrest. right. exact Hin.
Qed.

Lemma forallb_in_ext {A : Type} (f g : A -> bool) (l : list A) :
  (forall x, In x l -> f x = g x) -> forallb f l = forallb g l.
Proof.
  induction l as [|x l IH]; intros H; simpl; [reflexivity|].
  rewrite (H x) by (left; reflexivity).
  rewrite IH by (intros y Hy; apply H; right; exact Hy). reflexivity.
Qed.

Lemma forallb_map_comp {A B : Type} (f : A -> B) (g : B -> bool) (l : list A) :
  forallb g (map f l) = forallb (fun x => g (f x)) l.
Proof.
  induction l as [|x l IH]; simpl; [reflexivity|]. rewrite IH. reflexivity.
Qed.

Lemma existsb_pointwise {A : Type} (f g : A -> bool) (l : list A) :
  (forall x, f x = g x) -> existsb f l = existsb g l.
Proof.
  intros H. induction l as [|x l IH]; simpl; [reflexivity|]. rewrite H, IH. reflexivity.
Qed.

Lemma includes_In (l : list string) (x : string) : includes l x = true <-> In x l.
Proof.
  unfold includes. rewrite existsb_exists. split.
  - intros (y & Hy & E). apply String.eqb_eq in E. subst. exact Hy.
  - intros H. exists x. split; [exact H | apply String.eqb_refl].
Qed.

Section Meaning.
Context {policy : ColumnPolicy}.

Lemma matches_meaning (t : table) (q : query) (parsed : value) (keys : list string)
      (s : option string) (r : row) :
  wheres q = (map filter_clause keys ++ search_clauses s)%list ->
  parameters q = (map (filter_param parsed) keys ++ search_params s)%list ->
  matches t q r = andb (filters_hold t parsed keys r) (search_holds t s r).
Proof.
  intros Hw Hp. unfold matches. cbn [eval_condition]. rewrite Hw, Hp.
  rewrite eval_group_and.
  - rewrite forallb_app. f_equal.
    + unfold filters_hold. rewrite forallb_map_comp.
      apply forallb_in_ext. intros k Hk.
      unfold filter_clause. cbn [snd eval_condition eval_predicate].
      rewrite bound_app.
      assert (Hs : bound (search_params s) ("filter_" ++ k) = None).
      { unfold search_params. destruct s as [text|]; [|reflexivity].
        destruct (search_applies (Some text)); [|reflexivity].
        apply bound_like_params_filter. }
      rewrite Hs, bound_filter_params.
      apply includes_In in Hk. rewrite Hk. reflexivity.
    + unfold search_holds, search_clauses, search_params.
      destruct s as [text|].
      * destruct (search_applies (Some text)) eqn:Ha; [|reflexivity].
        cbn [forallb snd]. rewrite andb_true_r.
        apply eval_like_group.
        -- intros ic Hic. rewrite bound_app.
           unfold like_params. rewrite (bound_like_params text _ ic Hic). reflexivity.
        -- unfold search_applies in Ha. apply andb_prop in Ha. destruct Ha as [_ Ha].
           intros Hnil. rewrite Hnil in Ha. discriminate Ha.
      * unfold search_applies. reflexivity.
  - intros w Hin. apply in_app_or in Hin. destruct Hin as [Hin|Hin].
    + apply in_map_iff in Hin. destruct Hin as (k & <- & _). discriminate.
    + unfold search_clauses in Hin. destruct (search_applies s); [|destruct Hin].
      destruct Hin as [<-|[]]. discriminate.
Qed.

End Meaning.

(** *** Keys of a parsed object are pairwise distinct *)

Lemma define_property_keys (props : list (string * value)) (k : string) (v : value) :
  map fst (define_property props k v)
  = if includes (map fst props) k then map fst props else (map fst props ++ [k])%list.
Proof.
  induction props as [|[k' v'] props IH]; [reflexivity|].
  cbn [define_property map fst]. unfold includes. cbn [existsb].
  fold (includes (map fst props) k).
  rewrite (String.eqb_sym k k').
  destruct (String.eqb k' k); cbn [orb map fst]; [reflexivity|].
  rewrite IH. destruct (includes (map fst props) k); reflexivity.
Qed.

Lemma define_property_NoDup (props : list (string * value)) (k : string) (v : value) :
  NoDup (map fst props) -> NoDup (map fst (define_property props k v)).
Proof.
  intros H. rewrite define_property_keys.
  destruct (includes (map fst props) k) eqn:E; [exact H|].
  apply NoDup_app; [exact H | repeat constructor; intros [] |].
  intros x Hx [<-|[]].
  apply includes_In in Hx. congruence.
Qed.

Lemma defined_NoDup (members acc : list (string * value)) :
  NoDup (map fst acc) ->
  NoDup (map fst (fold_left (fun acc kv => define_property acc (fst kv) (snd kv)) members acc)).
Proof.
  revert acc. induction members as [|kv members IH]; intros acc H; simpl; [exact H|].
  apply IH. apply define_property_NoDup. exact H.
Qed.

Lemma insert_index_perm (n : N) (kv : string * value) (l : list (N * (string * value))) :
  Permutation (insert_index n kv l) ((n, kv) :: l).
Proof.
  induction l as [|[m kv'] l IH]; simpl; [reflexivity|].
  destruct (n <? m)%N; [reflexivity|].
  rewrite IH. apply perm_swap.
Qed.

Lemma indexed_perm (props : list (string * value)) (acc : list (N * (string * value))) :
  Permutation
    (map snd (fold_left (fun acc kv =>
                           match array_index (fst kv) with
                           | Some n => insert_index n kv acc
                           | None => acc
                           end) props acc))
    (map snd acc ++ filter is_index props).
Proof.
  revert acc. induction props as [|kv props IH]; intros acc; simpl.
  - rewrite app_nil_r. reflexivity.
  - rewrite IH. unfold is_index. destruct (array_index (fst kv)) as [n|].
    + rewrite (Permutation_map snd (insert_index_perm n kv acc)). simpl.
      apply Permutation_cons_app. reflexivity.
    + reflexivity.
Qed.

Lemma own_property_order_perm (props : list (string * value)) :
  Permutation (own_property_order props) props.
Proof.
  unfold own_property_order.
  rewrite (indexed_perm props []). simpl.
  rewrite (filter_ext (fun kv : string * value =>
                         match array_index (fst kv) with Some _ => false | None => true end)
                      (fun kv => negb (is_index kv)))
    by (intros kv; unfold is_index; destruct (array_index (fst kv)); reflexivity).
  induction props as [|kv props IH]; simpl; [reflexivity|].
  destruct (is_index kv); simpl.
  - constructor. exact IH.
  - symmetry. apply Permutation_cons_app. symmetry. exact IH.
Qed.

Lemma object_of_members_NoDup (members : list (string * value)) (props : list (string * value)) :
  object_of_members members = JObject props -> NoDup (map fst props).
Proof.
  unfold object_of_members. intros H. inversion H; subst. clear H.
  eapply Permutation_NoDup.
  - apply Permutation_map. symmetry. apply own_property_order_perm.
  - apply defined_NoDup. constructor.
Qed.

Lemma push_value_done (v v' : value) (st st' : list Json.ctx) :
  Json.push_value v st = Some (Json.Done v', st') -> v' = v.
Proof.
  destruct st as [|[items|members [k|]] st0]; simpl; intros H; inversion H; reflexivity.
Qed.

Lemma step_done (e : Json.expect) (st st' : list Json.ctx) (t : Json.token) (v : value) :
  Json.step e st t = Some (Json.Done v, st') -> distinct_keys v.
Proof.
  assert (Hscalar : forall st0, Json.open_or_scalar t st0 = Some (Json.Done v, st') -> distinct_keys v).
  { intros st0 H. destruct t; simpl in H; try discriminate H;
      try (apply push_value_done in H; subst; exact I). }
  assert (Harr : forall st0, Json.close_array st0 = Some (Json.Done v, st') -> distinct_keys v).
  { intros [|[items|members k] st0] H; simpl in H; try discriminate H.
    apply push_value_done in H. subst. exact I. }
  assert (Hobj : forall st0, Json.close_object st0 = Some (Json.Done v, st') -> distinct_keys v).
  { intros [|[items|members [k|]] st0] H; simpl in H; try discriminate H.
    apply push_value_done in H. subst.
    unfold distinct_keys.
    destruct (object_of_members (rev members)) as [| | | | |props] eqn:E; try exact I.
    apply (object_of_members_NoDup _ _ E). }
  assert (Hkey : forall k st0, Json.take_key k st0 = Some (Json.Done v, st') -> distinct_keys v).
  { intros k [|[items|members [k'|]] st0] H; simpl in H; discriminate H. }
  destruct e; simpl; intros H;
    repeat match type of H with
           | match ?x with _ => _ end = _ => destruct x
           end;
    try discriminate H; eauto.
Qed.

Lemma run_distinct (ts : list Json.token) (e : Json.expect) (st : list Json.ctx) (v : value) :
  (forall v', e = Json.Done v' -> distinct_keys v') ->
  Json.run e st ts = Some v -> distinct_keys v.
Proof.
  revert e st. induction ts as [|t ts IH]; intros e st He H; simpl in H.
  - destruct e; try discriminate H. inversion H; subst. apply He. reflexivity.
  - destruct (Json.step e st t) as [[e' st']|] eqn:E; [|discriminate H].
    apply (IH e' st'); [|exact H].
    intros v' ->. apply (step_done _ _ _ _ _ E).
Qed.

(** [Object.keys] of a parsed object lists no key twice. *)
Lemma parse_distinct_keys (text : string) (props : list (string * value)) :
  Json.parse text = Some (JObject props) -> NoDup (map fst props).
Proof.
  unfold Json.parse. destruct (Json.lex _ _ _) as [ts|]; [|discriminate].
  intros H. apply (run_distinct ts Json.ExpValue [] (JObject props)); [|exact H].
  intros v' E. discriminate E.
Qed.

(** *** The earlier revision

    What the second revision of the file changed: the first one took an
    unparsable filters payload for no filters, returned [null] for a
    missing row and deleted without looking at the affected rows. *)

(** X17: the earlier revision answers a request whose filters payload
    does not parse like the same request without filters. *)
Lemma legacy_findAll_ignores_unparsable_filters {policy : ColumnPolicy}
      (p : AbstractPaginationDto) (text : string) (t : table) :
  filters p = Some text -> Json.parse text = None ->
  Legacy.findAll p t = Legacy.findAll (with_filters p None) t.
Proof.
  intros Hf Hparse. unfold Legacy.findAll. cbn [with_filters filters truthy].
  rewrite Hf. unfold applyFilters. rewrite Hparse.
  destruct (truthy (Some text)); reflexivity.
Qed.

Lemma legacy_findOne_missing (z : Z) (t : table) :
  find (has_id z) (rows t) = None -> Legacy.findOne (Num z) t = (Return None, t).
Proof.
  intros H. unfold Legacy.findOne, Orm.findOne. rewrite H. reflexivity.
Qed.

Lemma legacy_delete_returns (id : number) (t : table) :
  fst (Legacy.delete id t) = Return tt.
Proof.
  unfold Legacy.delete, bind, Orm.delete. destruct id; reflexivity.
Qed.

(* ================================================================== *)
(** ** Claims about [findAll]: filters *)
(* ================================================================== *)

(** A filters payload that [JSON.parse] rejects makes [findAll] throw
    [BadRequestException] inside its outer [try], whose [catch] rethrows
    it as [InternalServerErrorException] with the same message. *)
Lemma findAll_unparsable_filters {policy : ColumnPolicy}
      (p : AbstractPaginationDto) (text : string) (t : table) :
  filters p = Some text -> text <> "" -> Json.parse text = None ->
  findAll p t = (Throw (Http (InternalServerErrorException "Invalid filters JSON")), t).
Proof.
  intros Hf Hne Hparse. rewrite findAll_unfold.
  unfold executed_query, filtered_builder. rewrite Hf. cbn [truthy].
  apply String.eqb_neq in Hne. rewrite Hne. cbn [negb].
  unfold applyFilters. rewrite Hparse. reflexivity.
Qed.

(** C1: a filters payload that is supplied but is not JSON.  The request
    [?filters={] fails, but as an internal error (status 500) and not as
    an invalid argument (status 400); and the supplied empty payload
    [?filters=] is answered exactly like a request without filters. *)
Theorem C1_unparsable_filters_surface_as_internal :
  Json.parse "{" = None /\
  fst (@findAll user_policy (with_filters first_page (Some "{")) users)
  = Throw (Http (InternalServerErrorException "Invalid filters JSON")) /\
  kind_of (InternalServerErrorException "Invalid filters JSON") = Internal /\
  getStatus (InternalServerErrorException "Invalid filters JSON") = 500%Z /\
  Json.parse "" = None /\
  @findAll user_policy (with_filters first_page (Some "")) users
  = @findAll user_policy first_page users.
Proof.
  repeat split; vm_compute; reflexivity.
Qed.

Lemma forallb_pointwise {A : Type} (f g : A -> bool) (l : list A) :
  (forall x, f x = g x) -> forallb f l = forallb g l.
Proof.
  intros H. induction l as [|x l IH]; simpl; [reflexivity|]. rewrite H, IH. reflexivity.
Qed.

Lemma filter_keys_ok (keys : list string) :
  forallb (fun k => parameter_key_ok ("filter_" ++ k)) keys
  = forallb (fun k => forallb is_key_char (chars k)) keys.
Proof. apply forallb_pointwise. exact filter_key_ok. Qed.

(** C2, as amended: a filters payload that parses to an object has
    distinct keys.  When every name [filter_<key>] is one the builder
    accepts (the key is made of letters, digits, underscores and
    periods), [findAll] executes the query of the request without
    filters with one more predicate [e.<key> = :filter_<key>] per key, in
    the order of [Object.keys], each joined by AND and bound to the value
    of that key: a row matches when the engine finds every equality true
    of it and it matches the request without filters.  The keys are used
    as they come, whatever the searchable and sortable columns are.  When
    a name is not accepted, no query is executed and [findAll] fails.
    Without filters the conditions are those of the search block
    alone. *)
Theorem C2_one_equality_predicate_per_filter_key {policy : ColumnPolicy}
        (p : AbstractPaginationDto) (text : string) (props : list (string * value)) :
  filters p = Some text -> text <> "" -> Json.parse text = Some (JObject props) ->
  NoDup (map fst props) /\
  exists q0,
    executed_query (with_filters p None) = Some q0 /\
    (forall t, findAll (with_filters p None) t = paginated (with_filters p None) q0 t) /\
    wheres q0 = search_clauses (search p) /\
    (forallb (fun k => parameter_key_ok ("filter_" ++ k)) (map fst props) = true ->
     exists q,
       executed_query p = Some q /\
       (forall t, findAll p t = paginated p q t) /\
       wheres q = (map (fun k => (And, Pred (Eq k ("filter_" ++ k)))) (map fst props)
                   ++ wheres q0)%list /\
       (forall k, In k (map fst props) ->
                  bound (parameters q) ("filter_" ++ k) = Some (assoc props k)) /\
       (forall t r, matches t q r
                    = andb (forallb (fun k => holds t k (assoc props k) r) (map fst props))
                           (matches t q0 r))) /\
    (forallb (fun k => parameter_key_ok ("filter_" ++ k)) (map fst props) = false ->
     executed_query p = None /\
     forall t, findAll p t
               = (Throw (Http (InternalServerErrorException "Invalid filters JSON")), t)).
Proof.
  intros Hf Hne Hparse.
  split; [apply (parse_distinct_keys text props Hparse)|].
  destruct (finishQuery_shape (createQueryBuilder "e") (with_filters p None))
    as (H0w & H0p & _).
  cbn [createQueryBuilder wheres parameters app with_filters search] in H0w, H0p.
  exists (finishQuery (createQueryBuilder "e") (with_filters p None)).
  split; [reflexivity|].
  split; [intros t; rewrite findAll_unfold; reflexivity|].
  split; [exact H0w|].
  apply String.eqb_neq in Hne.
  split.
  - rewrite filter_keys_ok. intros Hkeys.
    destruct (applyFilters_object (createQueryBuilder "e") text props Hparse Hkeys)
      as (qb & Hqb & Hw & Hp).
    cbn [createQueryBuilder wheres parameters app] in Hw, Hp.
    assert (Hq : executed_query p = Some (finishQuery qb p)).
    { unfold executed_query, filtered_builder. rewrite Hf. cbn [truthy].
      rewrite Hne. cbn [negb]. rewrite Hqb. reflexivity. }
    destruct (finishQuery_shape qb p) as (Hfw & Hfp & _).
    exists (finishQuery qb p).
    split; [exact Hq|].
    split; [intros t; rewrite findAll_unfold, Hq; reflexivity|].
    split; [rewrite Hfw, Hw, H0w; reflexivity|].
    split.
    + intros k Hk. rewrite Hfp, Hp, bound_app.
      assert (Hs : bound (search_params (search p)) ("filter_" ++ k) = None).
      { unfold search_params. destruct (search p) as [s|]; [|reflexivity].
        destruct (search_applies (Some s)); [|reflexivity].
        apply bound_like_params_filter. }
      rewrite Hs, bound_filter_params.
      apply includes_In in Hk. rewrite Hk. reflexivity.
    + intros t r.
      rewrite (matches_meaning t (finishQuery qb p) (JObject props) (map fst props) (search p) r).
      * rewrite (matches_meaning t (finishQuery (createQueryBuilder "e") (with_filters p None))
                                 JNull [] (search p) r).
        -- reflexivity.
        -- exact H0w.
        -- exact H0p.
      * rewrite Hfw, Hw. reflexivity.
      * rewrite Hfp, Hp. reflexivity.
  - rewrite filter_keys_ok. intros Hkeys.
    pose proof (applyFilters_refused (createQueryBuilder "e") text props Hparse Hkeys) as Hr.
    assert (Hq : executed_query p = None).
    { unfold executed_query, filtered_builder. rewrite Hf. cbn [truthy].
      rewrite Hne. cbn [negb].
      destruct (applyFilters (createQueryBuilder "e") text) as [qb threw].
      cbn [snd] in Hr. subst threw. reflexivity. }
    split; [exact Hq|].
    intros t. rewrite findAll_unfold, Hq. reflexivity.
Qed.

(** C2 at a filters payload with the keys [role] and [isActive]: two
    predicates, although [role] is no column that may be sorted or
    searched. *)
Lemma C2_witness :
  exists q q0,
    @executed_query user_policy
      (with_filters first_page (Some (with_dquotes "{'role':'admin','isActive':true}")))
    = Some q /\
    (forall t, @findAll user_policy
                 (with_filters first_page (Some (with_dquotes "{'role':'admin','isActive':true}"))) t
               = @paginated
                   (with_filters first_page (Some (with_dquotes "{'role':'admin','isActive':true}")))
                   q t) /\
    wheres q0 = @search_clauses user_policy None /\
    wheres q = ([(And, Pred (Eq "role" "filter_role"));
                 (And, Pred (Eq "isActive" "filter_isActive"))] ++ wheres q0)%list /\
    (forall t r, matches t q r
                 = andb (forallb (fun k => holds t k (assoc [("role", JString "admin");
                                                             ("isActive", JBool true)] k) r)
                                 ["role"; "isActive"])
                        (matches t q0 r)).
Proof.
  destruct (@C2_one_equality_predicate_per_filter_key user_policy
              (with_filters first_page (Some (with_dquotes "{'role':'admin','isActive':true}")))
              (with_dquotes "{'role':'admin','isActive':true}")
              [("role", JString "admin"); ("isActive", JBool true)])
    as (_ & q0 & _ & _ & Hw0 & Hvalid & _).
  - reflexivity.
  - vm_compute. discriminate.
  - vm_compute. reflexivity.
  - destruct Hvalid as (q & Hq & Hfind & Hw & _ & Hm); [vm_compute; reflexivity|].
    exists q, q0. repeat split; assumption.
Defined.

(** C2 as stated fails: the payload [{"first name":"Ann"}] parses to a
    mapping with one key, and [findAll] adds no predicate for it to any
    query; it executes none and fails. *)
Lemma C2_counterexample :
  Json.parse (with_dquotes "{'first name':'Ann'}")
  = Some (JObject [("first name", JString "Ann")]) /\
  @executed_query user_policy
    (with_filters first_page (Some (with_dquotes "{'first name':'Ann'}"))) = None /\
  fst (@findAll user_policy
         (with_filters first_page (Some (with_dquotes "{'first name':'Ann'}"))) users)
  = Throw (Http (InternalServerErrorException "Invalid filters JSON")).
Proof. repeat split; vm_compute; reflexivity. Qed.

(* ================================================================== *)
(** ** Claims about [findAll]: sorting *)
(* ================================================================== *)

Lemma unknown_column_none (t : table) (cols : list string) :
  (forall c, In c cols -> In c (columns t)) -> unknown_column t cols = None.
Proof.
  intros H. unfold unknown_column.
  destruct (find _ cols) as [c|] eqn:E; [|reflexivity].
  apply find_some in E. destruct E as [Hin Hneg].
  apply H, includes_In in Hin. rewrite Hin in Hneg. discriminate Hneg.
Qed.

Lemma text_eqb_refl (a : string) : text_eqb a a = true.
Proof.
  unfold text_eqb. induction (chars a) as [|x l IH]; [reflexivity|].
  cbn [ci_list_eqb]. rewrite IH. unfold ci_eqb. rewrite Ascii.eqb_refl. reflexivity.
Qed.

Lemma resolve_in_column (cols : list string) (c : string) :
  In c cols -> exists c', resolve_in cols c = Some c'.
Proof.
  intros Hin. unfold resolve_in.
  destruct (find (fun c' => text_eqb c' c) cols) as [c'|] eqn:E; [eauto|].
  pose proof (find_none _ _ E c Hin) as H. cbn beta in H.
  rewrite text_eqb_refl in H. discriminate H.
Qed.

Lemma unresolved_none (t : table) (cols : list string) :
  (forall c, In c cols -> In c (columns t)) -> unresolved t cols = None.
Proof.
  intros H. unfold unresolved.
  destruct (find _ cols) as [c|] eqn:E; [|reflexivity].
  apply find_some in E. destruct E as [Hin Hneg].
  destruct (resolve_in_column (columns t) c (H c Hin)) as [c' Hc].
  rewrite Hc in Hneg. discriminate Hneg.
Qed.

(** Two statements that differ in their sort only fail alike, when
    both sort by columns of the table. *)
Lemma statement_error_sort (t : table) (q1 q2 : query) :
  wheres q1 = wheres q2 -> parameters q1 = parameters q2 ->
  skip_rows q1 = skip_rows q2 -> take_rows q1 = take_rows q2 -> alias q1 = alias q2 ->
  unresolved t (map fst (orderBys q1)) = None ->
  unresolved t (map fst (orderBys q2)) = None ->
  statement_error t q1 = statement_error t q2.
Proof.
  intros Hw Hp Hs Ht Ha H1 H2.
  unfold statement_error, createLimitOffsetExpression, predicates.
  rewrite Hw, Hp, Hs, Ht, Ha, H1, H2. reflexivity.
Qed.

Section Sorting.
Context {policy : ColumnPolicy}.

Lemma safeSort_cases (s : option string) :
  safeSort s = "id" \/
  (exists c, s = Some c /\ c <> "" /\ In c getSortableColumns /\ safeSort s = c).
Proof.
  unfold safeSort. destruct s as [c|]; [|left; reflexivity].
  cbn [truthy]. destruct (String.eqb c "") eqn:Ec; cbn [negb andb]; [left; reflexivity|].
  destruct (includes getSortableColumns c) eqn:Ei; [|left; reflexivity].
  right. exists c. apply String.eqb_neq in Ec. apply includes_In in Ei. auto.
Qed.

Lemma sortDirection_desc (o : option string) :
  sortDirection o = DESC <-> exists x, o = Some x /\ toUpperCase x = "DESC".
Proof.
  unfold sortDirection. destruct o as [x|].
  - cbn [truthy]. destruct (String.eqb x "") eqn:Ex; cbn [negb andb].
    + apply String.eqb_eq in Ex. subst. split; [discriminate|].
      intros (y & Hy & Hu). inversion Hy; subst. vm_compute in Hu. discriminate Hu.
    + destruct (String.eqb (toUpperCase x) "DESC") eqn:Eu.
      * apply String.eqb_eq in Eu. split; [eauto | reflexivity].
      * apply String.eqb_neq in Eu. split; [discriminate|].
        intros (y & Hy & Hu). inversion Hy; subst. contradiction.
  - split; [discriminate|]. intros (y & Hy & _). discriminate Hy.
Qed.

(** The failure of the query does not depend on the requested sort,
    when the sortable columns and the key are columns of the table. *)
Lemma sort_never_fails (p : AbstractPaginationDto) (t : table) (s o : option string) :
  (forall c, In c getSortableColumns -> In c (columns t)) ->
  In "id" (columns t) ->
  is_throw (fst (findAll (with_sort p s o) t)) = is_throw (fst (findAll p t)).
Proof.
  intros Hcols Hid. rewrite !findAll_unfold.
  unfold executed_query. change (filtered_builder (with_sort p s o)) with (filtered_builder p).
  destruct (filtered_builder p) as [qb|]; cbn [option_map]; [|reflexivity].
  rewrite !paginated_throw. unfold query_fails.
  destruct (finishQuery_shape qb (with_sort p s o)) as (Hw1 & Hp1 & Ho1 & Hs1 & Ht1 & Ha1).
  destruct (finishQuery_shape qb p) as (Hw2 & Hp2 & Ho2 & Hs2 & Ht2 & Ha2).
  cbn [with_sort search sortBy order page limit] in Hw1, Hp1, Ho1, Hs1, Ht1.
  assert (E : statement_error t (finishQuery qb (with_sort p s o))
              = statement_error t (finishQuery qb p)).
  { apply statement_error_sort; try congruence.
    - rewrite Ho1. apply unresolved_none. intros c [<-|[]].
      destruct (safeSort_cases s) as [->|(c & _ & _ & Hin & ->)]; auto.
    - rewrite Ho2. apply unresolved_none. intros c [<-|[]].
      destruct (safeSort_cases (sortBy p)) as [->|(c & _ & _ & Hin & ->)]; auto. }
  rewrite E. reflexivity.
Qed.

End Sorting.

(** C3: [findAll] executes a query with exactly one sort key, and the
    rows it returns are the window of the matching rows sorted by that
    key.  Its column is [sortBy] when that is a non-empty member of the
    sortable columns and is the key [id] in every other case (absent,
    empty, or not sortable); with the key among the sortable columns and
    no empty column name, the column is [sortBy] exactly when [sortBy]
    is sortable.  The direction is DESC exactly when [order] is present
    and its upper-case form is DESC.  No value of [sortBy] or [order]
    makes the request fail. *)
Theorem C3_sort_column_and_direction {policy : ColumnPolicy}
        (p : AbstractPaginationDto) (q : query) :
  executed_query p = Some q ->
  exists col dir,
    orderBys q = [(col, dir)] /\
    (forall t, findAll p t = paginated p q t) /\
    (forall t res,
        fst (findAll p t) = Return res ->
        data res = page_of q (sort_rows (row_leb t col dir) (filter (matches t q) (rows t)))) /\
    (forall s, sortBy p = Some s -> s <> "" -> In s getSortableColumns -> col = s) /\
    (forall s, sortBy p = Some s -> ~ In s getSortableColumns -> col = "id") /\
    (sortBy p = Some "" -> col = "id") /\
    (sortBy p = None -> col = "id") /\
    (In "id" getSortableColumns -> ~ In "" getSortableColumns ->
     forall s, sortBy p = Some s -> (col = s <-> In s getSortableColumns)) /\
    (dir = DESC <-> exists o, order p = Some o /\ toUpperCase o = "DESC") /\
    (dir = ASC <-> ~ exists o, order p = Some o /\ toUpperCase o = "DESC") /\
    (forall t s o,
        (forall c, In c getSortableColumns -> In c (columns t)) ->
        In "id" (columns t) ->
        is_throw (fst (findAll (with_sort p s o) t)) = is_throw (fst (findAll p t))).
Proof.
  intros Hq.
  assert (Hfind : forall t, findAll p t = paginated p q t).
  { intros t. rewrite findAll_unfold, Hq. reflexivity. }
  pose proof Hq as Hq'. unfold executed_query in Hq.
  destruct (filtered_builder p) as [qb|]; [|discriminate Hq].
  cbn [option_map] in Hq. inversion Hq; subst q. clear Hq.
  destruct (finishQuery_shape qb p) as (_ & _ & Ho & _).
  exists (safeSort (sortBy p)), (sortDirection (order p)).
  split; [exact Ho|].
  split; [exact Hfind|].
  split.
  { intros t res Hres.
    destruct (findAll_returns p t res Hres) as (q1 & Hq1 & _ & ->).
    rewrite Hq' in Hq1. inversion Hq1; subst q1. cbn [data].
    unfold ordered. rewrite Ho. reflexivity. }
  assert (Hmember : forall s, sortBy p = Some s -> s <> "" -> In s getSortableColumns ->
                              safeSort (sortBy p) = s).
  { intros s Hs Hne Hin. rewrite Hs. unfold safeSort. cbn [truthy].
    apply String.eqb_neq in Hne. rewrite Hne.
    apply includes_In in Hin. rewrite Hin. reflexivity. }
  assert (Hother : forall s, sortBy p = Some s -> ~ In s getSortableColumns ->
                             safeSort (sortBy p) = "id").
  { intros s Hs Hnin. rewrite Hs. unfold safeSort.
    destruct (includes getSortableColumns s) eqn:Ei.
    - apply includes_In in Ei. contradiction.
    - rewrite andb_false_r. reflexivity. }
  split; [exact Hmember|].
  split; [exact Hother|].
  split; [intros Hs; rewrite Hs; reflexivity|].
  split; [intros Hs; rewrite Hs; reflexivity|].
  split.
  { intros Hid Hempty s Hs. split.
    - intros Hcol.
      destruct (safeSort_cases (sortBy p)) as [E|(c & Hc & _ & Hin & E)].
      + rewrite E in Hcol. subst s. exact Hid.
      + rewrite Hs in Hc. inversion Hc; subst. exact Hin.
    - intros Hin. apply Hmember; [exact Hs| |exact Hin].
      intros ->. contradiction. }
  split; [apply sortDirection_desc|].
  split.
  { rewrite <- sortDirection_desc. destruct (sortDirection (order p)); split; congruence. }
  intros t s o. apply sort_never_fails.
Qed.

(** C3 at [?sortBy=name&order=desc] on the users: Bob comes before
    Alice. *)
Lemma C3_witness :
  exists q,
    orderBys q = [("name", DESC)] /\
    (forall t, @findAll user_policy (with_sort first_page (Some "name") (Some "desc")) t
               = paginated (with_sort first_page (Some "name") (Some "desc")) q t) /\
    (forall res,
        fst (@findAll user_policy (with_sort first_page (Some "name") (Some "desc")) users)
        = Return res ->
        map (fun r => field r "name") (data res) = [SText "Bob"; SText "Alice"]).
Proof.
  destruct (@C3_sort_column_and_direction user_policy
              (with_sort first_page (Some "name") (Some "desc"))
              (@finishQuery user_policy (createQueryBuilder "e")
                 (with_sort first_page (Some "name") (Some "desc")))
              eq_refl)
    as (col & dir & Ho & Hfind & Hdata & _).
  exists (@finishQuery user_policy (createQueryBuilder "e")
            (with_sort first_page (Some "name") (Some "desc"))).
  split; [reflexivity|]. split; [exact Hfind|].
  intros res Hres. rewrite (Hdata users res Hres).
  inversion Ho; subst col dir. vm_compute. reflexivity.
Defined.

(* ================================================================== *)
(** ** Claims about [create] *)
(* ================================================================== *)

Lemma translate_cases {A : Type} (e : thrown) (t : table) :
  @translate A e t =
  (Throw (Http (if is_dup e
                then ConflictException ("Duplicate value for unique field(s): "
                                        ++ extractDuplicateField (message_of e))
                else InternalServerErrorException (message_of e))), t).
Proof.
  unfold translate, is_dup. destruct (code_of e) as [c|]; [|reflexivity].
  destruct (String.eqb c "ER_DUP_ENTRY"); reflexivity.
Qed.

Lemma create_unfold (entity : row) (t : table) :
  Repo.create entity t =
  match stores entity t with
  | (Return r, t') => (Return r, t')
  | (Throw e, t') => translate e t'
  end.
Proof. reflexivity. Qed.

(** An insert that collides on a unique index fails with the driver's
    duplicate-entry error. *)
Lemma save_duplicate (instance : row) (t : table) (v : sql_value) (index : string) :
  id_of instance = SNull ->
  missing_required t (stored t (("id", SInt (next_id t)) :: instance)) = None ->
  violated_index t (rows t) (stored t (("id", SInt (next_id t)) :: instance)) = Some (v, index) ->
  Orm.save instance t = (Throw (QueryFailedError (dup_entry t v index)), t).
Proof.
  intros Hid Hreq Hviol. unfold Orm.save. rewrite Hid, Hreq, Hviol. reflexivity.
Qed.

(** C4, as amended: [create] returns what the storage returns.  When the
    storage fails with the driver code [ER_DUP_ENTRY], which an insert
    that collides on a unique index raises, [create] fails with a
    conflict whose message names what the pattern [for key '(.+)'] finds
    in the text of the driver's message, or [unknown]; when the storage
    fails in any other way, [create] fails with an internal error that
    carries the text of the storage error. *)
Theorem C4_create_translates_storage_errors (entity : row) (t : table) :
  (forall r t', stores entity t = (Return r, t') -> Repo.create entity t = (Return r, t')) /\
  (forall e t', stores entity t = (Throw e, t') -> code_of e = Some "ER_DUP_ENTRY" ->
                Repo.create entity t
                = (Throw (Http (ConflictException
                                  ("Duplicate value for unique field(s): "
                                   ++ extractDuplicateField (message_of e)))), t') /\
                kind_of (ConflictException
                           ("Duplicate value for unique field(s): "
                            ++ extractDuplicateField (message_of e))) = Conflict) /\
  (forall e t', stores entity t = (Throw e, t') -> code_of e <> Some "ER_DUP_ENTRY" ->
                Repo.create entity t
                = (Throw (Http (InternalServerErrorException (message_of e))), t')) /\
  (forall instance v index,
      Orm.create entity t = (Return instance, t) ->
      id_of instance = SNull ->
      missing_required t (stored t (("id", SInt (next_id t)) :: instance)) = None ->
      violated_index t (rows t) (stored t (("id", SInt (next_id t)) :: instance))
      = Some (v, index) ->
      stores entity t = (Throw (QueryFailedError (dup_entry t v index)), t) /\
      code_of (QueryFailedError (dup_entry t v index)) = Some "ER_DUP_ENTRY").
Proof.
  split; [|split; [|split]].
  - intros r t' H. rewrite create_unfold, H. reflexivity.
  - intros e t' H Hc. split; [|reflexivity].
    rewrite create_unfold, H, translate_cases. unfold is_dup. rewrite Hc. reflexivity.
  - intros e t' H Hc. rewrite create_unfold, H, translate_cases. unfold is_dup.
    destruct (code_of e) as [c|]; [|reflexivity].
    destruct (String.eqb c "ER_DUP_ENTRY") eqn:E; [|reflexivity].
    apply String.eqb_eq in E. subst. contradiction.
  - intros instance v index Hc Hid Hreq Hviol. split; [|reflexivity].
    unfold stores, bind. rewrite Hc. apply save_duplicate; assumption.
Qed.

(** C4 on the users: a second user with Alice's address is a conflict, a
    user without an address is an internal error. *)
Lemma C4_witness :
  fst (Repo.create [("name", SText "Carol"); ("email", SText "bob@x.com")] users)
  = Throw (Http (ConflictException "Duplicate value for unique field(s): users.IDX_email")) /\
  fst (Repo.create [("name", SText "Carol")] users)
  = Throw (Http (InternalServerErrorException "Field 'email' doesn't have a default value")).
Proof.
  pose proof (C4_create_translates_storage_errors
                [("name", SText "Carol"); ("email", SText "bob@x.com")] users) as (_ & Hdup & _).
  pose proof (C4_create_translates_storage_errors
                [("name", SText "Carol")] users) as (_ & _ & Hother & _).
  split.
  - rewrite (proj1 (Hdup (QueryFailedError (dup_entry users (SText "bob@x.com") "IDX_email"))
                         users eq_refl eq_refl)).
    reflexivity.
  - rewrite (Hother (QueryFailedError (no_default "email")) users eq_refl).
    + reflexivity.
    + discriminate.
Defined.

(** C4 as stated fails.  Two driver errors with the same code, number
    and SQL state are translated differently, because the conflict is
    read off the message text; a duplicate of an address that contains
    the words of the pattern is reported under a name that is no index
    of the table; and the internal error of a failed insert is the
    driver's message, word for word. *)
Lemma C4_counterexample :
  (exists d1 d2,
      code d1 = code d2 /\ errno d1 = errno d2 /\ sqlState d1 = sqlState d2 /\
      fst (@translate row (QueryFailedError d1) users)
      <> fst (@translate row (QueryFailedError d2) users)) /\
  (fst (stores [("name", SText "Zoe"); ("email", SText "x for key 'y")] users_quoted)
   = Throw (QueryFailedError (dup_entry users_quoted (SText "x for key 'y") "IDX_email")) /\
   fst (Repo.create [("name", SText "Zoe"); ("email", SText "x for key 'y")] users_quoted)
   = Throw (Http (ConflictException
                    "Duplicate value for unique field(s): y' for key 'users.IDX_email"))) /\
  (fst (stores [("name", SText "Carol")] users)
   = Throw (QueryFailedError (no_default "email")) /\
   sqlMessage (no_default "email") = "Field 'email' doesn't have a default value" /\
   fst (Repo.create [("name", SText "Carol")] users)
   = Throw (Http (InternalServerErrorException "Field 'email' doesn't have a default value"))).
Proof.
  split; [|split].
  - exists (dup_entry users (SText "a") "IDX_email"),
           (dup_entry users (SText "a") "IDX_name").
    repeat split. vm_compute. discriminate.
  - split; vm_compute; reflexivity.
  - repeat split; vm_compute; reflexivity.
Qed.

(* ================================================================== *)
(** ** Claims about the point operations *)
(* ================================================================== *)

Lemma find_none_filter {A : Type} (f : A -> bool) (l : list A) :
  find f l = None <-> filter f l = [].
Proof.
  induction l as [|x l IH]; simpl; [tauto|].
  destruct (f x); [split; discriminate | exact IH].
Qed.

Lemma has_id_key (z : Z) (r : row) : has_id z r = true -> id_of r = SInt z.
Proof.
  unfold has_id. destruct (id_of r) as [|z'|s]; try discriminate.
  intros H. apply Z.eqb_eq in H. subst. reflexivity.
Qed.

Lemma findOne_found (z : Z) (t : table) (r : row) :
  find (has_id z) (rows t) = Some r -> Repo.findOne (Num z) t = (Return r, t).
Proof.
  intros H. unfold Repo.findOne, bind, Orm.findOne. cbn [isNaN]. rewrite H. reflexivity.
Qed.

Lemma findOne_missing (z : Z) (t : table) :
  find (has_id z) (rows t) = None ->
  Repo.findOne (Num z) t = (Throw (Http (NotFoundException (not_found_message (Num z)))), t).
Proof.
  intros H. unfold Repo.findOne, bind, Orm.findOne. cbn [isNaN]. rewrite H. reflexivity.
Qed.

(** C6, as amended: [findOne] fails with an invalid argument exactly
    when the id is [NaN]; for every other id, zero and the negative
    integers among them, it fails with not found when no row has the
    key, and otherwise returns the row with that key; it has no empty
    success value, and it leaves the table as it is. *)
Theorem C6_findOne_outcomes (id : number) (t : table) :
  (id = NaN ->
   Repo.findOne id t = (Throw (Http (BadRequestException "Invalid id format")), t) /\
   kind_of (BadRequestException "Invalid id format") = InvalidArgument) /\
  (forall m, fst (Repo.findOne id t) = Throw (Http (BadRequestException m)) -> id = NaN) /\
  (forall z, id = Num z ->
             (forall r, In r (rows t) -> has_id z r = false) ->
             Repo.findOne id t
             = (Throw (Http (NotFoundException
                               ("Entity with id " ++ string_of_number (Num z) ++ " not found"))),
                t) /\
             kind_of (NotFoundException
                        ("Entity with id " ++ string_of_number (Num z) ++ " not found"))
             = NotFound) /\
  (forall z r0, id = Num z -> In r0 (rows t) -> has_id z r0 = true ->
                exists r, Repo.findOne id t = (Return r, t) /\
                          In r (rows t) /\ id_of r = SInt z).
Proof.
  split; [|split; [|split]].
  - intros ->. split; reflexivity.
  - intros m. destruct id as [|z]; [reflexivity|].
    unfold Repo.findOne, bind, Orm.findOne. cbn [isNaN].
    destruct (find (has_id z) (rows t)); intros H; discriminate H.
  - intros z -> Hnone. split; [|reflexivity].
    apply findOne_missing.
    destruct (find (has_id z) (rows t)) as [r|] eqn:E; [|reflexivity].
    apply find_some in E. destruct E as [Hin Hid].
    rewrite (Hnone r Hin) in Hid. discriminate Hid.
  - intros z r0 -> Hin Hid.
    destruct (find (has_id z) (rows t)) as [r|] eqn:E.
    + exists r. split; [apply findOne_found; exact E|].
      apply find_some in E. destruct E as [Hr Hk].
      split; [exact Hr | apply has_id_key; exact Hk].
    + apply (find_none _ _ E) in Hin. rewrite Hin in Hid. discriminate Hid.
Qed.

(** C6 on the users: [NaN], the absent key 5 and the key 2 of Bob. *)
Lemma C6_witness :
  Repo.findOne NaN users = (Throw (Http (BadRequestException "Invalid id format")), users) /\
  Repo.findOne (Num 5) users
  = (Throw (Http (NotFoundException "Entity with id 5 not found")), users) /\
  exists r, Repo.findOne (Num 2) users = (Return r, users) /\
            In r (rows users) /\ id_of r = SInt 2.
Proof.
  split; [|split].
  - apply (proj1 (C6_findOne_outcomes NaN users)). reflexivity.
  - apply (proj1 (proj2 (proj2 (C6_findOne_outcomes (Num 5) users))) 5%Z eq_refl).
    intros r [<-|[<-|[]]]; reflexivity.
  - apply (proj2 (proj2 (proj2 (C6_findOne_outcomes (Num 2) users))) 2%Z
             [("id", SInt 2); ("name", SText "Bob"); ("email", SText "alice@y.com");
              ("isActive", SInt 1); ("createdAt", SText "2024-01-02")] eq_refl).
    + right. left. reflexivity.
    + reflexivity.
Defined.

(** C6 as stated fails: the ids 0 and -1 are no positive integers, and
    [findOne] answers them with not found, not with an invalid
    argument. *)
Lemma C6_counterexample :
  fst (Repo.findOne (Num 0) users)
  = Throw (Http (NotFoundException "Entity with id 0 not found")) /\
  fst (Repo.findOne (Num (-1)) users)
  = Throw (Http (NotFoundException "Entity with id -1 not found")) /\
  kind_of (NotFoundException "Entity with id 0 not found") <> InvalidArgument /\
  kind_of (NotFoundException "Entity with id -1 not found") <> InvalidArgument.
Proof. repeat split; try (vm_compute; reflexivity); discriminate. Qed.

(** An update of a key that no row has: the statement affects no row,
    the read-back throws not found, and the [catch] of [update] turns
    that into an internal error. *)
Lemma update_missing_row (z : Z) (entity : row) (t : table) :
  entity <> [] ->
  unknown_column t (map fst entity) = None ->
  find (has_id z) (rows t) = None ->
  fst (Repo.update (Num z) entity t)
  = Throw (Http (InternalServerErrorException (not_found_message (Num z)))).
Proof.
  intros Hne Hcols Hfind.
  assert (Hfilter : filter (has_id z) (rows t) = []) by (apply find_none_filter; exact Hfind).
  assert (Hmap : map (fun x => if has_id z x then merge x entity else x) (rows t) = rows t).
  { clear Hfilter. induction (rows t) as [|x l IH]; [reflexivity|].
    simpl in Hfind. destruct (has_id z x) eqn:E; [discriminate Hfind|].
    simpl. rewrite E, IH by exact Hfind. reflexivity. }
  unfold Repo.update, try_catch, bind, Orm.update. cbn [isNaN].
  destruct entity as [|cv entity]; [congruence|].
  rewrite Hcols, Hfilter. cbn [map first_violation List.length]. rewrite Hmap.
  unfold Repo.findOne, bind, Orm.findOne. cbn [isNaN rows with_rows]. rewrite Hfind.
  reflexivity.
Qed.

(** C5: the update of a well-formed key that no row has.  On the users,
    [update(7, {name})] fails with an internal error, where [findOne(7)]
    fails with not found. *)
Theorem C5_update_of_missing_row_is_internal :
  fst (Orm.findOne (Num 7) users) = Return None /\
  fst (Repo.findOne (Num 7) users)
  = Throw (Http (NotFoundException "Entity with id 7 not found")) /\
  fst (Repo.update (Num 7) [("name", SText "Carol")] users)
  = Throw (Http (InternalServerErrorException "Entity with id 7 not found")) /\
  kind_of (InternalServerErrorException "Entity with id 7 not found") = Internal.
Proof.
  split; [reflexivity|]. split; [reflexivity|]. split; [|reflexivity].
  apply (update_missing_row 7 [("name", SText "Carol")] users); [discriminate | reflexivity..].
Qed.

(** The other outcomes of [update]. *)
Lemma update_NaN (entity : row) (t : table) :
  Repo.update NaN entity t = (Throw (Http (BadRequestException "Invalid id format")), t).
Proof. reflexivity. Qed.

Lemma update_conflict (z : Z) (entity : row) (t t' : table) (d : driver_error) :
  Orm.update (Num z) entity t = (Throw (QueryFailedError d), t') ->
  code d = "ER_DUP_ENTRY" ->
  Repo.update (Num z) entity t
  = (Throw (Http (ConflictException ("Duplicate value for unique field(s): "
                                     ++ extractDuplicateField (sqlMessage d)))), t').
Proof.
  intros H Hc. unfold Repo.update, try_catch, bind. cbn [isNaN]. rewrite H.
  rewrite translate_cases. unfold is_dup. cbn [code_of message_of]. rewrite Hc. reflexivity.
Qed.

(** On success [update] returns the row that [findOne] reads in the
    table the write left. *)
Lemma update_returns_read_back (z : Z) (entity : row) (t t' : table) (r : row) :
  Repo.update (Num z) entity t = (Return r, t') ->
  exists n, Orm.update (Num z) entity t = (Return n, t') /\
            Repo.findOne (Num z) t' = (Return r, t').
Proof.
  unfold Repo.update, try_catch, bind. cbn [isNaN].
  destruct (Orm.update (Num z) entity t) as [[n|e] t1] eqn:Eu.
  - destruct (Repo.findOne (Num z) t1) as [[r1|e1] t2] eqn:Ef.
    + unfold ret. intros H. inversion H; subst.
      assert (Hst : t1 = t').
      { unfold Repo.findOne, bind, Orm.findOne in Ef. cbn [isNaN] in Ef.
        destruct (find (has_id z) (rows t1)); inversion Ef; reflexivity. }
      subst. exists n. split; [reflexivity | exact Ef].
    + rewrite translate_cases. intros H. discriminate H.
  - rewrite translate_cases. intros H. discriminate H.
Qed.

(* ------------------------------------------------------------------ *)

Lemma delete_unfold (z : Z) (t : table) :
  Repo.delete (Num z) t =
  if Nat.eqb (List.length (filter (has_id z) (rows t))) 0
  then (Throw (Http (NotFoundException (not_found_message (Num z)))),
        with_rows t (filter (fun x => negb (has_id z x)) (rows t)) (next_id t))
  else (Return tt, with_rows t (filter (fun x => negb (has_id z x)) (rows t)) (next_id t)).
Proof.
  unfold Repo.delete, bind, Orm.delete. cbn [isNaN].
  destruct (Nat.eqb _ 0); reflexivity.
Qed.

(** C7, as amended: [delete] fails with an invalid argument exactly
    when the id is [NaN]; for every other id, zero and the negative
    integers among them, it fails with not found exactly when the
    statement affected no row, and succeeds otherwise; so that deleting
    the key of a stored row succeeds and leaves a table in which
    deleting it again fails with not found. *)
Theorem C7_delete_outcomes (t : table) :
  (Repo.delete NaN t = (Throw (Http (BadRequestException "Invalid id format")), t) /\
   kind_of (BadRequestException "Invalid id format") = InvalidArgument) /\
  (forall id m, fst (Repo.delete id t) = Throw (Http (BadRequestException m)) -> id = NaN) /\
  (forall z affected t',
      Orm.delete (Num z) t = (Return affected, t') ->
      (fst (Repo.delete (Num z) t)
       = Throw (Http (NotFoundException
                        ("Entity with id " ++ string_of_number (Num z) ++ " not found")))
       <-> affected = 0%nat) /\
      ((exists e, fst (Repo.delete (Num z) t) = Throw (Http e) /\ kind_of e = NotFound)
       <-> affected = 0%nat) /\
      (affected <> 0%nat -> Repo.delete (Num z) t = (Return tt, t'))) /\
  (forall z r, In r (rows t) -> has_id z r = true ->
               exists t', Repo.delete (Num z) t = (Return tt, t') /\
                          (forall r', In r' (rows t') -> has_id z r' = false) /\
                          fst (Repo.delete (Num z) t')
                          = Throw (Http (NotFoundException
                                           ("Entity with id " ++ string_of_number (Num z)
                                            ++ " not found")))).
Proof.
  split; [split; reflexivity|]. split; [|split].
  - intros id m. destruct id as [|z]; [reflexivity|].
    rewrite delete_unfold. destruct (Nat.eqb _ 0); intros H; discriminate H.
  - intros z affected t' H. unfold Orm.delete in H. inversion H; subst. clear H.
    rewrite delete_unfold.
    destruct (Nat.eqb (List.length (filter (has_id z) (rows t))) 0) eqn:E.
    + apply Nat.eqb_eq in E.
      split; [split; [intros _; exact E | intros _; reflexivity]|].
      split; [|intros Hne; contradiction].
      split; [intros _; exact E|].
      intros _. eexists. split; reflexivity.
    + apply Nat.eqb_neq in E.
      split; [split; [intros H; discriminate H | intros H; contradiction]|].
      split; [|intros _; reflexivity].
      split; [|intros H; contradiction].
      intros (e & He & _). discriminate He.
  - intros z r Hin Hid.
    exists (with_rows t (filter (fun x => negb (has_id z x)) (rows t)) (next_id t)).
    assert (Hgone : forall r', In r' (filter (fun x => negb (has_id z x)) (rows t)) ->
                               has_id z r' = false).
    { intros r' Hr'. apply filter_In in Hr'. destruct Hr' as [_ Hn].
      destruct (has_id z r'); [discriminate Hn | reflexivity]. }
    split; [|split].
    + rewrite delete_unfold.
      assert (Hne : filter (has_id z) (rows t) <> []).
      { intros Hnil. assert (Hr : In r (filter (has_id z) (rows t)))
          by (apply filter_In; split; assumption).
        rewrite Hnil in Hr. destruct Hr. }
      destruct (filter (has_id z) (rows t)); [congruence | reflexivity].
    + exact Hgone.
    + rewrite delete_unfold. cbn [rows with_rows].
      assert (Hnil : filter (has_id z) (filter (fun x => negb (has_id z x)) (rows t)) = []).
      { apply find_none_filter.
        destruct (find (has_id z) (filter (fun x => negb (has_id z x)) (rows t))) as [r'|] eqn:E;
          [|reflexivity].
        apply find_some in E. destruct E as [Hr' Hk]. rewrite (Hgone r' Hr') in Hk.
        discriminate Hk. }
      rewrite Hnil. reflexivity.
Qed.

(** C7 on the users: Bob is deleted once, and is not found the second
    time. *)
Lemma C7_witness :
  exists t', Repo.delete (Num 2) users = (Return tt, t') /\
             (forall r', In r' (rows t') -> has_id 2 r' = false) /\
             fst (Repo.delete (Num 2) t')
             = Throw (Http (NotFoundException "Entity with id 2 not found")).
Proof.
  apply (proj2 (proj2 (proj2 (C7_delete_outcomes users))) 2%Z
           [("id", SInt 2); ("name", SText "Bob"); ("email", SText "alice@y.com");
            ("isActive", SInt 1); ("createdAt", SText "2024-01-02")]).
  - right. left. reflexivity.
  - reflexivity.
Defined.

(** C7 as stated fails: the ids 0 and -5 are no positive integers, and
    [delete] answers them with not found, not with an invalid
    argument. *)
Lemma C7_counterexample :
  fst (Repo.delete (Num 0) users)
  = Throw (Http (NotFoundException "Entity with id 0 not found")) /\
  fst (Repo.delete (Num (-5)) users)
  = Throw (Http (NotFoundException "Entity with id -5 not found")) /\
  kind_of (NotFoundException "Entity with id 0 not found") <> InvalidArgument /\
  kind_of (NotFoundException "Entity with id -5 not found") <> InvalidArgument.
Proof. repeat split; try (vm_compute; reflexivity); discriminate. Qed.

(* ================================================================== *)
(** ** Claims about [findAll]: pagination *)
(* ================================================================== *)

Lemma insert_sorted_length (leb : row -> row -> bool) (r : row) (l : list row) :
  List.length (insert_sorted leb r l) = S (List.length l).
Proof.
  induction l as [|x l IH]; simpl; [reflexivity|].
  destruct (leb r x); simpl; [reflexivity | rewrite IH; reflexivity].
Qed.

Lemma sort_rows_length (leb : row -> row -> bool) (l : list row) :
  List.length (sort_rows leb l) = List.length l.
Proof.
  unfold sort_rows. induction l as [|x l IH]; [reflexivity|].
  cbn [fold_right List.length]. rewrite insert_sorted_length, IH. reflexivity.
Qed.

Lemma ordered_length (t : table) (q : query) (l : list row) :
  List.length (ordered t q l) = List.length l.
Proof.
  unfold ordered. destruct (orderBys q) as [|[c d] rest]; [reflexivity|].
  apply sort_rows_length.
Qed.

(** *** Small numbers: exact arithmetic, plain digits *)

Lemma to_double_small (z : Z) : (0 <= z < 2 ^ 53)%Z -> to_double z = z.
Proof.
  intros Hz. unfold to_double, round_magnitude, bit_length.
  destruct (Z.eqb_spec z 0) as [->|Hne]; [reflexivity|].
  rewrite Z.abs_eq by lia.
  destruct (Z.eqb_spec z 0) as [E|_]; [contradiction|].
  assert (Hlog : (Z.log2 z < 53)%Z) by (apply Z.log2_lt_pow2; lia).
  destruct (Z.leb_spec (Z.log2 z + 1 - 53) 0) as [_|Hgt]; [|lia].
  rewrite Z.sgn_pos by lia. lia.
Qed.

Lemma minus_small (a b : Z) : (0 <= a - b < 2 ^ 53)%Z -> minus a b = (a - b)%Z.
Proof. apply to_double_small. Qed.

Lemma times_small (a b : Z) : (0 <= a * b < 2 ^ 53)%Z -> times a b = (a * b)%Z.
Proof. apply to_double_small. Qed.

Lemma string_of_number_small (z : Z) :
  (0 <= z < 2 ^ 53)%Z -> string_of_number (Num z) = string_of_Z z.
Proof.
  intros Hz. unfold string_of_number. rewrite (to_double_small z Hz).
  destruct (Z.ltb_spec z 0) as [Hneg|_]; [lia|].
  unfold string_of_magnitude.
  assert (Hbig : (2 ^ 53 < 2 ^ 1024)%Z) by (apply Z.pow_lt_mono_r; lia).
  destruct (Z.leb_spec (2 ^ 1024) z) as [Hle|_]; [lia|].
  destruct (Z.ltb_spec z (2 ^ 53)) as [_|Hge]; [reflexivity | lia].
Qed.

(** The digits of a small number are a row count: the number itself. *)
Lemma row_count_digits (z : Z) :
  (0 <= z < 2 ^ 53)%Z -> row_count (string_of_Z z) = Some (Z.to_N z).
Proof.
  intros Hz. unfold row_count, string_of_Z.
  assert (Hmax : (2 ^ 53 < 18446744073709551615)%Z) by reflexivity.
  destruct z as [|q|q]; [reflexivity| |lia].
  cbn [Z.to_int NilZero.string_of_int Z.to_N].
  rewrite NilZero.usu by apply Unsigned.to_uint_nonnil.
  unfold N.of_uint. rewrite DecimalPos.Unsigned.of_to.
  destruct (N.leb_spec (N.pos q) 18446744073709551615) as [_|Hgt]; [reflexivity|].
  exfalso. lia.
Qed.

Lemma keep_firstn (n : N) (l : list row) : keep n l = firstn (N.to_nat n) l.
Proof.
  revert n. induction l as [|x l IH]; intros n; cbn [keep].
  - rewrite firstn_nil. reflexivity.
  - destruct (N.eqb_spec n 0) as [->|Hne]; [reflexivity|].
    rewrite IH. replace (N.to_nat n) with (S (N.to_nat (N.pred n))) by lia.
    reflexivity.
Qed.

Lemma drop_skipn (n : N) (l : list row) : drop n l = skipn (N.to_nat n) l.
Proof.
  revert n. induction l as [|x l IH]; intros n; cbn [drop].
  - destruct (N.to_nat n); reflexivity.
  - destruct (N.eqb_spec n 0) as [->|Hne]; [reflexivity|].
    rewrite IH. replace (N.to_nat n) with (S (N.to_nat (N.pred n))) by lia.
    reflexivity.
Qed.

(** The window of a query whose [take] is at least one and whose [skip]
    and [take] are small. *)
Lemma small_window (q : query) (o l : Z) :
  skip_rows q = Some o -> take_rows q = Some l ->
  (0 <= o < 2 ^ 53)%Z -> (1 <= l < 2 ^ 53)%Z ->
  exists c, createLimitOffsetExpression q = inr c /\
            window c = inr (Z.to_N o, Some (Z.to_N l)).
Proof.
  intros Hs Ht Ho Hl. unfold createLimitOffsetExpression. rewrite Hs, Ht.
  cbn [truthy_number rendered]. unfold nonzero.
  rewrite !string_of_number_small by lia.
  destruct (Z.eqb_spec l 0) as [E|_]; [lia|]. cbn [negb andb].
  destruct (Z.eqb_spec o 0) as [->|Hne]; cbn [negb].
  - eexists. split; [reflexivity|]. cbn [window].
    rewrite row_count_digits by lia. reflexivity.
  - eexists. split; [reflexivity|]. cbn [window].
    rewrite !row_count_digits by lia. reflexivity.
Qed.

Lemma page_of_small (q : query) (o l : Z) (rs : list row) :
  skip_rows q = Some o -> take_rows q = Some l ->
  (0 <= o < 2 ^ 53)%Z -> (1 <= l < 2 ^ 53)%Z ->
  page_of q rs = firstn (Z.to_nat l) (skipn (Z.to_nat o) rs).
Proof.
  intros Hs Ht Ho Hl.
  destruct (small_window q o l Hs Ht Ho Hl) as (c & Hc & Hw).
  unfold page_of. rewrite Hc, Hw. unfold slice. cbn [fst snd].
  rewrite keep_firstn, drop_skipn, !Z_N_nat. reflexivity.
Qed.

(** Among small windows, the failure of the statement does not depend
    on the offset. *)
Lemma statement_error_offset (t : table) (q : query) (o o' l : Z) :
  skip_rows q = Some o -> take_rows q = Some l ->
  (0 <= o < 2 ^ 53)%Z -> (0 <= o' < 2 ^ 53)%Z -> (1 <= l < 2 ^ 53)%Z ->
  statement_error t (Orm.skip q o') = statement_error t q.
Proof.
  intros Hs Ht Ho Ho' Hl.
  destruct (small_window q o l Hs Ht Ho Hl) as (c & Hc & Hw).
  destruct (small_window (Orm.skip q o') o' l eq_refl Ht Ho' Hl) as (c' & Hc' & Hw').
  unfold statement_error. rewrite Hc, Hw, Hc', Hw'. reflexivity.
Qed.

Section Pagination.
Context {policy : ColumnPolicy}.

(** Another page of the same request is the same query with another
    offset. *)
Lemma finishQuery_with_page (qb : query) (p : AbstractPaginationDto) (n : Z) :
  finishQuery qb (with_page p n)
  = take (Orm.skip (finishQuery qb p) (times (minus n 1) (limit p))) (limit p).
Proof. reflexivity. Qed.

Lemma executed_query_with_page (p : AbstractPaginationDto) (n : Z) :
  executed_query (with_page p n)
  = option_map (fun q => take (Orm.skip q (times (minus n 1) (limit p))) (limit p))
               (executed_query p).
Proof.
  unfold executed_query. change (filtered_builder (with_page p n)) with (filtered_builder p).
  destruct (filtered_builder p); reflexivity.
Qed.

(** The offset of a page whose rows are counted by small numbers. *)
Lemma small_offset (n l : Z) :
  (1 <= n)%Z -> (1 <= l)%Z -> ((n - 1) * l < 2 ^ 53)%Z ->
  times (minus n 1) l = ((n - 1) * l)%Z /\ (0 <= (n - 1) * l < 2 ^ 53)%Z.
Proof.
  intros Hn Hl Hsmall.
  assert (Hpos : (0 <= (n - 1) * l)%Z) by nia.
  assert (Hn1 : (0 <= n - 1 < 2 ^ 53)%Z) by nia.
  rewrite (minus_small n 1 Hn1), times_small by lia. lia.
Qed.

Lemma like_group_columns (cols : list string) :
  map column_of (flat_map (fun w => condition_predicates (snd w)) (like_group cols)) = cols.
Proof.
  unfold like_group. destruct cols as [|c0 rest]; [reflexivity|].
  cbn [flat_map snd condition_predicates app map column_of]. f_equal.
  generalize 1%nat. induction rest as [|c rest IH]; intros n; [reflexivity|].
  cbn [List.length seq combine map flat_map or_clause snd condition_predicates app column_of].
  rewrite IH. reflexivity.
Qed.

Lemma like_group_predicates (cols : list string) (pr : predicate) :
  In pr (flat_map (fun w : where_clause => condition_predicates (snd w)) (like_group cols)) ->
  exists ic, In ic (combine (seq 0 (List.length cols)) cols) /\
             pr = Like (snd ic) ("search_" ++ string_of_nat (fst ic)).
Proof.
  unfold like_group. destruct cols as [|c0 rest]; [intros []|].
  cbn [flat_map snd condition_predicates app List.length seq combine].
  intros [<-|Hin].
  - exists (0%nat, c0). split; [left; reflexivity | reflexivity].
  - apply in_flat_map in Hin. destruct Hin as (w & Hw & Hpr).
    apply in_map_iff in Hw. destruct Hw as (ic & <- & Hic).
    cbn [or_clause snd condition_predicates] in Hpr. destruct Hpr as [<-|[]].
    exists ic. split; [right; exact Hic | reflexivity].
Qed.

Lemma find_none_all {A : Type} (f : A -> bool) (l : list A) :
  (forall x, In x l -> f x = false) -> find f l = None.
Proof.
  intros H. induction l as [|x l IH]; [reflexivity|].
  cbn [find]. rewrite (H x (or_introl eq_refl)). apply IH.
  intros y Hy. apply H. right. exact Hy.
Qed.

Lemma first_error_none (f : predicate -> option driver_error) (l : list predicate) :
  (forall p, In p l -> f p = None) -> first_error f l = None.
Proof.
  intros H. unfold first_error. rewrite find_none_all; [reflexivity|].
  intros p Hp. rewrite (H p Hp). reflexivity.
Qed.

(** X12: a request without filters, for a page and a page size of at
    least one whose row counts are below [2^53], is answered on every
    table that has the key and the columns of the policy. *)
Lemma findAll_returns_without_filters (p : AbstractPaginationDto) (t : table) :
  filters p = None ->
  (1 <= page p)%Z -> (1 <= limit p < 2 ^ 53)%Z -> ((page p - 1) * limit p < 2 ^ 53)%Z ->
  (forall c, In c getSearchableColumns -> In c (columns t)) ->
  (forall c, In c getSortableColumns -> In c (columns t)) ->
  In "id" (columns t) ->
  exists res, fst (findAll p t) = Return res.
Proof.
  intros Hf Hpage Hlimit Hsmall Hsearch Hsort Hid.
  assert (Hq : executed_query p = Some (finishQuery (createQueryBuilder "e") p)).
  { unfold executed_query, filtered_builder. rewrite Hf. reflexivity. }
  eexists. apply (findAll_succeeds p t _ Hq).
  destruct (finishQuery_shape (createQueryBuilder "e") p) as (Hw & Hp & Ho & Hs & Ht & _).
  destruct (small_offset (page p) (limit p) Hpage (proj1 Hlimit) Hsmall) as [Eo Ho'].
  rewrite Eo in Hs.
  destruct (small_window _ _ _ Hs Ht Ho' Hlimit) as (c & Hc & Hwin).
  assert (Hsearched : search_applies (search p) = true ->
                      exists text, search p = Some text).
  { unfold search_applies. destruct (search p) as [text|]; [eauto | discriminate]. }
  assert (Hpreds : forall pr,
             In pr (predicates (finishQuery (createQueryBuilder "e") p)) ->
             exists text ic,
               search p = Some text /\ search_applies (search p) = true /\
               In ic (combine (seq 0 (List.length getSearchableColumns)) getSearchableColumns) /\
               pr = Like (snd ic) ("search_" ++ string_of_nat (fst ic))).
  { intros pr Hpr. unfold predicates in Hpr. rewrite Hw in Hpr.
    cbn [createQueryBuilder wheres app] in Hpr. unfold search_clauses in Hpr.
    destruct (search_applies (search p)) eqn:Happ; [|destruct Hpr].
    destruct (Hsearched eq_refl) as [text Htext].
    cbn [flat_map snd condition_predicates] in Hpr. rewrite app_nil_r in Hpr.
    apply like_group_predicates in Hpr. destruct Hpr as (ic & Hic & ->).
    exists text, ic. auto. }
  assert (Hbound : forall text ic,
             search p = Some text -> search_applies (search p) = true ->
             In ic (combine (seq 0 (List.length getSearchableColumns)) getSearchableColumns) ->
             bound (parameters (finishQuery (createQueryBuilder "e") p))
                   ("search_" ++ string_of_nat (fst ic))
             = Some (Some (JString ("%" ++ text ++ "%")))).
  { intros text ic Htext Happ Hic. rewrite Hp.
    cbn [createQueryBuilder parameters app]. unfold search_params.
    rewrite Htext, <- Htext, Happ. unfold like_params.
    apply (bound_like_params text _ ic Hic). }
  unfold query_fails, statement_error. rewrite Hc.
  rewrite first_error_none.
  - rewrite Hwin, first_error_none.
    + rewrite Ho. cbn [map fst]. rewrite unresolved_none; [reflexivity|].
      intros c0 [<-|[]].
      destruct (safeSort_cases (sortBy p)) as [->|(c1 & _ & _ & Hin & ->)]; auto.
    + intros pr Hpr. destruct (Hpreds pr Hpr) as (text & ic & Htext & Happ & Hic & ->).
      unfold unresolved_predicate. cbn [column_of param_of].
      assert (Hcol : In (snd ic) (columns t)).
      { apply Hsearch. destruct ic as [i c0]. apply in_combine_r in Hic. exact Hic. }
      destruct (resolve_in_column (columns t) (snd ic) Hcol) as [c' Hc'].
      rewrite Hc'. reflexivity.
  - intros pr Hpr. destruct (Hpreds pr Hpr) as (text & ic & Htext & Happ & Hic & ->).
    unfold unparsed_predicate. cbn [param_of].
    rewrite (Hbound text ic Htext Happ Hic). reflexivity.
Qed.

End Pagination.

(** C9, as amended: for a request with [page >= 1] and [limit >= 1]
    whose row counts [limit] and [(page - 1) * limit] are below [2^53],
    and that [findAll] answers, the answer is the slice of the matching
    rows, in the order of the sort, that starts after
    [(page - 1) * limit] rows and has at most [limit] rows; [total]
    counts the matching rows; [page] and [limit] are echoed.  Every
    other page of the request whose offset is below [2^53] is answered
    too, with the same total, and with no rows when it starts at or
    beyond the total. *)
Theorem C9_page_is_a_slice {policy : ColumnPolicy}
        (p : AbstractPaginationDto) (t : table) (res : PaginatedResult) :
  (1 <= page p)%Z -> (1 <= limit p < 2 ^ 53)%Z -> ((page p - 1) * limit p < 2 ^ 53)%Z ->
  fst (findAll p t) = Return res ->
  exists q all,
    executed_query p = Some q /\
    (forall t', findAll p t' = paginated p q t') /\
    skip_rows q = Some ((page p - 1) * limit p)%Z /\
    take_rows q = Some (limit p) /\
    all = ordered t q (filter (matches t q) (rows t)) /\
    data res = firstn (Z.to_nat (limit p)) (skipn (Z.to_nat ((page p - 1) * limit p)) all) /\
    total res = List.length all /\
    (Z.of_nat (List.length (data res)) <= limit p)%Z /\
    (List.length (data res) <= total res)%nat /\
    result_page res = page p /\
    result_limit res = limit p /\
    (forall n, (1 <= n)%Z -> ((n - 1) * limit p < 2 ^ 53)%Z ->
               exists res',
                 fst (findAll (with_page p n) t) = Return res' /\
                 total res' = total res /\
                 result_page res' = n /\
                 ((Z.of_nat (total res) <= (n - 1) * limit p)%Z -> data res' = [])).
Proof.
  intros Hpage Hlimit Hsmall Hres.
  destruct (findAll_returns p t res Hres) as (q & Hq & Hok & ->).
  destruct (small_offset (page p) (limit p) Hpage (proj1 Hlimit) Hsmall) as [Eo Ho].
  assert (Hshape : skip_rows q = Some ((page p - 1) * limit p)%Z /\ take_rows q = Some (limit p)).
  { unfold executed_query in Hq. destruct (filtered_builder p) as [qb|]; [|discriminate Hq].
    cbn [option_map] in Hq. inversion Hq.
    destruct (finishQuery_shape qb p) as (_ & _ & _ & Hs & Ht & _).
    rewrite Eo in Hs. split; assumption. }
  destruct Hshape as [Hs Ht].
  exists q, (ordered t q (filter (matches t q) (rows t))).
  cbn [data total result_page result_limit].
  assert (Hdata : page_of q (ordered t q (filter (matches t q) (rows t)))
                  = firstn (Z.to_nat (limit p))
                           (skipn (Z.to_nat ((page p - 1) * limit p))
                                  (ordered t q (filter (matches t q) (rows t))))).
  { apply page_of_small; assumption. }
  split; [exact Hq|].
  split; [intros t'; rewrite findAll_unfold, Hq; reflexivity|].
  split; [exact Hs|]. split; [exact Ht|].
  split; [reflexivity|].
  split; [exact Hdata|].
  split; [rewrite ordered_length; reflexivity|].
  split.
  { rewrite Hdata.
    pose proof (firstn_le_length (Z.to_nat (limit p))
                  (skipn (Z.to_nat ((page p - 1) * limit p))
                         (ordered t q (filter (matches t q) (rows t))))) as Hle.
    lia. }
  split.
  { rewrite Hdata, length_firstn, length_skipn, ordered_length. lia. }
  split; [reflexivity|]. split; [reflexivity|].
  intros n Hn Hnsmall.
  destruct (small_offset n (limit p) Hn (proj1 Hlimit) Hnsmall) as [En Hno].
  assert (Hqn : executed_query (with_page p n)
                = Some (take (Orm.skip q ((n - 1) * limit p)) (limit p))).
  { rewrite executed_query_with_page, Hq, En. reflexivity. }
  assert (Hsame : take (Orm.skip q ((n - 1) * limit p)) (limit p)
                  = Orm.skip q ((n - 1) * limit p)).
  { unfold take, Orm.skip. cbn [alias wheres parameters orderBys skip_rows take_rows].
    rewrite Ht. reflexivity. }
  rewrite Hsame in Hqn.
  assert (Hokn : query_fails t (Orm.skip q ((n - 1) * limit p)) = false).
  { unfold query_fails in *.
    rewrite (statement_error_offset t q _ _ _ Hs Ht Ho Hno Hlimit). exact Hok. }
  eexists. split; [apply (findAll_succeeds (with_page p n) t _ Hqn Hokn)|].
  cbn [data total result_page result_limit with_page page].
  split; [reflexivity|]. split; [reflexivity|].
  intros Hbeyond.
  change (matches t (Orm.skip q ((n - 1) * limit p))) with (matches t q).
  change (ordered t (Orm.skip q ((n - 1) * limit p))) with (ordered t q).
  rewrite (page_of_small (Orm.skip q ((n - 1) * limit p)) ((n - 1) * limit p) (limit p) _
                         eq_refl Ht Hno Hlimit).
  rewrite skipn_all2; [apply firstn_nil|].
  rewrite ordered_length. lia.
Qed.

(** C9 on the users: page 1 of size 1 is Alice out of a total of 2, and
    every page from the third on is empty with the same total. *)
Lemma C9_witness :
  exists q all,
    @executed_query user_policy
      {| page := 1; limit := 1; sortBy := None; order := None; search := None; filters := None |}
    = Some q /\
    all = ordered users q (filter (matches users q) (rows users)) /\
    [ [("id", SInt 1); ("name", SText "Alice"); ("email", SText "bob@x.com");
       ("isActive", SInt 1); ("createdAt", SText "2024-01-01")] ]
    = firstn (Z.to_nat 1) (skipn (Z.to_nat ((1 - 1) * 1)) all) /\
    2%nat = List.length all /\
    (forall n, (1 <= n)%Z -> ((n - 1) * 1 < 2 ^ 53)%Z ->
               exists res',
                 fst (@findAll user_policy
                        (with_page
                           {| page := 1; limit := 1; sortBy := None; order := None;
                              search := None; filters := None |} n) users) = Return res' /\
                 total res' = 2%nat /\
                 result_page res' = n /\
                 ((Z.of_nat 2 <= (n - 1) * 1)%Z -> data res' = [])).
Proof.
  destruct (@C9_page_is_a_slice user_policy
              {| page := 1; limit := 1; sortBy := None; order := None;
                 search := None; filters := None |}
              users
              {| data := [ [("id", SInt 1); ("name", SText "Alice"); ("email", SText "bob@x.com");
                            ("isActive", SInt 1); ("createdAt", SText "2024-01-01")] ];
                 total := 2; result_page := 1; result_limit := 1 |})
    as (q & all & Hq & _ & _ & _ & Hall & Hdata & Htotal & _ & _ & _ & _ & Hpages).
  - vm_compute. discriminate.
  - split; [vm_compute; discriminate | reflexivity].
  - reflexivity.
  - vm_compute. reflexivity.
  - exists q, all. repeat split; assumption.
Defined.

(** C9 as stated fails: page [10^21] of ten rows each is a valid
    request, and where page 1 is answered with a total of 2, that page
    is an error: its offset goes into the statement as [1e+22]. *)
Lemma C9_counterexample :
  (1 <= page (with_page first_page (10 ^ 21)))%Z /\
  (1 <= limit (with_page first_page (10 ^ 21)))%Z /\
  (exists res, fst (@findAll user_policy (with_page first_page 1) users) = Return res /\
               total res = 2%nat) /\
  rendered (skip_rows (@finishQuery user_policy (createQueryBuilder "e")
                         (with_page first_page (10 ^ 21)))) = "1e+22" /\
  exists m, fst (@findAll user_policy (with_page first_page (10 ^ 21)) users)
            = Throw (Http (InternalServerErrorException m)).
Proof.
  split; [vm_compute; discriminate|].
  split; [vm_compute; discriminate|].
  split; [eexists; split; vm_compute; reflexivity|].
  split; [vm_compute; reflexivity|].
  eexists. vm_compute. reflexivity.
Qed.

(** *** The rows of a page are matching rows *)

Lemma in_firstn {A : Type} (n : nat) (l : list A) (x : A) : In x (firstn n l) -> In x l.
Proof.
  intros H. rewrite <- (firstn_skipn n l). apply in_or_app. left. exact H.
Qed.

Lemma in_skipn {A : Type} (n : nat) (l : list A) (x : A) : In x (skipn n l) -> In x l.
Proof.
  intros H. rewrite <- (firstn_skipn n l). apply in_or_app. right. exact H.
Qed.

Lemma insert_sorted_in (leb : row -> row -> bool) (r x : row) (l : list row) :
  In x (insert_sorted leb r l) -> x = r \/ In x l.
Proof.
  induction l as [|y l IH]; simpl.
  - intros [<-|[]]. left. reflexivity.
  - destruct (leb r y); simpl.
    + intros [<-|H]; [left; reflexivity | right; exact H].
    + intros [<-|H]; [right; left; reflexivity|].
      destruct (IH H) as [->|Hl]; [left; reflexivity | right; right; exact Hl].
Qed.

Lemma sort_rows_in (leb : row -> row -> bool) (l : list row) (x : row) :
  In x (sort_rows leb l) -> In x l.
Proof.
  unfold sort_rows. induction l as [|y l IH]; [intros []|].
  cbn [fold_right]. intros H. apply insert_sorted_in in H.
  destruct H as [->|H]; [left; reflexivity | right; apply IH; exact H].
Qed.

Lemma page_of_in (q : query) (l : list row) (x : row) : In x (page_of q l) -> In x l.
Proof.
  unfold page_of, slice.
  destruct (createLimitOffsetExpression q) as [e|c]; [intros []|].
  destruct (window c) as [d|[o [n|]]]; [intros []| |]; cbn [fst snd];
    rewrite ?keep_firstn, ?drop_skipn; intros H.
  - apply in_firstn, in_skipn in H. exact H.
  - apply in_skipn in H. exact H.
Qed.

Lemma ordered_in (t : table) (q : query) (l : list row) (x : row) :
  In x (ordered t q l) -> In x l.
Proof.
  unfold ordered. destruct (orderBys q) as [|[c d] rest]; [intros H; exact H|].
  apply sort_rows_in.
Qed.

(** A row [findAll] returns is a row of the table that matches the
    query. *)
Lemma returned_row_matches {policy : ColumnPolicy}
      (p : AbstractPaginationDto) (q : query) (t : table) (res : PaginatedResult) (r : row) :
  executed_query p = Some q -> fst (findAll p t) = Return res -> In r (data res) ->
  In r (rows t) /\ matches t q r = true.
Proof.
  intros Hq Hres Hin.
  destruct (findAll_returns p t res Hres) as (q1 & Hq1 & _ & ->).
  rewrite Hq in Hq1. inversion Hq1; subst q1. cbn [data] in Hin.
  apply page_of_in, ordered_in, filter_In in Hin. exact Hin.
Qed.

Lemma returned_total {policy : ColumnPolicy}
      (p : AbstractPaginationDto) (q : query) (t : table) (res : PaginatedResult) :
  executed_query p = Some q -> fst (findAll p t) = Return res ->
  total res = List.length (filter (matches t q) (rows t)).
Proof.
  intros Hq Hres.
  destruct (findAll_returns p t res Hres) as (q1 & Hq1 & _ & ->).
  rewrite Hq in Hq1. inversion Hq1; subst q1. reflexivity.
Qed.

(* ================================================================== *)
(** ** Claims about [findAll]: search *)
(* ================================================================== *)

Lemma like_percent (p v : list ascii) :
  like ("%"%char :: p) v
  = orb (like p v) (match v with [] => false | _ :: v' => like ("%"%char :: p) v' end).
Proof. destruct v; reflexivity. Qed.

Lemma like_only_percent (v : list ascii) : like ["%"%char] v = true.
Proof.
  induction v as [|x v IH]; [reflexivity|].
  rewrite like_percent. rewrite IH. apply orb_true_r.
Qed.

Lemma like_plain_cons (c : ascii) (p v : list ascii) :
  plain c = true ->
  like (c :: p) v = match v with
                    | [] => false
                    | x :: v' => andb (ci_eqb x c) (like p v')
                    end.
Proof.
  unfold plain. intros H. apply negb_true_iff in H.
  apply orb_false_iff in H. destruct H as [H1 H].
  apply orb_false_iff in H. destruct H as [H2 H3].
  cbn [like]. rewrite H1, H2, H3. destruct v; reflexivity.
Qed.

Lemma like_plain_prefix (s v : list ascii) :
  forallb plain s = true ->
  like (s ++ ["%"%char]) v = ci_prefix s v.
Proof.
  revert v. induction s as [|c s IH]; intros v Hs.
  - apply like_only_percent.
  - cbn [forallb] in Hs. apply andb_prop in Hs. destruct Hs as [Hc Hs].
    cbn [app]. rewrite (like_plain_cons c _ v Hc).
    destruct v as [|x v]; [reflexivity|].
    cbn [ci_prefix]. rewrite IH by exact Hs. reflexivity.
Qed.

(** Without wildcards in the text, [LIKE '%text%'] is containment
    without regard to case. *)
Lemma like_contains (s v : list ascii) :
  forallb plain s = true ->
  like ("%"%char :: s ++ ["%"%char]) v = ci_contains s v.
Proof.
  intros Hs. induction v as [|x v IH].
  - rewrite like_percent, like_plain_prefix by exact Hs. reflexivity.
  - rewrite like_percent, like_plain_prefix by exact Hs.
    cbn [ci_contains]. rewrite IH. reflexivity.
Qed.

Lemma sql_like_contains (text : string) (v : sql_value) :
  forallb plain (chars text) = true ->
  sql_like ("%" ++ text ++ "%") v = contains_text text v.
Proof.
  intros Hs. unfold sql_like, contains_text.
  destruct (text_of v) as [s|]; [|reflexivity].
  rewrite !chars_append. apply (like_contains (chars text) (chars s) Hs).
Qed.

Section Search.
Context {policy : ColumnPolicy}.

(** What the filter block leaves in the builder. *)
Lemma filtered_builder_shape (p : AbstractPaginationDto) (qb : query) :
  filtered_builder p = Some qb ->
  exists parsed keys,
    wheres qb = map filter_clause keys /\
    parameters qb = map (filter_param parsed) keys.
Proof.
  unfold filtered_builder, applyFilters.
  assert (Hempty : exists parsed keys,
             wheres (createQueryBuilder "e") = map filter_clause keys /\
             parameters (createQueryBuilder "e") = map (filter_param parsed) keys).
  { exists JNull, []. split; reflexivity. }
  destruct (filters p) as [text|]; [|intros H; inversion H; subst; exact Hempty].
  destruct (truthy (Some text)); [|intros H; inversion H; subst; exact Hempty].
  destruct (Json.parse text) as [parsed|]; [|discriminate].
  destruct (Object_keys parsed) as [keys|]; [|discriminate].
  destruct (forEach (filterEach parsed) keys 0 (createQueryBuilder "e")) as [qb' [e|]] eqn:E;
    [discriminate|].
  intros H. inversion H; subst qb'. exists parsed, keys.
  destruct (filter_forEach_shape parsed keys 0 _ _ E) as (Hw & Hp & _).
  split; assumption.
Qed.

Lemma search_params_bound (p : AbstractPaginationDto) (qb : query) (text : string)
      (ic : nat * string) :
  search p = Some text -> text <> "" -> getSearchableColumns <> [] ->
  In ic (combine (seq 0 (List.length getSearchableColumns)) getSearchableColumns) ->
  bound (parameters (finishQuery qb p)) ("search_" ++ string_of_nat (fst ic))
  = Some (Some (JString ("%" ++ text ++ "%"))).
Proof.
  intros Hs Hne Hcols Hic.
  destruct (finishQuery_shape qb p) as (_ & Hp & _). rewrite Hp, bound_app, Hs.
  unfold search_params, search_applies. cbn [truthy].
  apply String.eqb_neq in Hne. rewrite Hne.
  destruct getSearchableColumns as [|c0 rest] eqn:E; [congruence|].
  cbn [List.length Nat.eqb negb andb]. unfold like_params.
  rewrite (bound_like_params text _ ic Hic). reflexivity.
Qed.

(** With a non-empty search text and a searchable column, a row
    matches the query when it matches the query of the request without
    search and one searchable column is LIKE the pattern. *)
Lemma search_meaning (p : AbstractPaginationDto) (qb : query) (text : string)
      (t : table) (r : row) :
  filtered_builder p = Some qb -> search p = Some text -> text <> "" ->
  getSearchableColumns <> [] ->
  matches t (finishQuery qb p) r
  = andb (matches t (finishQuery qb (with_search p None)) r)
         (existsb (fun c => sql_like ("%" ++ text ++ "%") (cell t r c)) getSearchableColumns).
Proof.
  intros Hqb Hs Hne Hcols.
  destruct (filtered_builder_shape p qb Hqb) as (parsed & keys & Hw & Hp).
  destruct (finishQuery_shape qb p) as (Hfw & Hfp & _).
  destruct (finishQuery_shape qb (with_search p None)) as (H0w & H0p & _).
  cbn [with_search search] in H0w, H0p.
  rewrite (matches_meaning t _ parsed keys (search p) r);
    [|rewrite Hfw, Hw; reflexivity | rewrite Hfp, Hp; reflexivity].
  rewrite (matches_meaning t (finishQuery qb (with_search p None)) parsed keys None r);
    [|rewrite H0w, Hw; reflexivity | rewrite H0p, Hp; reflexivity].
  cbn [search_holds]. rewrite andb_true_r, Hs. cbn [search_holds].
  assert (Happ : search_applies (Some text) = true).
  { unfold search_applies. cbn [truthy]. apply String.eqb_neq in Hne. rewrite Hne.
    destruct getSearchableColumns; [congruence | reflexivity]. }
  rewrite Happ. reflexivity.
Qed.

End Search.

(** C8, as amended: with a non-empty [search], [findAll] executes the
    query described here.  With at least one searchable column it is
    the query of the request without search plus one AND-joined group,
    the OR of one predicate [e.<column> LIKE :search_<index>] per
    searchable column, every parameter bound to [%search%]; a row
    matches when it matches the request without search and one
    searchable column is LIKE the pattern, which is containment of the
    text without regard to case when the text has no [%], [_] or
    backslash; the rows returned are such rows and the total counts
    them.  With no searchable column the query is that of the request
    without search. *)
Theorem C8_search_group {policy : ColumnPolicy}
        (p : AbstractPaginationDto) (q : query) (text : string) :
  executed_query p = Some q -> search p = Some text -> text <> "" ->
  (forall t, findAll p t = paginated p q t) /\
  exists q0,
    executed_query (with_search p None) = Some q0 /\
    (forall t, findAll (with_search p None) t = paginated (with_search p None) q0 t) /\
    (getSearchableColumns <> [] ->
     wheres q = (wheres q0 ++ [(And, Brackets (like_group getSearchableColumns))])%list /\
     (forall ic,
         In ic (combine (seq 0 (List.length getSearchableColumns)) getSearchableColumns) ->
         In (if Nat.eqb (fst ic) 0 then Simple else Or,
             Pred (Like (snd ic) ("search_" ++ string_of_nat (fst ic))))
            (like_group getSearchableColumns) /\
         bound (parameters q) ("search_" ++ string_of_nat (fst ic))
         = Some (Some (JString ("%" ++ text ++ "%")))) /\
     List.length (like_group getSearchableColumns) = List.length getSearchableColumns /\
     (forall t r, matches t q r
                  = andb (matches t q0 r)
                         (existsb (fun c => sql_like ("%" ++ text ++ "%") (cell t r c))
                                  getSearchableColumns)) /\
     (forallb plain (chars text) = true ->
      forall t r, matches t q r
                  = andb (matches t q0 r)
                         (existsb (fun c => contains_text text (cell t r c))
                                  getSearchableColumns)) /\
     (forall t res,
         fst (findAll p t) = Return res ->
         (forall r, In r (data res) ->
                    In r (rows t) /\ matches t q0 r = true /\
                    existsb (fun c => sql_like ("%" ++ text ++ "%") (cell t r c))
                            getSearchableColumns = true) /\
         total res
         = List.length
             (filter (fun r => andb (matches t q0 r)
                                    (existsb (fun c => sql_like ("%" ++ text ++ "%") (cell t r c))
                                             getSearchableColumns))
                     (rows t)))) /\
    (getSearchableColumns = [] ->
     q = q0 /\ forall t, findAll p t = findAll (with_search p None) t).
Proof.
  intros Hq Hs Hne.
  split; [intros t; rewrite findAll_unfold, Hq; reflexivity|].
  pose proof Hq as Hq'. unfold executed_query in Hq.
  destruct (filtered_builder p) as [qb|] eqn:Hqb; [|discriminate Hq].
  cbn [option_map] in Hq. inversion Hq; subst q. clear Hq.
  assert (Hq0 : executed_query (with_search p None)
                = Some (finishQuery qb (with_search p None))).
  { unfold executed_query.
    change (filtered_builder (with_search p None)) with (filtered_builder p).
    rewrite Hqb. reflexivity. }
  exists (finishQuery qb (with_search p None)). split; [exact Hq0|].
  split; [intros t; rewrite findAll_unfold, Hq0; reflexivity|].
  destruct (finishQuery_shape qb p) as (Hfw & Hfp & _).
  destruct (finishQuery_shape qb (with_search p None)) as (H0w & H0p & _).
  cbn [with_search search] in H0w, H0p.
  change (search_clauses None) with (@nil where_clause) in H0w.
  cbn [search_params] in H0p. rewrite app_nil_r in H0w, H0p.
  pose proof Hne as Hne'. apply String.eqb_neq in Hne.
  split.
  - intros Hcols.
    assert (Happ : search_applies (Some text) = true).
    { unfold search_applies. cbn [truthy]. rewrite Hne.
      destruct getSearchableColumns; [congruence | reflexivity]. }
    assert (Hlike : forall t r,
               matches t (finishQuery qb p) r
               = andb (matches t (finishQuery qb (with_search p None)) r)
                      (existsb (fun c => sql_like ("%" ++ text ++ "%") (cell t r c))
                               getSearchableColumns)).
    { intros t r. apply search_meaning; assumption. }
    split.
    { rewrite Hfw, H0w, Hs. unfold search_clauses. rewrite Happ. reflexivity. }
    split.
    { intros ic Hic. split.
      - unfold like_group. destruct getSearchableColumns as [|c0 rest]; [destruct Hic|].
        cbn [List.length seq combine] in Hic. destruct Hic as [<-|Hic].
        + left. reflexivity.
        + right. destruct ic as [i c].
          assert (Hi : Nat.eqb i 0 = false).
          { apply in_combine_l in Hic. apply in_seq in Hic. apply Nat.eqb_neq. lia. }
          cbn [fst snd]. rewrite Hi.
          apply (in_map or_clause _ (i, c)) in Hic. exact Hic.
      - apply (search_params_bound p qb text ic Hs); assumption. }
    split.
    { unfold like_group. destruct getSearchableColumns as [|c0 rest]; [reflexivity|].
      cbn [List.length]. rewrite length_map, length_combine, length_seq, Nat.min_id.
      reflexivity. }
    split; [exact Hlike|].
    split.
    { intros Hplain t r. rewrite Hlike. f_equal.
      apply existsb_pointwise. intros c. apply sql_like_contains. exact Hplain. }
    intros t res Hres. split.
    + intros r Hin.
      destruct (returned_row_matches p _ t res r Hq' Hres Hin) as [Hrow Hm].
      rewrite Hlike in Hm. apply andb_prop in Hm. destruct Hm as [Hm0 Hex].
      repeat split; assumption.
    + rewrite (returned_total p _ t res Hq' Hres).
      rewrite (filter_ext _ _ (Hlike t)). reflexivity.
  - intros Hcols.
    assert (Hsame : finishQuery qb p = finishQuery qb (with_search p None)).
    { unfold finishQuery, applySearch. cbn [with_search search sortBy order page limit].
      rewrite Hs, Hcols. cbn [truthy List.length Nat.eqb negb].
      destruct (negb (String.eqb text "")); reflexivity. }
    split; [exact Hsame|].
    intros t. rewrite !findAll_unfold, Hq', Hq0, Hsame. reflexivity.
Qed.

(** C8 at [?search=bob] on the users' columns [name] and [email]: one
    group of two predicates, and a row matches when its name or its
    address contains the text. *)
Lemma C8_witness :
  exists q0,
    @executed_query user_policy (with_search (with_search first_page (Some "bob")) None)
    = Some q0 /\
    wheres (@finishQuery user_policy (createQueryBuilder "e")
              (with_search first_page (Some "bob")))
    = (wheres q0 ++ [(And, Brackets [(Simple, Pred (Like "name" "search_0"));
                                     (Or, Pred (Like "email" "search_1"))])])%list /\
    (forall t r, matches t (@finishQuery user_policy (createQueryBuilder "e")
                              (with_search first_page (Some "bob"))) r
                 = andb (matches t q0 r)
                        (existsb (fun c => contains_text "bob" (cell t r c)) ["name"; "email"])).
Proof.
  destruct (@C8_search_group user_policy
              (with_search first_page (Some "bob"))
              (@finishQuery user_policy (createQueryBuilder "e")
                 (with_search first_page (Some "bob")))
              "bob" eq_refl eq_refl)
    as (_ & q0 & Hq0 & _ & Hsome & _).
  - discriminate.
  - destruct Hsome as (Hw & _ & _ & _ & Hm & _).
    + discriminate.
    + exists q0. split; [exact Hq0|]. split; [exact Hw|].
      apply Hm. reflexivity.
Defined.

(** C8 as stated fails: for [?search=b_b] the row of Bob is returned,
    and neither his name nor his address contains [b_b]. *)
Lemma C8_counterexample :
  exists res r,
    fst (@findAll user_policy (with_search first_page (Some "b_b")) users) = Return res /\
    In r (data res) /\
    field r "name" = SText "Bob" /\
    field r "email" = SText "alice@y.com" /\
    existsb (fun c => contains_text "b_b" (cell users r c)) (@getSearchableColumns user_policy)
    = false.
Proof.
  eexists. exists [("id", SInt 2); ("name", SText "Bob"); ("email", SText "alice@y.com");
                   ("isActive", SInt 1); ("createdAt", SText "2024-01-02")].
  split; [vm_compute; reflexivity|].
  split; [right; left; reflexivity|].
  repeat split.
Qed.

(** C10: with a non-empty [search] and at least one searchable column,
    [findAll] executes a query that binds every search parameter to the
    text as it is, between two [%]; the rows it returns are rows with a
    column LIKE that pattern, and its total counts the rows that match
    the request without search and have such a column.  So there are a
    table, a search text with a [%] in it, a returned row none of whose
    searchable columns contains the text, and a row that is not
    returned: [?search=x%m] returns Alice and not Bob. *)
Theorem C10_like_wildcards_are_not_escaped :
  (forall (policy : ColumnPolicy) (p : AbstractPaginationDto) (q : query) (text : string),
      executed_query p = Some q -> search p = Some text -> text <> "" ->
      getSearchableColumns <> [] ->
      (forall t, findAll p t = paginated p q t) /\
      (forall ic,
          In ic (combine (seq 0 (List.length getSearchableColumns)) getSearchableColumns) ->
          bound (parameters q) ("search_" ++ string_of_nat (fst ic))
          = Some (Some (JString ("%" ++ text ++ "%")))) /\
      exists q0,
        executed_query (with_search p None) = Some q0 /\
        forall t res,
          fst (findAll p t) = Return res ->
          (forall r, In r (data res) ->
                     exists c, In c getSearchableColumns /\
                               sql_like ("%" ++ text ++ "%") (cell t r c) = true) /\
          total res
          = List.length
              (filter (fun r => andb (matches t q0 r)
                                     (existsb (fun c => sql_like ("%" ++ text ++ "%") (cell t r c))
                                              getSearchableColumns))
                      (rows t))) /\
  (exists (policy : ColumnPolicy) (t : table) (p : AbstractPaginationDto)
          (text : string) (res : PaginatedResult) (r r' : row),
      getSearchableColumns <> [] /\
      search p = Some text /\
      (In "%"%char (chars text) \/ In "_"%char (chars text)) /\
      fst (findAll p t) = Return res /\
      In r (data res) /\
      (forall c, In c getSearchableColumns -> contains_text text (cell t r c) = false) /\
      In r' (rows t) /\ ~ In r' (data res) /\ total res = 1%nat).
Proof.
  split.
  - intros policy p q text Hq Hs Hne Hcols.
    split; [intros t; rewrite findAll_unfold, Hq; reflexivity|].
    pose proof Hq as Hq'. unfold executed_query in Hq.
    destruct (filtered_builder p) as [qb|] eqn:Hqb; [|discriminate Hq].
    cbn [option_map] in Hq. inversion Hq; subst q. clear Hq.
    split; [intros ic Hic; apply (search_params_bound p qb text ic Hs Hne Hcols Hic)|].
    exists (finishQuery qb (with_search p None)).
    split.
    { unfold executed_query.
      change (filtered_builder (with_search p None)) with (filtered_builder p).
      rewrite Hqb. reflexivity. }
    intros t res Hres. split.
    + intros r Hin.
      destruct (returned_row_matches p _ t res r Hq' Hres Hin) as [_ Hm].
      rewrite (search_meaning p qb text t r Hqb Hs Hne Hcols) in Hm.
      apply andb_prop in Hm. destruct Hm as [_ Hex].
      apply existsb_exists in Hex. exact Hex.
    + rewrite (returned_total p _ t res Hq' Hres).
      rewrite (filter_ext _ _ (fun r => search_meaning p qb text t r Hqb Hs Hne Hcols)).
      reflexivity.
  - exists user_policy, users, (with_search first_page (Some "x%m")), "x%m".
    eexists. exists [("id", SInt 1); ("name", SText "Alice"); ("email", SText "bob@x.com");
                     ("isActive", SInt 1); ("createdAt", SText "2024-01-01")].
    exists [("id", SInt 2); ("name", SText "Bob"); ("email", SText "alice@y.com");
            ("isActive", SInt 1); ("createdAt", SText "2024-01-02")].
    split; [discriminate|].
    split; [reflexivity|].
    split; [left; right; left; reflexivity|].
    split; [vm_compute; reflexivity|].
    split; [left; reflexivity|].
    split; [intros c [<-|[<-|[]]]; reflexivity|].
    split; [right; left; reflexivity|].
    split; [|reflexivity].
    intros [H|[]]. discriminate H.
Qed.

(* ================================================================== *)
(** ** Further properties: [extractDuplicateField] *)
(* ================================================================== *)

Lemma str_chars (s : string) : str (chars s) = s.
Proof. apply string_of_list_ascii_of_string. Qed.

Lemma chars_str (l : list ascii) : chars (str l) = l.
Proof. apply list_ascii_of_string_of_list_ascii. Qed.

Lemma str_app (a b : list ascii) : str (a ++ b) = (str a ++ str b)%string.
Proof.
  unfold str. induction a as [|c a IH]; simpl; [reflexivity|]. rewrite IH. reflexivity.
Qed.

Lemma strip_prefix_app (p s rest : list ascii) :
  strip_prefix p s = Some rest -> s = (p ++ rest)%list.
Proof.
  revert s. induction p as [|a p IH]; intros s H; simpl in H.
  - inversion H. reflexivity.
  - destruct s as [|b s]; [discriminate H|].
    destruct (Ascii.eqb a b) eqn:E; [|discriminate H].
    apply Ascii.eqb_eq in E. subst. simpl. f_equal. apply IH. exact H.
Qed.

Lemma strip_prefix_self (p rest : list ascii) : strip_prefix p (p ++ rest) = Some rest.
Proof.
  induction p as [|a p IH]; simpl; [reflexivity|]. rewrite Ascii.eqb_refl. exact IH.
Qed.

Lemma line_of_split (l : list ascii) : exists tail, l = (line_of l ++ tail)%list.
Proof.
  induction l as [|c r IH]; [exists []; reflexivity|].
  cbn [line_of].
  destruct (orb _ _); [exists (c :: r); reflexivity|].
  destruct (andb _ _); [exists (c :: r); reflexivity|].
  destruct IH as [tail Ht]. exists tail. simpl. f_equal. exact Ht.
Qed.

Lemma up_to_last_quote_split (l p : list ascii) :
  up_to_last_quote l = Some p -> exists tail, l = (p ++ "'"%char :: tail)%list.
Proof.
  revert p. induction l as [|c r IH]; intros p H; simpl in H; [discriminate H|].
  destruct (up_to_last_quote r) as [q|].
  - inversion H; subst. destruct (IH q eq_refl) as [tail Ht].
    exists tail. simpl. f_equal. exact Ht.
  - destruct (Ascii.eqb c "'"%char) eqn:E; [|discriminate H].
    inversion H; subst. apply Ascii.eqb_eq in E. subst. exists r. reflexivity.
Qed.

Lemma up_to_last_quote_end (r : list ascii) : up_to_last_quote (r ++ ["'"%char]) = Some r.
Proof.
  induction r as [|c r IH]; [reflexivity|]. simpl. rewrite IH. reflexivity.
Qed.

Lemma line_of_cons (c : ascii) (r : list ascii) :
  line_of (c :: r) =
  if orb (Nat.eqb (nat_of_ascii c) 10) (Nat.eqb (nat_of_ascii c) 13) then []
  else if andb (Nat.eqb (nat_of_ascii c) 226) (separator_follows r) then []
       else c :: line_of r.
Proof. reflexivity. Qed.

Lemma separator_follows_quote (r : list ascii) :
  separator_follows (r ++ ["'"%char]) = separator_follows r.
Proof.
  destruct r as [|c1 [|c2 r2]]; [reflexivity | | reflexivity].
  cbn. apply andb_false_r.
Qed.

(** A text without line terminator stays on its line when an apostrophe
    is put after it. *)
Lemma line_of_quote (k : list ascii) :
  line_of k = k -> line_of (k ++ ["'"%char]) = (k ++ ["'"%char])%list.
Proof.
  induction k as [|c r IH]; intros H; [reflexivity|].
  rewrite line_of_cons in H. cbn [app]. rewrite line_of_cons, separator_follows_quote.
  destruct (orb _ _); [discriminate H|].
  destruct (andb _ _); [discriminate H|].
  f_equal. apply IH. inversion H as [H1]. rewrite H1. exact H1.
Qed.

Lemma match_for_key_hit (k : list ascii) :
  k <> [] -> line_of k = k ->
  match_for_key (for_key ++ k ++ ["'"%char]) = Some k.
Proof.
  intros Hne Hline.
  assert (Hg : greedy_group (k ++ ["'"%char]) = Some k).
  { unfold greedy_group. rewrite (line_of_quote k Hline).
    destruct k as [|c r]; [congruence|]. cbn [app].
    rewrite up_to_last_quote_end. reflexivity. }
  unfold for_key. cbn [chars list_ascii_of_string app match_for_key].
  change (strip_prefix (chars "for key '")
            (chars "for key '" ++ (k ++ ["'"%char])))
    with (strip_prefix (chars "for key '") (chars "for key '" ++ (k ++ ["'"%char]))).
  pose proof (strip_prefix_self (chars "for key '") (k ++ ["'"%char])) as Hs.
  cbn [chars list_ascii_of_string app] in Hs. rewrite Hs, Hg. reflexivity.
Qed.

Lemma match_for_key_skip (c : ascii) (s : list ascii) :
  strip_prefix for_key (c :: s) = None -> match_for_key (c :: s) = match_for_key s.
Proof.
  intros H. cbn [match_for_key]. unfold for_key in H. rewrite H. reflexivity.
Qed.

(** A completed occurrence of a pattern that ends with its only
    apostrophe ends no later than the first apostrophe of the text. *)
Lemma strip_prefix_before_quote (a w z : list ascii) :
  forallb (fun c => negb (Ascii.eqb c "'"%char)) a = true ->
  strip_prefix (a ++ ["'"%char]) (w ++ "'"%char :: z) <> None ->
  strip_prefix (a ++ ["'"%char]) (w ++ ["'"%char]) <> None.
Proof.
  revert w. induction a as [|x a IH]; intros w Ha H.
  - destruct w as [|c w]; cbn [app strip_prefix] in *; [discriminate|].
    destruct (Ascii.eqb "'"%char c); [discriminate | exact H].
  - cbn [forallb] in Ha. apply andb_prop in Ha. destruct Ha as [Hx Ha].
    destruct w as [|c w]; cbn [app strip_prefix] in *.
    + rewrite Ascii.eqb_sym in Hx. apply negb_true_iff in Hx.
      rewrite Ascii.eqb_sym in Hx. rewrite Hx in H. contradiction.
    + destruct (Ascii.eqb x c); [apply IH; assumption | exact H].
Qed.

Lemma match_for_key_over_value (v z : list ascii) :
  occurs for_key (v ++ ["'"%char]) = false ->
  match_for_key (v ++ "'"%char :: z) = match_for_key ("'"%char :: z).
Proof.
  induction v as [|c v IH]; intros H; [reflexivity|].
  cbn [app occurs] in H.
  destruct (strip_prefix for_key (c :: v ++ ["'"%char])) eqn:E; [discriminate H|].
  cbn [app]. rewrite match_for_key_skip; [apply IH; exact H|].
  destruct (strip_prefix for_key (c :: v ++ "'"%char :: z)) eqn:E2; [|reflexivity].
  exfalso.
  apply (strip_prefix_before_quote (chars "for key ") (c :: v) z).
  - reflexivity.
  - change (chars "for key " ++ ["'"%char])%list with for_key.
    cbn [app]. rewrite E2. discriminate.
  - change (chars "for key " ++ ["'"%char])%list with for_key.
    cbn [app]. exact E.
Qed.

Lemma match_for_key_absent (s : list ascii) :
  occurs for_key s = false -> match_for_key s = None.
Proof.
  induction s as [|c s IH]; intros H; [reflexivity|].
  cbn [occurs] in H.
  destruct (strip_prefix for_key (c :: s)) eqn:E; [discriminate H|].
  rewrite match_for_key_skip by exact E. apply IH. exact H.
Qed.

Lemma match_for_key_sound (s g : list ascii) :
  match_for_key s = Some g ->
  g <> [] /\ exists pre post, s = (pre ++ for_key ++ g ++ "'"%char :: post)%list.
Proof.
  induction s as [|c s IH]; intros H; [discriminate H|].
  cbn [match_for_key] in H.
  destruct (strip_prefix (chars "for key '") (c :: s)) as [rest|] eqn:E.
  - destruct (greedy_group rest) as [g0|] eqn:G.
    + inversion H; subst g0. clear H.
      apply strip_prefix_app in E.
      unfold greedy_group in G.
      destruct (line_of_split rest) as [tail Ht].
      destruct (line_of rest) as [|x r]; [discriminate G|].
      destruct (up_to_last_quote r) as [q|] eqn:Q; [|discriminate G].
      inversion G; subst g. split; [discriminate|].
      destruct (up_to_last_quote_split r q Q) as [tail2 Hr].
      exists [], (tail2 ++ tail)%list. rewrite E, Ht, Hr. cbn [app].
      unfold for_key. rewrite <- !app_assoc. reflexivity.
    + destruct (IH H) as (Hne & pre & post & Hs).
      split; [exact Hne|]. exists (c :: pre), post. rewrite Hs. reflexivity.
  - destruct (IH H) as (Hne & pre & post & Hs).
    split; [exact Hne|]. exists (c :: pre), post. rewrite Hs. reflexivity.
Qed.

(** X1: from the message MySQL writes for a duplicate entry,
    [extractDuplicateField] returns the name of the index, whenever the
    words [for key '] do not occur in the duplicated value followed by
    its closing apostrophe, and the name is not empty and has no line
    terminator. *)
Theorem extractDuplicateField_reads_index (v k : string) :
  occurs for_key (chars (v ++ "'")) = false ->
  k <> "" ->
  line_of (chars k) = chars k ->
  Repo.extractDuplicateField (duplicate_message v k) = k.
Proof.
  intros Hv Hk Hline.
  assert (Hm : match_for_key (chars (duplicate_message v k)) = Some (chars k)).
  { unfold duplicate_message. rewrite !chars_append.
    rewrite chars_append in Hv.
    change (chars "Duplicate entry '" ++ chars v ++ chars "' for key '" ++ chars k ++ chars "'")%list
      with (chars "Duplicate entry '"
            ++ (chars v ++ "'"%char :: " "%char :: (for_key ++ chars k ++ ["'"%char])))%list.
    transitivity (match_for_key (chars v ++ "'"%char :: " "%char
                                 :: (for_key ++ chars k ++ ["'"%char]))%list);
      [reflexivity|].
    rewrite (match_for_key_over_value (chars v) _ Hv).
    transitivity (match_for_key (for_key ++ chars k ++ ["'"%char])); [reflexivity|].
    apply match_for_key_hit; [|exact Hline].
    intros Hnil. apply Hk. rewrite <- (str_chars k), Hnil. reflexivity. }
  unfold Repo.extractDuplicateField. rewrite Hm. apply str_chars.
Qed.

(** X1 at the message of the comment in the source. *)
Lemma extractDuplicateField_reads_index_witness :
  Repo.extractDuplicateField "Duplicate entry 'test@example.com' for key 'users.email'"
  = "users.email".
Proof.
  apply (extractDuplicateField_reads_index "test@example.com" "users.email").
  - vm_compute. reflexivity.
  - discriminate.
  - vm_compute. reflexivity.
Defined.

(** X2: what [extractDuplicateField] returns is never empty, and it is
    either [unknown] or a text that stands in the message between the
    words [for key '] and an apostrophe. *)
Theorem extractDuplicateField_returns_text_of_message (m : string) :
  Repo.extractDuplicateField m <> "" /\
  (Repo.extractDuplicateField m = "unknown" \/
   exists pre post,
     m = pre ++ "for key '" ++ Repo.extractDuplicateField m ++ "'" ++ post).
Proof.
  unfold Repo.extractDuplicateField.
  destruct (match_for_key (chars m)) as [g|] eqn:E.
  - destruct (match_for_key_sound _ _ E) as (Hne & pre & post & Hs).
    split.
    + intros H. apply Hne. rewrite <- (chars_str g), H. reflexivity.
    + right. exists (str pre), (str post).
      rewrite <- (str_chars m), Hs, !str_app. unfold for_key. rewrite str_chars.
      reflexivity.
  - split; [discriminate | left; reflexivity].
Qed.

(** X3: a message in which the words [for key '] do not occur gives
    [unknown]. *)
Theorem extractDuplicateField_unknown (m : string) :
  occurs for_key (chars m) = false -> Repo.extractDuplicateField m = "unknown".
Proof.
  intros H. unfold Repo.extractDuplicateField.
  rewrite (match_for_key_absent _ H). reflexivity.
Qed.

Lemma extractDuplicateField_unknown_witness :
  Repo.extractDuplicateField "Field 'email' doesn't have a default value" = "unknown".
Proof.
  apply extractDuplicateField_unknown. vm_compute. reflexivity.
Defined.

(* ------------------------------------------------------------------ *)
(** *** The extractor of the exception filter *)

Lemma first_and_last_quote (r : list ascii) :
  match ExceptionFilter.up_to_first_quote r, up_to_last_quote r with
  | Some p1, Some p2 => exists q, p2 = (p1 ++ q)%list
  | None, None => True
  | _, _ => False
  end.
Proof.
  induction r as [|c r IH]; [exact I|].
  cbn [ExceptionFilter.up_to_first_quote up_to_last_quote].
  destruct (Ascii.eqb c "'"%char).
  - destruct (up_to_last_quote r) as [p|]; eexists; reflexivity.
  - destruct (ExceptionFilter.up_to_first_quote r) as [p1|],
             (up_to_last_quote r) as [p2|]; try exact IH.
    destruct IH as [q Hq]. exists q. rewrite Hq. reflexivity.
Qed.

Lemma lazy_and_greedy_group (l : list ascii) :
  match ExceptionFilter.lazy_group l, greedy_group l with
  | Some g1, Some g2 => g1 <> [] /\ exists q, g2 = (g1 ++ q)%list
  | None, None => True
  | _, _ => False
  end.
Proof.
  unfold ExceptionFilter.lazy_group, greedy_group.
  destruct (line_of l) as [|c r]; [exact I|].
  pose proof (first_and_last_quote r) as H.
  destruct (ExceptionFilter.up_to_first_quote r) as [p1|],
           (up_to_last_quote r) as [p2|]; try exact H.
  destruct H as [q Hq]. split; [discriminate|]. exists q. rewrite Hq. reflexivity.
Qed.

Lemma lazy_and_greedy_match (s : list ascii) :
  match ExceptionFilter.match_for_key_lazy s, match_for_key s with
  | Some g1, Some g2 => g1 <> [] /\ exists q, g2 = (g1 ++ q)%list
  | None, None => True
  | _, _ => False
  end.
Proof.
  induction s as [|c s IH]; [exact I|].
  cbn [ExceptionFilter.match_for_key_lazy match_for_key].
  destruct (strip_prefix (chars "for key '") (c :: s)) as [rest|]; [|exact IH].
  pose proof (lazy_and_greedy_group rest) as H.
  destruct (ExceptionFilter.lazy_group rest) as [g1|], (greedy_group rest) as [g2|];
    try exact H; try contradiction.
  exact IH.
Qed.

(** X4: the extractor of the exception filter finds a name exactly when
    the extractor of the repository finds one, and the name it finds is
    a non-empty prefix of the repository's, with its first [users.]
    taken out. *)
Theorem filter_extracts_prefix_of_repository (m : string) :
  (Repo.extractDuplicateField m = "unknown" /\
   ExceptionFilter.extractDuplicateField m = "unknown") \/
  (exists g q,
      g <> "" /\
      Repo.extractDuplicateField m = g ++ q /\
      ExceptionFilter.extractDuplicateField m
      = str (ExceptionFilter.replace_first (chars "users.") [] (chars g))).
Proof.
  unfold Repo.extractDuplicateField, ExceptionFilter.extractDuplicateField.
  pose proof (lazy_and_greedy_match (chars m)) as H.
  destruct (ExceptionFilter.match_for_key_lazy (chars m)) as [g1|],
           (match_for_key (chars m)) as [g2|]; try contradiction.
  - destruct H as (Hne & q & Hq). right. exists (str g1), (str q).
    split; [|split].
    + intros E. apply Hne. rewrite <- (chars_str g1), E. reflexivity.
    + rewrite Hq. apply str_app.
    + rewrite chars_str. reflexivity.
  - left. split; reflexivity.
Qed.

Lemma up_to_first_quote_end (r : list ascii) :
  forallb (fun c => negb (Ascii.eqb c "'"%char)) r = true ->
  ExceptionFilter.up_to_first_quote (r ++ ["'"%char]) = Some r.
Proof.
  induction r as [|c r IH]; intros H; [reflexivity|].
  cbn [forallb] in H. apply andb_prop in H. destruct H as [Hc Hr].
  apply negb_true_iff in Hc. cbn [app ExceptionFilter.up_to_first_quote].
  rewrite Hc, (IH Hr). reflexivity.
Qed.

Lemma replace_first_prefix (p rest : list ascii) :
  ExceptionFilter.replace_first p [] (p ++ rest) = rest.
Proof.
  destruct p as [|a p].
  - destruct rest; reflexivity.
  - cbn [ExceptionFilter.replace_first app].
    pose proof (strip_prefix_self (a :: p) rest) as H. cbn [app] in H.
    rewrite H. reflexivity.
Qed.

Lemma match_for_key_lazy_skip (c : ascii) (s : list ascii) :
  strip_prefix for_key (c :: s) = None ->
  ExceptionFilter.match_for_key_lazy (c :: s) = ExceptionFilter.match_for_key_lazy s.
Proof.
  intros H. cbn [ExceptionFilter.match_for_key_lazy]. unfold for_key in H. rewrite H.
  reflexivity.
Qed.

Lemma match_for_key_lazy_over_value (v z : list ascii) :
  occurs for_key (v ++ ["'"%char]) = false ->
  ExceptionFilter.match_for_key_lazy (v ++ "'"%char :: z)
  = ExceptionFilter.match_for_key_lazy ("'"%char :: z).
Proof.
  induction v as [|c v IH]; intros H; [reflexivity|].
  cbn [app occurs] in H.
  destruct (strip_prefix for_key (c :: v ++ ["'"%char])) eqn:E; [discriminate H|].
  cbn [app]. rewrite match_for_key_lazy_skip; [apply IH; exact H|].
  destruct (strip_prefix for_key (c :: v ++ "'"%char :: z)) eqn:E2; [|reflexivity].
  exfalso.
  apply (strip_prefix_before_quote (chars "for key ") (c :: v) z).
  - reflexivity.
  - change (chars "for key " ++ ["'"%char])%list with for_key.
    cbn [app]. rewrite E2. discriminate.
  - change (chars "for key " ++ ["'"%char])%list with for_key.
    cbn [app]. exact E.
Qed.

Lemma match_for_key_lazy_hit (c : ascii) (r : list ascii) :
  line_of (c :: r) = c :: r ->
  forallb (fun x => negb (Ascii.eqb x "'"%char)) r = true ->
  ExceptionFilter.match_for_key_lazy (for_key ++ (c :: r) ++ ["'"%char]) = Some (c :: r).
Proof.
  intros Hline Hq.
  assert (Hg : ExceptionFilter.lazy_group ((c :: r) ++ ["'"%char]) = Some (c :: r)).
  { unfold ExceptionFilter.lazy_group. rewrite (line_of_quote (c :: r) Hline).
    cbn [app]. rewrite (up_to_first_quote_end r Hq). reflexivity. }
  unfold for_key. cbn [chars list_ascii_of_string app ExceptionFilter.match_for_key_lazy].
  pose proof (strip_prefix_self (chars "for key '") ((c :: r) ++ ["'"%char])) as Hs.
  cbn [chars list_ascii_of_string app] in Hs. rewrite Hs.
  cbn [app] in Hg. rewrite Hg. reflexivity.
Qed.

(** X5: from the message MySQL writes for a duplicate entry on the index
    [users.<name>], the extractor of the exception filter returns
    [<name>], whenever the words [for key '] do not occur in the
    duplicated value followed by its closing apostrophe, and the name
    has no apostrophe and no line terminator. *)
Theorem filter_extract_drops_table_name (v name : string) :
  occurs for_key (chars (v ++ "'")) = false ->
  line_of (chars name) = chars name ->
  forallb (fun c => negb (Ascii.eqb c "'"%char)) (chars name) = true ->
  ExceptionFilter.extractDuplicateField (duplicate_message v ("users." ++ name)) = name.
Proof.
  intros Hv Hline Hq.
  assert (Hm : ExceptionFilter.match_for_key_lazy
                 (chars (duplicate_message v ("users." ++ name)))
               = Some (chars "users." ++ chars name)%list).
  { unfold duplicate_message. rewrite !chars_append.
    rewrite chars_append in Hv.
    change (chars "Duplicate entry '" ++ chars v ++ chars "' for key '"
            ++ (chars "users." ++ chars name) ++ chars "'")%list
      with (chars "Duplicate entry '"
            ++ (chars v ++ "'"%char :: " "%char
                :: (for_key ++ (chars "users." ++ chars name) ++ ["'"%char])))%list.
    transitivity (ExceptionFilter.match_for_key_lazy
                    (chars v ++ "'"%char :: " "%char
                     :: (for_key ++ (chars "users." ++ chars name) ++ ["'"%char]))%list);
      [reflexivity|].
    rewrite (match_for_key_lazy_over_value (chars v) _ Hv).
    transitivity (ExceptionFilter.match_for_key_lazy
                    (for_key ++ (chars "users." ++ chars name) ++ ["'"%char]));
      [reflexivity|].
    cbn [chars list_ascii_of_string app]. fold (chars name).
    apply (match_for_key_lazy_hit "u"%char
             ("s"%char :: "e"%char :: "r"%char :: "s"%char :: "."%char :: chars name)).
    - rewrite !line_of_cons. cbn [nat_of_ascii Nat.eqb orb andb]. rewrite Hline. reflexivity.
    - cbn [forallb Ascii.eqb Bool.eqb negb andb]. exact Hq. }
  unfold ExceptionFilter.extractDuplicateField. rewrite Hm.
  rewrite replace_first_prefix. apply str_chars.
Qed.

Lemma filter_extract_drops_table_name_witness :
  ExceptionFilter.extractDuplicateField
    "Duplicate entry 'test@example.com' for key 'users.email'" = "email".
Proof.
  apply (filter_extract_drops_table_name "test@example.com" "email");
    vm_compute; reflexivity.
Defined.

(* ================================================================== *)
(** ** Further properties: what the methods throw *)
(* ================================================================== *)

Lemma findOne_throws (id : number) (t : table) (e : thrown) :
  fst (Repo.findOne id t) = Throw e ->
  (id = NaN /\ e = Http (BadRequestException "Invalid id format")) \/
  (id <> NaN /\ e = Http (NotFoundException (not_found_message id))).
Proof.
  unfold Repo.findOne, bind, Orm.findOne. destruct id as [|z]; cbn [isNaN].
  - intros H. inversion H. left. split; reflexivity.
  - destruct (find (has_id z) (rows t)); cbn; intros H; inversion H.
    right. split; [discriminate | reflexivity].
Qed.

Lemma translate_throws {A : Type} (e : thrown) (t : table) :
  exists m, @translate A e t = (Throw (Http (ConflictException m)), t) \/
            @translate A e t = (Throw (Http (InternalServerErrorException m)), t).
Proof.
  rewrite translate_cases. destruct (is_dup e); eexists; [left | right]; reflexivity.
Qed.

Lemma create_throws (entity : row) (t : table) (e : thrown) :
  fst (Repo.create entity t) = Throw e ->
  exists m, e = Http (ConflictException m) \/ e = Http (InternalServerErrorException m).
Proof.
  rewrite create_unfold. destruct (stores entity t) as [[r|e0] t']; [discriminate|].
  destruct (@translate_throws row e0 t') as [m [Hm|Hm]]; rewrite Hm; cbn;
    intros H; inversion H; exists m; [left | right]; reflexivity.
Qed.

Lemma update_throws (id : number) (entity : row) (t : table) (e : thrown) :
  fst (Repo.update id entity t) = Throw e ->
  (id = NaN /\ e = Http (BadRequestException "Invalid id format")) \/
  (id <> NaN /\
   exists m, e = Http (ConflictException m) \/ e = Http (InternalServerErrorException m)).
Proof.
  unfold Repo.update. destruct id as [|z]; cbn [isNaN].
  - intros H. inversion H. left. split; reflexivity.
  - intros H. right. split; [discriminate|].
    unfold try_catch in H.
    destruct (bind _ _ t) as [[r|e0] t']; [discriminate H|].
    destruct (@translate_throws row e0 t') as [m [Hm|Hm]]; rewrite Hm in H; cbn in H;
      inversion H; exists m; [left | right]; reflexivity.
Qed.

(** X6: [update] never fails with not found.  It fails with a bad
    request exactly when the id is [NaN], and every other failure is a
    conflict or an internal error. *)
Theorem update_never_throws_not_found (id : number) (entity : row) (t : table) (e : thrown) :
  fst (Repo.update id entity t) = Throw e ->
  (forall m, e <> Http (NotFoundException m)) /\
  (id = NaN <-> exists m, e = Http (BadRequestException m)) /\
  (id <> NaN ->
   exists m, e = Http (ConflictException m) \/ e = Http (InternalServerErrorException m)).
Proof.
  intros H. destruct (update_throws id entity t e H) as [[Hid He]|[Hid (m & [He|He])]];
    subst e; (split; [intros m'; discriminate|]); split.
  - split; [eauto | intros _; exact Hid].
  - intros Hne. contradiction.
  - split; [intros Hn; contradiction | intros (m' & Hm'); discriminate Hm'].
  - intros _. eauto.
  - split; [intros Hn; contradiction | intros (m' & Hm'); discriminate Hm'].
  - intros _. eauto.
Qed.

Lemma update_never_throws_not_found_witness :
  (forall m, Http (InternalServerErrorException "Entity with id 7 not found")
             <> Http (NotFoundException m)) /\
  (Num 7 = NaN <-> exists m, Http (InternalServerErrorException "Entity with id 7 not found")
                             = Http (BadRequestException m)) /\
  (Num 7 <> NaN ->
   exists m, Http (InternalServerErrorException "Entity with id 7 not found")
             = Http (ConflictException m) \/
             Http (InternalServerErrorException "Entity with id 7 not found")
             = Http (InternalServerErrorException m)).
Proof.
  apply (update_never_throws_not_found (Num 7) [("name", SText "Carol")] users).
  vm_compute. reflexivity.
Defined.

(** X7: the statuses a client gets through the exception filter.  A
    failure of [findAll] is always a 500; of [findOne] a 400 for [NaN]
    and else a 404; of [create] a 409 or a 500; of [update] a 400 for
    [NaN] and else a 409 or a 500.  In every case the body carries the
    message of the exception, the URL and the time as given. *)
Theorem repository_failures_at_the_client (url now : string) :
  (forall (policy : ColumnPolicy) p t e,
      fst (findAll p t) = Throw e ->
      ExceptionFilter.statusCode (ExceptionFilter.catch e url now) = 500%Z) /\
  (forall id t e,
      fst (Repo.findOne id t) = Throw e ->
      ExceptionFilter.statusCode (ExceptionFilter.catch e url now)
      = if isNaN id then 400%Z else 404%Z) /\
  (forall entity t e,
      fst (Repo.create entity t) = Throw e ->
      ExceptionFilter.statusCode (ExceptionFilter.catch e url now) = 409%Z \/
      ExceptionFilter.statusCode (ExceptionFilter.catch e url now) = 500%Z) /\
  (forall id entity t e,
      fst (Repo.update id entity t) = Throw e ->
      if isNaN id
      then ExceptionFilter.statusCode (ExceptionFilter.catch e url now) = 400%Z
      else ExceptionFilter.statusCode (ExceptionFilter.catch e url now) = 409%Z \/
           ExceptionFilter.statusCode (ExceptionFilter.catch e url now) = 500%Z) /\
  (forall e,
      ExceptionFilter.path (ExceptionFilter.catch e url now) = url /\
      ExceptionFilter.timestamp (ExceptionFilter.catch e url now) = now /\
      forall h, e = Http h ->
                ExceptionFilter.message (ExceptionFilter.catch e url now) = message_of e).
Proof.
  split; [|split; [|split; [|split]]].
  - intros policy p t e H. destruct (findAll_throws_internal p t e H) as [m ->]. reflexivity.
  - intros id t e H. destruct (findOne_throws id t e H) as [[-> ->]|[Hid ->]]; [reflexivity|].
    destruct id; [contradiction | reflexivity].
  - intros entity t e H. destruct (create_throws entity t e H) as [m [->| ->]]; auto.
  - intros id entity t e H.
    destruct (update_throws id entity t e H) as [[-> ->]|[Hid (m & [->| ->])]];
      [reflexivity | |]; (destruct id; [contradiction|]); cbn [isNaN];
      [left | right]; reflexivity.
  - intros e. unfold ExceptionFilter.catch.
    destruct e as [h|d|m]; [| destruct (String.eqb (code d) "ER_DUP_ENTRY") |];
      (split; [reflexivity|]); (split; [reflexivity|]); intros h' E; try discriminate E.
    reflexivity.
Qed.

(** X7 on the users: the update of the absent key 7 reaches the client
    as a 500. *)
Lemma repository_failures_at_the_client_witness :
  ExceptionFilter.statusCode
    (ExceptionFilter.catch
       (Http (InternalServerErrorException "Entity with id 7 not found")) "/users/7" "now")
  = 500%Z \/
  ExceptionFilter.statusCode
    (ExceptionFilter.catch
       (Http (InternalServerErrorException "Entity with id 7 not found")) "/users/7" "now")
  = 409%Z.
Proof.
  destruct (repository_failures_at_the_client "/users/7" "now") as (_ & _ & _ & Hu & _).
  destruct (Hu (Num 7) [("name", SText "Carol")] users
               (Http (InternalServerErrorException "Entity with id 7 not found")) eq_refl)
    as [H|H]; [right | left]; exact H.
Defined.

(** X8: [findAll] never writes to the table, and whatever it throws is
    an internal error: never a bad request, not found or conflict. *)
Theorem findAll_reads_only_and_fails_internal {policy : ColumnPolicy}
        (p : AbstractPaginationDto) (t : table) :
  snd (findAll p t) = t /\
  forall e, fst (findAll p t) = Throw e ->
            exists m, e = Http (InternalServerErrorException m) /\
                      kind_of (InternalServerErrorException m) = Internal.
Proof.
  split; [apply findAll_state|].
  intros e H. destruct (findAll_throws_internal p t e H) as [m ->].
  exists m. split; reflexivity.
Qed.

(* ================================================================== *)
(** ** Further properties: [findAll] *)
(* ================================================================== *)

Lemma parse_empty : Json.parse "" = None.
Proof. reflexivity. Qed.

(** X9: every row [findAll] returns is a row of the table; for every
    key of a filters object, the engine takes the equality of that key
    with its value and finds it true of the row; and, when a search
    applies, one of the searchable columns of the row is LIKE the
    pattern. *)
Theorem findAll_returns_matching_rows {policy : ColumnPolicy}
        (p : AbstractPaginationDto) (t : table) (res : PaginatedResult) (r : row) :
  fst (findAll p t) = Return res ->
  In r (data res) ->
  In r (rows t) /\
  (forall text props k,
      filters p = Some text -> Json.parse text = Some (JObject props) ->
      In k (map fst props) ->
      exists test, compare t k (assoc props k) = inr test /\ test r = true) /\
  (forall text,
      search p = Some text -> text <> "" -> getSearchableColumns <> [] ->
      exists c, In c getSearchableColumns /\
                sql_like ("%" ++ text ++ "%") (cell t r c) = true).
Proof.
  intros Hres Hin.
  destruct (findAll_returns p t res Hres) as (q & Hq & _ & _).
  destruct (returned_row_matches p q t res r Hq Hres Hin) as [Hrow Hm].
  split; [exact Hrow|].
  unfold executed_query in Hq.
  destruct (filtered_builder p) as [qb|] eqn:Hqb; [|discriminate Hq].
  cbn [option_map] in Hq. inversion Hq; subst q. clear Hq.
  destruct (finishQuery_shape qb p) as (Hfw & Hfp & _).
  split.
  - intros text props k Hf Hparse Hk.
    assert (Hne : String.eqb text "" = false).
    { destruct (String.eqb text "") eqn:E; [|reflexivity].
      apply String.eqb_eq in E. subst. rewrite parse_empty in Hparse. discriminate Hparse. }
    unfold filtered_builder, applyFilters in Hqb. rewrite Hf in Hqb. cbn [truthy] in Hqb.
    rewrite Hne, Hparse in Hqb. cbn [negb Object_keys] in Hqb.
    destruct (forEach (filterEach (JObject props)) (map fst props) 0 (createQueryBuilder "e"))
      as [qb' [e|]] eqn:E; [discriminate Hqb|].
    inversion Hqb; subst qb'.
    destruct (filter_forEach_shape _ _ _ _ _ E) as (Hw & Hp & _).
    cbn [createQueryBuilder wheres parameters app] in Hw, Hp.
    rewrite (matches_meaning t _ (JObject props) (map fst props) (search p) r) in Hm.
    + apply andb_prop in Hm. destruct Hm as [Hfil _].
      unfold filters_hold in Hfil. rewrite forallb_forall in Hfil.
      specialize (Hfil k Hk). unfold holds in Hfil. cbn [get] in Hfil.
      destruct (compare t k (assoc props k)) as [d|test]; [discriminate Hfil|].
      exists test. split; [reflexivity | exact Hfil].
    + rewrite Hfw, Hw. reflexivity.
    + rewrite Hfp, Hp. reflexivity.
  - intros text Hs Hne Hcols.
    rewrite (search_meaning p qb text t r Hqb Hs Hne Hcols) in Hm.
    apply andb_prop in Hm. destruct Hm as [_ Hex].
    apply existsb_exists in Hex. exact Hex.
Qed.

(** X9 on the users: Bob is returned for the filter on his key, written
    as a string, and the search for his address. *)
Lemma findAll_returns_matching_rows_witness :
  In [("id", SInt 2); ("name", SText "Bob"); ("email", SText "alice@y.com");
      ("isActive", SInt 1); ("createdAt", SText "2024-01-02")] (rows users) /\
  (exists test,
      compare users "id" (Some (JString "2")) = inr test /\
      test [("id", SInt 2); ("name", SText "Bob"); ("email", SText "alice@y.com");
            ("isActive", SInt 1); ("createdAt", SText "2024-01-02")] = true) /\
  (exists c, In c (@getSearchableColumns user_policy) /\
             sql_like "%ALICE%"
                      (cell users [("id", SInt 2); ("name", SText "Bob");
                                   ("email", SText "alice@y.com");
                                   ("isActive", SInt 1); ("createdAt", SText "2024-01-02")] c)
             = true).
Proof.
  destruct (@findAll_returns_matching_rows user_policy
              {| page := 1; limit := 10; sortBy := None; order := None;
                 search := Some "ALICE"; filters := Some (with_dquotes "{'id':'2'}") |}
              users
              {| data := [ [("id", SInt 2); ("name", SText "Bob"); ("email", SText "alice@y.com");
                            ("isActive", SInt 1); ("createdAt", SText "2024-01-02")] ];
                 total := 1; result_page := 1; result_limit := 10 |}
              [("id", SInt 2); ("name", SText "Bob"); ("email", SText "alice@y.com");
               ("isActive", SInt 1); ("createdAt", SText "2024-01-02")])
    as (Hrow & Hfilter & Hsearch).
  - vm_compute. reflexivity.
  - left. reflexivity.
  - split; [exact Hrow|]. split.
    + apply (Hfilter (with_dquotes "{'id':'2'}") [("id", JString "2")] "id").
      * reflexivity.
      * vm_compute. reflexivity.
      * left. reflexivity.
    + apply (Hsearch "ALICE"); [reflexivity | discriminate | discriminate].
Defined.

(** X10: a filters payload that is a JSON boolean or number adds no
    predicate: the request is answered like the request without
    filters.  The payload [null] is an internal error, like a payload
    that does not parse. *)
Theorem findAll_scalar_filters {policy : ColumnPolicy}
        (p : AbstractPaginationDto) (text : string) (v : value) (t : table) :
  filters p = Some text -> Json.parse text = Some v ->
  ((exists b, v = JBool b) \/ (exists m e, v = JNumber m e) ->
   findAll p t = findAll (with_filters p None) t) /\
  (v = JNull ->
   findAll p t = (Throw (Http (InternalServerErrorException "Invalid filters JSON")), t)).
Proof.
  intros Hf Hparse.
  assert (Hne : String.eqb text "" = false).
  { destruct (String.eqb text "") eqn:E; [|reflexivity].
    apply String.eqb_eq in E. subst. rewrite parse_empty in Hparse. discriminate Hparse. }
  rewrite !findAll_unfold. unfold executed_query, filtered_builder.
  cbn [with_filters filters]. rewrite Hf. cbn [truthy]. rewrite Hne. cbn [negb].
  unfold applyFilters. rewrite Hparse.
  split.
  - intros [[b ->]|(m & e & ->)]; reflexivity.
  - intros ->. reflexivity.
Qed.

Lemma findAll_scalar_filters_witness :
  @findAll user_policy (with_filters first_page (Some "true")) users
  = @findAll user_policy (with_filters (with_filters first_page (Some "true")) None) users.
Proof.
  apply (proj1 (@findAll_scalar_filters user_policy
                  (with_filters first_page (Some "true")) "true" (JBool true) users
                  eq_refl eq_refl)).
  left. exists true. reflexivity.
Defined.

(** X11: the text of [search] is never part of a condition.  Two
    requests that differ only in their non-empty search text build the
    same conditions, sort and page, and bind the same parameter names. *)
Theorem search_text_is_only_bound {policy : ColumnPolicy}
        (p : AbstractPaginationDto) (text1 text2 : string) (q1 q2 : query) :
  text1 <> "" -> text2 <> "" ->
  executed_query (with_search p (Some text1)) = Some q1 ->
  executed_query (with_search p (Some text2)) = Some q2 ->
  wheres q1 = wheres q2 /\
  map fst (parameters q1) = map fst (parameters q2) /\
  orderBys q1 = orderBys q2 /\
  skip_rows q1 = skip_rows q2 /\
  take_rows q1 = take_rows q2.
Proof.
  intros H1 H2 Hq1 Hq2. unfold executed_query in *.
  change (filtered_builder (with_search p (Some text1))) with (filtered_builder p) in Hq1.
  change (filtered_builder (with_search p (Some text2))) with (filtered_builder p) in Hq2.
  destruct (filtered_builder p) as [qb|]; [|discriminate Hq1].
  cbn [option_map] in Hq1, Hq2. inversion Hq1; subst q1. inversion Hq2; subst q2.
  destruct (finishQuery_shape qb (with_search p (Some text1))) as (Hw1 & Hp1 & Ho1 & Hs1 & Ht1 & _).
  destruct (finishQuery_shape qb (with_search p (Some text2))) as (Hw2 & Hp2 & Ho2 & Hs2 & Ht2 & _).
  rewrite Hw1, Hw2, Hp1, Hp2, Ho1, Ho2, Hs1, Hs2, Ht1, Ht2.
  cbn [with_search search sortBy order page limit].
  assert (Ha : search_applies (Some text1) = search_applies (Some text2)).
  { unfold search_applies. cbn [truthy].
    apply String.eqb_neq in H1. apply String.eqb_neq in H2. rewrite H1, H2. reflexivity. }
  unfold search_clauses, search_params. rewrite Ha.
  repeat split.
  rewrite !map_app. f_equal.
  destruct (search_applies (Some text2)); [|reflexivity].
  unfold like_params. rewrite !map_map. reflexivity.
Qed.

Lemma search_text_is_only_bound_witness :
  wheres (@finishQuery user_policy (createQueryBuilder "e")
            (with_search first_page (Some "bob")))
  = wheres (@finishQuery user_policy (createQueryBuilder "e")
              (with_search first_page (Some "x' OR 1=1 --"))).
Proof.
  apply (@search_text_is_only_bound user_policy first_page "bob" "x' OR 1=1 --"
           _ _).
  - discriminate.
  - discriminate.
  - reflexivity.
  - reflexivity.
Defined.

(** X12 on the users: a request without filters is answered. *)
Lemma findAll_returns_without_filters_witness :
  exists res, fst (@findAll user_policy first_page users) = Return res.
Proof.
  apply (@findAll_returns_without_filters user_policy first_page users).
  - reflexivity.
  - vm_compute. discriminate.
  - split; [vm_compute; discriminate | reflexivity].
  - reflexivity.
  - intros c [<-|[<-|[]]]; vm_compute; tauto.
  - intros c [<-|[<-|[<-|[<-|[]]]]]; vm_compute; tauto.
  - vm_compute. tauto.
Defined.

(* ================================================================== *)
(** ** Further properties: how the point operations compose *)
(* ================================================================== *)


Lemma field_merge (old changes : row) (c : string) :
  has_field changes c = true -> has_field old c = true ->
  field (merge old changes) c = field changes c.
Proof.
  intros Hc. unfold merge, has_field.
  induction old as [|[c' v] old IH]; simpl; [discriminate|].
  destruct (String.eqb c' c) eqn:E.
  - intros _. apply String.eqb_eq in E. subst c'.
    fold (has_field changes c). rewrite Hc. simpl. rewrite String.eqb_refl. reflexivity.
  - simpl. intros Ho.
    destruct (existsb (fun cv => String.eqb (fst cv) c') changes); simpl; rewrite E;
      apply IH; exact Ho.
Qed.

Lemma find_map_some {A : Type} (g : A -> bool) (f : A -> A) (l : list A) (r : A) :
  find g (map f l) = Some r -> exists x, In x l /\ r = f x /\ g (f x) = true.
Proof.
  induction l as [|x l IH]; simpl; [discriminate|].
  destruct (g (f x)) eqn:E.
  - intros H. inversion H; subst. exists x. auto.
  - intros H. destruct (IH H) as (y & Hy & Hr & Hg). exists y. auto.
Qed.

Lemma find_replaced (z : Z) (r : row) (l : list row) (old : row) :
  has_id z r = true -> In old l -> has_id z old = true ->
  find (has_id z) (replace_row z r l) = Some r.
Proof.
  intros Hr Hin Hold. unfold replace_row.
  induction l as [|x l IH]; [destruct Hin|].
  simpl. destruct (has_id z x) eqn:E.
  - rewrite Hr. reflexivity.
  - rewrite E. apply IH. destruct Hin as [->|Hin]; [congruence | exact Hin].
Qed.

Lemma find_app_last {A : Type} (g : A -> bool) (l : list A) (r : A) :
  find g l = None -> g r = true -> find g (l ++ [r]) = Some r.
Proof.
  intros Hn Hr. induction l as [|x l IH]; simpl in *; [rewrite Hr; reflexivity|].
  destruct (g x); [discriminate Hn | apply IH; exact Hn].
Qed.

Lemma find_filter_same {A : Type} (g h : A -> bool) (l : list A) :
  (forall x, g x = true -> h x = true) -> find g (filter h l) = find g l.
Proof.
  intros H. induction l as [|x l IH]; [reflexivity|].
  simpl. destruct (h x) eqn:Eh; simpl.
  - rewrite IH. reflexivity.
  - destruct (g x) eqn:Eg; [|exact IH].
    rewrite (H x Eg) in Eh. discriminate Eh.
Qed.


(** The table an update leaves when it returns. *)
Lemma orm_update_returns (z : Z) (entity : row) (t t' : table) (n : nat) :
  Orm.update (Num z) entity t = (Return n, t') ->
  t' = with_rows t (map (fun x => if has_id z x then merge x entity else x) (rows t))
                 (next_id t).
Proof.
  unfold Orm.update.
  destruct entity as [|cv entity]; [discriminate|].
  destruct (unknown_column t (map fst (cv :: entity))); [discriminate|].
  destruct (filter (has_id z) (rows t)) as [|x xs];
    [|destruct (nulled_required t (cv :: entity)); [discriminate|]];
    (destruct (first_violation t _ _) as [[v index]|]; [discriminate|]);
    intros H; inversion H; reflexivity.
Qed.

(** X13: when [update] returns, the row it returns is a row that had
    the key, with the columns the update names overwritten; it is the
    row [findOne] finds afterwards. *)
Theorem update_returns_merged_row (z : Z) (entity : row) (t t' : table) (r : row) :
  Repo.update (Num z) entity t = (Return r, t') ->
  exists old,
    In old (rows t) /\ has_id z old = true /\
    r = merge old entity /\
    (forall c, has_field entity c = true -> has_field old c = true ->
               field r c = field entity c) /\
    Repo.findOne (Num z) t' = (Return r, t').
Proof.
  intros H. destruct (update_returns_read_back z entity t t' r H) as (n & Hu & Hf).
  apply orm_update_returns in Hu. subst t'.
  pose proof Hf as Hfound.
  unfold Repo.findOne, bind, Orm.findOne in Hf. cbn [isNaN rows with_rows] in Hf.
  destruct (find (has_id z) (map _ (rows t))) as [r0|] eqn:E; [|discriminate Hf].
  inversion Hf; subst r0.
  apply find_map_some in E. destruct E as (x & Hx & Hr & Hg).
  destruct (has_id z x) eqn:Ex.
  - exists x. split; [exact Hx|]. split; [exact Ex|]. split; [exact Hr|].
    split; [|exact Hfound].
    intros c Hc Ho. rewrite Hr. apply field_merge; assumption.
  - rewrite Ex in Hg. discriminate Hg.
Qed.

Lemma update_returns_merged_row_witness :
  exists old,
    In old (rows users) /\ has_id 2 old = true /\
    [("id", SInt 2); ("name", SText "Bobby"); ("email", SText "alice@y.com");
     ("isActive", SInt 1); ("createdAt", SText "2024-01-02")]
    = merge old [("name", SText "Bobby")].
Proof.
  destruct (update_returns_merged_row 2 [("name", SText "Bobby")] users
              (snd (Repo.update (Num 2) [("name", SText "Bobby")] users))
              [("id", SInt 2); ("name", SText "Bobby"); ("email", SText "alice@y.com");
               ("isActive", SInt 1); ("createdAt", SText "2024-01-02")])
    as (old & H1 & H2 & H3 & _).
  - vm_compute. reflexivity.
  - exists old. split; [exact H1|]. split; [exact H2 | exact H3].
Defined.

(** A row that violates no unique index has a key no other row has. *)
Lemma fresh_key (t : table) (others : list row) (r : row) (z : Z) :
  violated_index t others r = None -> id_of r = SInt z ->
  find (has_id z) others = None.
Proof.
  intros Hv Hid. unfold violated_index, unique_indexes in Hv.
  destruct (find _ (("id", "PRIMARY") :: unique t)) as [[c index]|] eqn:Ef; [discriminate Hv|].
  pose proof (find_none _ _ Ef ("id", "PRIMARY") (or_introl eq_refl)) as Hp.
  cbn [fst] in Hp.
  destruct (find (has_id z) others) as [o|] eqn:Eo; [|reflexivity].
  apply find_some in Eo. destruct Eo as [Ho Hz].
  assert (Hex : existsb (fun o0 => value_eqb (field o0 "id") (field r "id")) others = true).
  { apply existsb_exists. exists o. split; [exact Ho|].
    apply has_id_key in Hz. unfold id_of in Hz, Hid. rewrite Hz, Hid.
    cbn. apply Z.eqb_refl. }
  rewrite Hex in Hp. discriminate Hp.
Qed.





(** X15: when [delete] returns, [findOne] of the deleted key fails with
    not found, and [findOne] of every other key answers as before. *)
Theorem delete_removes_only_that_key (z : Z) (t t' : table) :
  Repo.delete (Num z) t = (Return tt, t') ->
  fst (Repo.findOne (Num z) t')
  = Throw (Http (NotFoundException (not_found_message (Num z)))) /\
  forall z', z' <> z -> fst (Repo.findOne (Num z') t') = fst (Repo.findOne (Num z') t).
Proof.
  rewrite delete_unfold.
  destruct (Nat.eqb _ 0); [discriminate|]. intros H. inversion H; subst t'. clear H.
  split.
  - rewrite findOne_missing; [reflexivity|]. cbn [rows with_rows].
    destruct (find (has_id z) (filter _ (rows t))) as [o|] eqn:E; [|reflexivity].
    apply find_some in E. destruct E as [Ho Hz]. apply filter_In in Ho.
    destruct Ho as [_ Hn]. rewrite Hz in Hn. discriminate Hn.
  - intros z' Hne. unfold Repo.findOne, bind, Orm.findOne. cbn [isNaN rows with_rows].
    rewrite find_filter_same;
      [destruct (find (has_id z') (rows t)); reflexivity|].
    intros x Hx. apply has_id_key in Hx. unfold has_id. rewrite Hx.
    apply negb_true_iff. apply Z.eqb_neq. exact Hne.
Qed.

Lemma delete_removes_only_that_key_witness :
  fst (Repo.findOne (Num 2) (snd (Repo.delete (Num 2) users)))
  = Throw (Http (NotFoundException "Entity with id 2 not found")) /\
  forall z', z' <> 2%Z ->
             fst (Repo.findOne (Num z') (snd (Repo.delete (Num 2) users)))
             = fst (Repo.findOne (Num z') users).
Proof.
  apply (delete_removes_only_that_key 2 users). vm_compute. reflexivity.
Defined.

(* ================================================================== *)
(** ** Further properties: the earlier revision *)
(* ================================================================== *)

(** X16: whenever [findAll] returns, the [findAll] of the earlier
    revision returns the same page and leaves the same table: the later
    revision changed failures only. *)
Theorem legacy_findAll_agrees_on_success {policy : ColumnPolicy}
        (p : AbstractPaginationDto) (t : table) (res : PaginatedResult) :
  fst (findAll p t) = Return res ->
  Legacy.findAll p t = findAll p t.
Proof.
  intros H. rewrite legacy_findAll_unfold. rewrite findAll_unfold in *.
  unfold executed_query, filtered_builder, paginated in *.
  destruct (filters p) as [text|]; cbn [option_map] in *.
  - destruct (truthy (Some text)); cbn [option_map] in *.
    + destruct (applyFilters (createQueryBuilder "e") text) as [qb [|]];
        cbn [option_map fst] in *; [discriminate H|].
      destruct (getManyAndCount (finishQuery qb p) t) as [[r|e] t']; [reflexivity|].
      discriminate H.
    + destruct (getManyAndCount _ t) as [[r|e] t']; [reflexivity | discriminate H].
  - destruct (getManyAndCount _ t) as [[r|e] t']; [reflexivity | discriminate H].
Qed.

Lemma legacy_findAll_agrees_on_success_witness :
  @Legacy.findAll user_policy (with_search first_page (Some "bob")) users
  = @findAll user_policy (with_search first_page (Some "bob")) users.
Proof.
  apply (@legacy_findAll_agrees_on_success user_policy (with_search first_page (Some "bob")) users
           (match fst (@findAll user_policy (with_search first_page (Some "bob")) users) with
            | Return res => res
            | Throw _ => {| data := []; total := 0; result_page := 0; result_limit := 0 |}
            end)).
  vm_compute. reflexivity.
Defined.

(** X17 on the users: the earlier revision answers [?filters={] like a
    request without filters. *)
Lemma legacy_findAll_ignores_unparsable_filters_witness :
  @Legacy.findAll user_policy (with_filters first_page (Some "{")) users
  = @Legacy.findAll user_policy (with_filters (with_filters first_page (Some "{")) None) users.
Proof.
  apply (@legacy_findAll_ignores_unparsable_filters user_policy
           (with_filters first_page (Some "{")) "{" users); reflexivity.
Defined.

(** X18: in the earlier revision, the update of a key that no row has
    throws a plain [Error] that names the id as JavaScript prints it,
    which the exception filter answers with status 500 and a fixed
    message. *)
Theorem legacy_update_of_missing_row (z : Z) (entity : row) (t : table) (url now : string) :
  entity <> [] ->
  unknown_column t (map fst entity) = None ->
  find (has_id z) (rows t) = None ->
  fst (Legacy.update (Num z) entity t)
  = Throw (PlainError ("Entity with id " ++ string_of_number (Num z)
                       ++ " not found after update")) /\
  ExceptionFilter.statusCode
    (ExceptionFilter.catch
       (PlainError ("Entity with id " ++ string_of_number (Num z)
                    ++ " not found after update")) url now)
  = 500%Z /\
  ExceptionFilter.message
    (ExceptionFilter.catch
       (PlainError ("Entity with id " ++ string_of_number (Num z)
                    ++ " not found after update")) url now)
  = "Internal server error".
Proof.
  intros Hne Hcols Hfind. split; [|split; reflexivity].
  assert (Hfilter : filter (has_id z) (rows t) = []) by (apply find_none_filter; exact Hfind).
  assert (Hmap : map (fun x => if has_id z x then merge x entity else x) (rows t) = rows t).
  { clear Hfilter. induction (rows t) as [|x l IH]; [reflexivity|].
    simpl in Hfind. destruct (has_id z x) eqn:E; [discriminate Hfind|].
    simpl. rewrite E, IH by exact Hfind. reflexivity. }
  unfold Legacy.update, bind, Orm.update.
  destruct entity as [|cv entity]; [congruence|].
  rewrite Hcols, Hfilter. cbn [map first_violation List.length]. rewrite Hmap.
  unfold Legacy.findOne, Orm.findOne. cbn [rows with_rows]. rewrite Hfind.
  reflexivity.
Qed.

(** X18 on the users, at the key 7 and at the key [10^21]. *)
Lemma legacy_update_of_missing_row_witness :
  fst (Legacy.update (Num 7) [("name", SText "Carol")] users)
  = Throw (PlainError "Entity with id 7 not found after update") /\
  fst (Legacy.update (Num (10 ^ 21)) [("name", SText "Carol")] users)
  = Throw (PlainError "Entity with id 1e+21 not found after update").
Proof.
  split.
  - apply (legacy_update_of_missing_row 7 [("name", SText "Carol")] users "/users/7" "now");
      [discriminate | reflexivity | reflexivity].
  - apply (legacy_update_of_missing_row (10 ^ 21) [("name", SText "Carol")] users "/users" "now");
      [discriminate | reflexivity | reflexivity].
Defined.
